(** * GeoPerfMonitor: the performance measurement and aggregation engine

    A shallow embedding of the measurement core of the dashboard:
    - the Metric Bus of [services/monitor.ts] ([subscribeToMetrics],
      [notifyListeners]);
    - the aggregator [calculateMetrics] of [App.tsx] (and the older
      [aggregatedMetrics] memo, which only adds a final sort);
    - the idle waiter [waitForIdle];
    - the benchmark orchestrator [runBenchmark].

    Conventions of the embedding.
    - JavaScript numbers that hold timestamps, durations and counters are
      integers ([Date.now()] and [++]); they are [Z].  The benchmark adds,
      divides and compares load times in seconds: there a number is what it
      is in JavaScript, an IEEE 754 binary64 value, given by the primitive
      floats of Rocq (correctly rounded operations, [NaN], signed zeros).
      Where the code takes one quotient of integers and only its sign and
      order matter (the event log, the charts, the comparison), the
      quotient is the rational [Q].
    - Strings are [string]; [toLowerCase] is the ASCII case folding (service
      URLs are ASCII).
    - A JavaScript object used as a dictionary is an association list in
      property-creation order; assigning an existing key keeps its position.
      [Object.values] enumerates it as the language does: the properties
      whose name is an array index first, by ascending index, then the
      others in creation order.
    - Exceptions are [option]/sum results; awaited external operations (the
      map view, timers, the network) are read from an explicit environment. *)

From Stdlib Require Import Floats.
From Stdlib Require Import ZArith List String Ascii Bool Lia QArith Lqa.
From Stdlib Require Import DecimalString Sorted Permutation.
Import ListNotations.

Local Open Scope string_scope.
Local Open Scope list_scope.
Local Open Scope Z_scope.

(** ** Data model ([types.ts]) *)

Inductive LayerType := feature | tile | map_image | vector_tile.

Module MapLayer.
Record t := mk {
  id : string;
  title : string;
  url : string;
  type : LayerType;
  visible : bool;
  color : option string;
  excludeFromMetrics : option bool
}.
End MapLayer.

Module NetworkRequestMetric.
Record t := mk {
  id : string;
  url : string;
  startTime : Z;
  endTime : Z;
  duration : Z;
  status : Z;
  size : option Z
}.
End NetworkRequestMetric.

Module LayerPerformanceSummary.
Record t := mk {
  id : string;
  title : string;
  domain : string;
  requestCount : Z;
  avgLatency : Z;
  totalDuration : Z;
  loadTime : Z;
  totalSize : Z;
  errorCount : Z;
  requests : list NetworkRequestMetric.t
}.
End LayerPerformanceSummary.

Module ML := MapLayer.
Module NRM := NetworkRequestMetric.
Module LPS := LayerPerformanceSummary.

(** ** Strings: [toLowerCase] and [includes] *)

Definition lower_ascii (c : ascii) : ascii :=
  let n := nat_of_ascii c in
  if (65 <=? n)%nat && (n <=? 90)%nat then ascii_of_nat (n + 32) else c.

Fixpoint toLowerCase (s : string) : string :=
  match s with
  | EmptyString => EmptyString
  | String c r => String (lower_ascii c) (toLowerCase r)
  end.

(** [s.includes(sub)]: [sub] occurs in [s] at some offset. *)
Fixpoint includes (s sub : string) : bool :=
  if String.prefix sub s then true
  else match s with
       | EmptyString => false
       | String _ r => includes r sub
       end.

(** ** The order in which an object's own properties are enumerated

    A property name is an array index when it is the canonical decimal
    numeral of an integer below 2^32 - 1 (["0"], ["7"], ["42"], but not
    ["007"], ["-1"] or ["1.5"]).  Such properties come first, by ascending
    index; the others follow in the order of their creation. *)

Definition digit_value (c : ascii) : option N :=
  let n := N_of_ascii c in
  if (48 <=? n)%N && (n <=? 57)%N then Some (n - 48)%N else None.

Fixpoint decimal_value (s : string) (acc : N) : option N :=
  match s with
  | EmptyString => Some acc
  | String c rest =>
      match digit_value c with
      | Some d => decimal_value rest (acc * 10 + d)%N
      | None => None
      end
  end.

Definition array_index (k : string) : option N :=
  match k with
  | EmptyString => None
  | String c rest =>
      if Ascii.eqb c "0"%char && negb (String.eqb rest "") then None
      else match decimal_value k 0 with
           | Some n => if (n <? 4294967295)%N then Some n else None
           | None => None
           end
  end.

Section PropertyOrder.
Context {A : Type}.
Variable key : A -> string.

Definition is_index (a : A) : bool :=
  match array_index (key a) with Some _ => true | None => false end.

Definition index_of (a : A) : N :=
  match array_index (key a) with Some n => n | None => 0%N end.

Fixpoint insert_by_index (a : A) (sorted : list A) : list A :=
  match sorted with
  | [] => [a]
  | b :: r =>
      if (index_of a <=? index_of b)%N then a :: b :: r
      else b :: insert_by_index a r
  end.

(** [xs] in creation order, rearranged as the enumeration goes. *)
Definition property_order (xs : list A) : list A :=
  fold_right insert_by_index [] (filter is_index xs)
  ++ filter (fun a => negb (is_index a)) xs.
End PropertyOrder.

(** ** Dictionaries keyed by strings, in creation order *)

Section Dict.
Context {V : Type}.

Definition dict := list (string * V).

Fixpoint dict_get (k : string) (d : dict) : option V :=
  match d with
  | [] => None
  | (k', v) :: r => if String.eqb k' k then Some v else dict_get k r
  end.

(** [d[k] = v]: overwrite in place, or append a new property. *)
Fixpoint dict_set (k : string) (v : V) (d : dict) : dict :=
  match d with
  | [] => [(k, v)]
  | (k', v') :: r =>
      if String.eqb k' k then (k, v) :: r else (k', v') :: dict_set k v r
  end.

Definition dict_keys (d : dict) : list string := map fst d.

(** [Object.values(d)] *)
Definition Object_values (d : dict) : list V := map snd (property_order fst d).

(** [d[k]] mutated in place by [f], as an operation on the entries. *)
Definition adjust_entry (k : string) (f : V -> V) (e : string * V) : string * V :=
  if String.eqb (fst e) k then (fst e, f (snd e)) else e.
End Dict.
Arguments dict V : clear implicits.

(** ** [Math.min(...xs)] and [Math.max(...xs)] on a non-empty argument list *)

Definition Math_min (x : Z) (xs : list Z) : Z := fold_left Z.min xs x.
Definition Math_max (x : Z) (xs : list Z) : Z := fold_left Z.max xs x.

(** ** The aggregator *)

Definition LAYER_COLORS : list string :=
  [ "#3b82f6"; "#10b981"; "#f59e0b"; "#ef4444";
    "#8b5cf6"; "#ec4899"; "#06b6d4"; "#84cc16" ].

(** A missing optional flag is [undefined], which is falsy. *)
Definition truthy (b : option bool) : bool :=
  match b with Some true => true | _ => false end.

Fixpoint layersWithColors_from (i : nat) (layers : list ML.t) : list ML.t :=
  match layers with
  | [] => []
  | l :: r =>
      ML.mk (ML.id l) (ML.title l) (ML.url l) (ML.type l) (ML.visible l)
           (if truthy (ML.excludeFromMetrics l) then Some "#52525b"
            else nth_error LAYER_COLORS (i mod 8)%nat)
           (ML.excludeFromMetrics l)
      :: layersWithColors_from (S i) r
  end.

Definition layersWithColors (layers : list ML.t) : list ML.t :=
  layersWithColors_from 0 layers.

Definition metricLayers (layers : list ML.t) : list ML.t :=
  filter (fun l => negb (truthy (ML.excludeFromMetrics l))) (layersWithColors layers).

(** The attribution test of [calculateMetrics]:
    [m.url.toLowerCase().includes(l.url.toLowerCase())]. *)
Definition url_matches (m : NRM.t) (l : ML.t) : bool :=
  includes (toLowerCase (NRM.url m)) (toLowerCase (ML.url l)).

(** [metricLayers.find(l => ...)] *)
Definition matchedLayer (mls : list ML.t) (m : NRM.t) : option ML.t :=
  find (url_matches m) mls.

Section Aggregator.
(** [new URL(u).hostname] of the platform: [None] when the constructor
    throws a [TypeError] on a string that is not a URL. *)
Variable URL_hostname : string -> option string.

Definition empty_summary (l : ML.t) (dom : string) : LPS.t :=
  LPS.mk (ML.id l) (ML.title l) dom 0 0 0 0 0 0 [].

(** First loop: one zeroed summary per metric layer.  A layer whose URL
    does not parse makes the whole aggregation throw. *)
Fixpoint init_stats (mls : list ML.t) (stats : dict LPS.t) : option (dict LPS.t) :=
  match mls with
  | [] => Some stats
  | l :: r =>
      match URL_hostname (ML.url l) with
      | None => None
      | Some dom => init_stats r (dict_set (ML.id l) (empty_summary l dom) stats)
      end
  end.

(** Body of the second loop, for one request. *)
Definition record_request (m : NRM.t) (s : LPS.t) : LPS.t :=
  LPS.mk (LPS.id s) (LPS.title s) (LPS.domain s)
       (LPS.requestCount s + 1) (LPS.avgLatency s)
       (LPS.totalDuration s + NRM.duration m) (LPS.loadTime s)
       (LPS.totalSize s) (LPS.errorCount s)
       (LPS.requests s ++ [m]).

Definition bin_request (mls : list ML.t) (stats : dict LPS.t) (m : NRM.t) : dict LPS.t :=
  match matchedLayer mls m with
  | Some l =>
      match dict_get (ML.id l) stats with
      | Some s => dict_set (ML.id l) (record_request m s) stats
      | None => stats
      end
  | None => stats
  end.

(** Body of the third loop. *)
Definition set_loadTime (s : LPS.t) : LPS.t :=
  match LPS.requests s with
  | [] => s
  | r :: rs =>
      let minStart := Math_min (NRM.startTime r) (map NRM.startTime rs) in
      let maxEnd := Math_max (NRM.endTime r) (map NRM.endTime rs) in
      LPS.mk (LPS.id s) (LPS.title s) (LPS.domain s) (LPS.requestCount s)
           (LPS.avgLatency s) (LPS.totalDuration s) (maxEnd - minStart)
           (LPS.totalSize s) (LPS.errorCount s) (LPS.requests s)
  end.

Definition dict_map_values {V} (f : V -> V) (d : dict V) : dict V :=
  map (fun kv => (fst kv, f (snd kv))) d.

(** [calculateMetrics] with the layer list it closes over made explicit. *)
Definition calculateMetrics_on (mls : list ML.t) (metrics : list NRM.t)
  : option (list LPS.t) :=
  match init_stats mls [] with
  | None => None
  | Some stats0 =>
      let stats1 := fold_left (bin_request mls) metrics stats0 in
      let stats2 := dict_map_values set_loadTime stats1 in
      Some (Object_values stats2)
  end.

Definition calculateMetrics (layers : list ML.t) (metrics : list NRM.t)
  : option (list LPS.t) :=
  calculateMetrics_on (metricLayers layers) metrics.

(** The [aggregatedMetrics] memo of the earlier [App.tsx]: the same three
    loops, then [.sort((a, b) => b.loadTime - a.loadTime)] (a stable sort,
    slowest layer first). *)
Fixpoint sort_insert (a : LPS.t) (sorted : list LPS.t) : list LPS.t :=
  match sorted with
  | [] => [a]
  | b :: r =>
      if LPS.loadTime b - LPS.loadTime a <=? 0 then a :: b :: r
      else b :: sort_insert a r
  end.

Definition sort_by_loadTime_desc (l : list LPS.t) : list LPS.t :=
  fold_right sort_insert [] l.

Definition aggregatedMetrics (layers : list ML.t) (rawMetrics : list NRM.t)
  : option (list LPS.t) :=
  option_map sort_by_loadTime_desc (calculateMetrics layers rawMetrics).
End Aggregator.

(** ** The Metric Bus ([services/monitor.ts]) *)

Module MetricBus.
(** A callback is known to the bus by its identity only. *)
Definition Listener := nat.

(** [Set<Listener>]: the entries in insertion order.  [delete] leaves an
    empty slot, so that an iteration in progress keeps its position; empty
    slots are never observed otherwise. *)
Definition ListenerSet := list (option Listener).

Definition slot_is (l : Listener) (e : option Listener) : bool :=
  match e with Some l' => Nat.eqb l' l | None => false end.

Definition set_has (l : Listener) (s : ListenerSet) : bool :=
  existsb (slot_is l) s.

Definition set_add (l : Listener) (s : ListenerSet) : ListenerSet :=
  if set_has l s then s else s ++ [Some l].

Definition set_delete (l : Listener) (s : ListenerSet) : ListenerSet :=
  map (fun e => if slot_is l e then None else e) s.

(** The callbacks currently subscribed, in subscription order. *)
Fixpoint members (s : ListenerSet) : list Listener :=
  match s with
  | [] => []
  | Some l :: r => l :: members r
  | None :: r => members r
  end.

(** [subscribeToMetrics(callback)] adds the callback and returns the
    closure that deletes it again. *)
Definition subscribeToMetrics (callback : Listener) (listeners : ListenerSet)
  : ListenerSet * (ListenerSet -> ListenerSet) :=
  (set_add callback listeners, set_delete callback).

(** What a callback does to the bus while it runs. *)
Inductive BusOp :=
| Subscribe (l : Listener)
| Unsubscribe (l : Listener).

Definition run_op (s : ListenerSet) (op : BusOp) : ListenerSet :=
  match op with
  | Subscribe l => fst (subscribeToMetrics l s)
  | Unsubscribe l => snd (subscribeToMetrics l s) s
  end.

(** The operations [ops] delete the callback [x]. *)
Definition unsubscribed_in (ops : list BusOp) (x : Listener) : bool :=
  existsb (fun op => match op with Unsubscribe y => Nat.eqb y x | _ => false end) ops.

(** The effect of the deletions of [ops] on one slot. *)
Definition clear_slot (ops : list BusOp) (e : option Listener) : option Listener :=
  match e with
  | Some x => if unsubscribed_in ops x then None else Some x
  | None => None
  end.

Definition is_unsubscribe (op : BusOp) : bool :=
  match op with Unsubscribe _ => true | Subscribe _ => false end.

Section Dispatch.
Variable behaviour : Listener -> NRM.t -> list BusOp.

(** [listeners.forEach(l => l(metric))]: the iteration walks the slots by
    index and re-reads the set after every call.  The second component
    is the sequence of callbacks invoked. *)
Fixpoint forEach_from (fuel : nat) (metric : NRM.t) (index : nat)
         (s : ListenerSet) (called : list Listener)
  : option (ListenerSet * list Listener) :=
  match fuel with
  | O => None
  | S fuel' =>
      match nth_error s index with
      | None => Some (s, called)
      | Some None => forEach_from fuel' metric (S index) s called
      | Some (Some l) =>
          forEach_from fuel' metric (S index)
                       (fold_left run_op (behaviour l metric) s)
                       (called ++ [l])
      end
  end.

Definition notifyListeners (fuel : nat) (metric : NRM.t) (listeners : ListenerSet)
  : option (ListenerSet * list Listener) :=
  forEach_from fuel metric 0 listeners [].

(** The dispatch pass the specification asks for: every callback
    subscribed when the publish begins, in subscription order. *)
Definition snapshot_dispatch (listeners : ListenerSet) : list Listener :=
  members listeners.

(** The dispatch pass of the code, on the list of subscribed callbacks:
    a callback is called unless an earlier call of the pass removed it. *)
Definition unsubscribed_by (l : Listener) (metric : NRM.t) (x : Listener) : bool :=
  unsubscribed_in (behaviour l metric) x.

Definition only_unsubscribes (l : Listener) (metric : NRM.t) : bool :=
  forallb is_unsubscribe (behaviour l metric).

(** [removed] tells which callbacks the calls made so far have removed. *)
Fixpoint live_dispatch (metric : NRM.t) (removed : Listener -> bool)
         (ls : list Listener) : list Listener :=
  match ls with
  | [] => []
  | l :: r =>
      if removed l then live_dispatch metric removed r
      else l :: live_dispatch metric
                  (fun x => removed x || unsubscribed_by l metric x) r
  end.
End Dispatch.
End MetricBus.

(** ** The idle waiter *)

Module IdleWaiter.
(** What the task sees when a timer wakes it up: how late the timer fired
    (a timer never fires early), [viewRef.current?.updating] and the
    per-layer status table. *)
Record Wakeup := mk {
  late : nat;
  view_updating : option bool;
  layerStatuses : dict bool
}.

Definition view_busy (w : Wakeup) : bool := truthy (view_updating w).

Definition layersBusy (w : Wakeup) : bool :=
  existsb (fun status => Bool.eqb status true) (Object_values (layerStatuses w)).

(** The environment gives the wake-ups in the order they happen; the state
    of the waiter is the clock [now] and the number [k] of wake-ups used.
    The result holds the returned boolean and the clock at return. *)
Fixpoint waitForIdle_loop (fuel : nat) (env : nat -> Wakeup)
         (start timeout now : Z) (k : nat) : option (bool * Z * nat) :=
  match fuel with
  | O => None
  | S fuel' =>
      if now - start <? timeout then
        let w := env k in
        let now1 := now + 200 + Z.of_nat (late w) in
        if view_busy w then
          waitForIdle_loop fuel' env start timeout now1 (S k)
        else if layersBusy w then
          waitForIdle_loop fuel' env start timeout now1 (S k)
        else
          let w2 := env (S k) in
          let now2 := now1 + 800 + Z.of_nat (late w2) in
          if negb (view_busy w2) && negb (existsb (fun s => s) (Object_values (layerStatuses w2)))
          then Some (true, now2, S (S k))
          else waitForIdle_loop fuel' env start timeout now2 (S (S k))
      else Some (false, now, k)
  end.

Definition waitForIdle (fuel : nat) (env : nat -> Wakeup) (timeout now : Z) (k : nat)
  : option (bool * Z * nat) :=
  waitForIdle_loop fuel env now timeout now k.

(** Polls that suffice when every poll takes at least 200ms. *)
Definition enough_polls (timeout : Z) : nat := S (Z.to_nat (timeout / 200 + 1)).
End IdleWaiter.

(** ** JavaScript numbers

    A [Number] is an IEEE 754 binary64 value.  [float] is that type, and
    [+], [-], [*], [/], [<?] and [=?] on it are the operations of the
    standard, rounded to nearest, ties to even. *)

Module JSNumber.
(** The number that holds the integer [z]: exact up to 2^53 in absolute
    value, correctly rounded above. *)
Definition of_Z (z : Z) : float := SF2Prim (binary_normalize prec emax z 0 false).

(** [Number.isNaN(x)] *)
Definition is_NaN (x : float) : bool := negb (x =? x)%float.

(** The falsy numbers: [+0], [-0] and [NaN]. *)
Definition falsy (x : float) : bool := (x =? 0)%float || is_NaN x.

(** [x || 0] *)
Definition or_zero (x : float) : float := if falsy x then 0%float else x.

(** How two finite numbers of the same sign compare in absolute value,
    given their exponents and mantissas. *)
Definition fin_cmp (e1 : Z) (m1 : positive) (e2 : Z) (m2 : positive) : comparison :=
  match e1 ?= e2 with
  | Eq => Pos.compare m1 m2
  | Lt => Lt
  | Gt => Gt
  end.
End JSNumber.

(** ** The benchmark orchestrator: data *)

Inductive StepType := nav | query.

Module LayerStepMetric.
Record t := mk { loadTime : float; requestCount : Z }.
End LayerStepMetric.

Module BenchmarkStepResult.
Record t := mk {
  stepName : string;
  type : StepType;
  layerMetrics : dict LayerStepMetric.t
}.
End BenchmarkStepResult.

Module LayerRanking.
Record t := mk {
  avgNavLoadTime : float;
  avgQueryLoadTime : float;
  totalRequests : Z;
  score : float
}.
End LayerRanking.

Module BenchmarkReportData.
Record t := mk {
  date : string;
  steps : list BenchmarkStepResult.t;
  summary : dict LayerRanking.t;
  fastestLayerId : option string;
  slowestLayerId : option string;
  percentFaster : float
}.
End BenchmarkReportData.

Module LSM := LayerStepMetric.
Module BSR := BenchmarkStepResult.
Module LR := LayerRanking.
Module BRD := BenchmarkReportData.

Module Town.
Record t := mk { name : string; center : Q * Q }.
End Town.

Definition TOWNS : list Town.t :=
  [ Town.mk "Montpelier" (-725778 # 10000, 442601 # 10000);
    Town.mk "Burlington" (-732121 # 10000, 444759 # 10000);
    Town.mk "Rutland" (-729726 # 10000, 436106 # 10000);
    Town.mk "St. Albans" (-730825 # 10000, 448109 # 10000);
    Town.mk "Brattleboro" (-725579 # 10000, 428509 # 10000);
    Town.mk "Middlebury" (-731673 # 10000, 440153 # 10000);
    Town.mk "Newport" (-722053 # 10000, 449362 # 10000);
    Town.mk "Bennington" (-731968 # 10000, 428781 # 10000);
    Town.mk "St. Johnsbury" (-720158 # 10000, 444196 # 10000);
    Town.mk "Stowe" (-726856 # 10000, 444654 # 10000) ].

(** What a step does when run. *)
Inductive Action :=
| GoTo (zoom : Z) (center : Q * Q)
| QueryFeatures.

Module Step.
Record t := mk { name : string; type : StepType; action : Action }.
End Step.

(** Template literals print numbers in decimal. *)
Definition show_nat (n : nat) : string := NilZero.string_of_uint (Nat.to_uint n).

(** [TOWNS[i % TOWNS.length]]: the index is always in range; the default of
    [nth] is never used. *)
Definition navStep (i : nat) : Step.t :=
  let zoom := (10 + i mod 7)%nat in
  let town := nth (i mod List.length TOWNS)%nat TOWNS (Town.mk "" (0, 0)%Q) in
  Step.mk ("Nav " ++ show_nat (i + 1) ++ ": " ++ Town.name town
             ++ " (Z" ++ show_nat zoom ++ ")")%string
          nav
          (GoTo (Z.of_nat zoom) (Town.center town)).

Definition navSteps : list Step.t := map navStep (seq 0 10).

Definition queryStep (i : nat) : Step.t :=
  Step.mk ("Query " ++ show_nat i ++ ": Features")%string query QueryFeatures.

Definition querySteps : list Step.t := map queryStep (seq 1 5).

Definition allSteps : list Step.t := navSteps ++ querySteps.

(** ** The benchmark orchestrator: state and environment *)

Record AppState := mkApp {
  isRunningBenchmark : bool;
  benchmarkProgress : string;
  benchmarkReport : option BRD.t;
  isRecording : bool;
  isRecordingRef : bool;
  rawMetrics : list NRM.t;
  benchmarkMetricsRef : list NRM.t;
  console : list string
}.

Definition setIsRunningBenchmark (b : bool) (st : AppState) : AppState :=
  mkApp b (benchmarkProgress st) (benchmarkReport st) (isRecording st)
        (isRecordingRef st) (rawMetrics st) (benchmarkMetricsRef st) (console st).
Definition setBenchmarkProgress (p : string) (st : AppState) : AppState :=
  mkApp (isRunningBenchmark st) p (benchmarkReport st) (isRecording st)
        (isRecordingRef st) (rawMetrics st) (benchmarkMetricsRef st) (console st).
Definition setBenchmarkReport (r : option BRD.t) (st : AppState) : AppState :=
  mkApp (isRunningBenchmark st) (benchmarkProgress st) r (isRecording st)
        (isRecordingRef st) (rawMetrics st) (benchmarkMetricsRef st) (console st).
Definition setIsRecording (b : bool) (st : AppState) : AppState :=
  mkApp (isRunningBenchmark st) (benchmarkProgress st) (benchmarkReport st) b
        (isRecordingRef st) (rawMetrics st) (benchmarkMetricsRef st) (console st).
Definition set_isRecordingRef (b : bool) (st : AppState) : AppState :=
  mkApp (isRunningBenchmark st) (benchmarkProgress st) (benchmarkReport st)
        (isRecording st) b (rawMetrics st) (benchmarkMetricsRef st) (console st).
Definition setRawMetrics (ms : list NRM.t) (st : AppState) : AppState :=
  mkApp (isRunningBenchmark st) (benchmarkProgress st) (benchmarkReport st)
        (isRecording st) (isRecordingRef st) ms (benchmarkMetricsRef st) (console st).
Definition set_benchmarkMetricsRef (ms : list NRM.t) (st : AppState) : AppState :=
  mkApp (isRunningBenchmark st) (benchmarkProgress st) (benchmarkReport st)
        (isRecording st) (isRecordingRef st) (rawMetrics st) ms (console st).
Definition console_log (line : string) (st : AppState) : AppState :=
  mkApp (isRunningBenchmark st) (benchmarkProgress st) (benchmarkReport st)
        (isRecording st) (isRecordingRef st) (rawMetrics st)
        (benchmarkMetricsRef st) (console st ++ [line]).

(** [prev.slice(-n)] *)
Definition slice_last {A} (n : nat) (l : list A) : list A :=
  skipn (List.length l - n) l.

(** The subscriber installed by [App]: every published metric goes to the
    recording buffer while recording, and to the benchmark accumulator while
    a benchmark runs.  (The callback reads [isRunningBenchmark] from the
    render that installed it; the effect re-installs it whenever the flag
    changes, so the flag of the current state is the one it sees.) *)
Definition on_metric (st : AppState) (metric : NRM.t) : AppState :=
  let st1 := if isRecordingRef st
             then setRawMetrics (slice_last 3000 (rawMetrics st) ++ [metric]) st
             else st in
  if isRunningBenchmark st1
  then set_benchmarkMetricsRef (benchmarkMetricsRef st1 ++ [metric]) st1
  else st1.

(** How an awaited promise settles. *)
Inductive Outcome := Resolved | Rejected.

(** What the outside world does during one step: how the navigation and the
    layer queries settle, what [waitForIdle] answers, and which metrics are
    published while the action is pending, while the step waits, and during
    the pause before the next step. *)
Record StepEnv := mkStepEnv {
  goTo_outcome : Outcome;
  query_outcomes : list Outcome;
  idle_confirmed : bool;
  arrived_in_action : list NRM.t;
  arrived_in_wait : list NRM.t;
  arrived_in_pause : list NRM.t
}.

Record RunEnv := mkRunEnv {
  view_available : bool;
  setup_goTo : Outcome;
  setup_idle : bool;
  setup_arrived : list NRM.t;
  step_env : nat -> StepEnv;
  report_date : string
}.

(** ** Tasks: state passing with exceptions *)

(** [None] in the first component: an exception is propagating. *)
Definition Task (A : Type) : Type := AppState -> option A * AppState.

Definition ret {A} (a : A) : Task A := fun st => (Some a, st).
Definition throw {A} : Task A := fun st => (None, st).
Definition bind {A B} (t : Task A) (k : A -> Task B) : Task B :=
  fun st => match t st with
            | (Some a, st') => k a st'
            | (None, st') => (None, st')
            end.
Definition modify (f : AppState -> AppState) : Task unit :=
  fun st => (Some tt, f st).
Definition gets {A} (f : AppState -> A) : Task A := fun st => (Some (f st), st).
Definition lift_option {A} (o : option A) : Task A :=
  match o with Some a => ret a | None => throw end.

Declare Scope task_scope.
Delimit Scope task_scope with task.
Notation "x <- t ;; k" := (bind t (fun x => k))
  (at level 61, t at next level, right associativity) : task_scope.
Notation "t ;;; k" := (bind t (fun _ => k))
  (at level 61, right associativity) : task_scope.

(** [await p] *)
Definition await (p : Outcome) : Task unit :=
  match p with Resolved => ret tt | Rejected => throw end.

(** Metrics published while the task is suspended. *)
Definition deliver (ms : list NRM.t) : Task unit :=
  modify (fun st => fold_left on_metric ms st).

(** [p.catch(e => console.warn("Query failed", e))] *)
Definition catch_warn (p : Outcome) : Task Outcome :=
  match p with
  | Resolved => ret Resolved
  | Rejected => bind (modify (console_log "Query failed")) (fun _ => ret Resolved)
  end.

Fixpoint catch_all (ps : list Outcome) : Task (list Outcome) :=
  match ps with
  | [] => ret []
  | p :: r => bind (catch_warn p) (fun p' =>
              bind (catch_all r) (fun r' => ret (p' :: r')))
  end.

Definition Promise_all (ps : list Outcome) : Outcome :=
  if existsb (fun p => match p with Rejected => true | Resolved => false end) ps
  then Rejected else Resolved.

Definition run_action (e : StepEnv) (a : Action) : Task unit :=
  match a with
  | GoTo _ _ =>
      (deliver (arrived_in_action e) ;;; await (goTo_outcome e))%task
  | QueryFeatures =>
      (queryPromises <- catch_all (query_outcomes e) ;;
       deliver (arrived_in_action e) ;;;
       await (Promise_all queryPromises))%task
  end.

(** [await waitForIdle()] for a navigation step, [setTimeout(r, 2000)] for a
    query step: metrics keep arriving, the waiter's answer is dropped.  (The
    waiter never throws and always returns, see [waitForIdle_returns]; here
    its answer is given by the environment.) *)
Definition wait_after (e : StepEnv) (ty : StepType) : Task unit :=
  match ty with
  | nav => (deliver (arrived_in_wait e) ;;; _ <- ret (idle_confirmed e) ;; ret tt)%task
  | query => deliver (arrived_in_wait e)
  end.

(** ** The benchmark orchestrator: report synthesis *)

(** [a < b] on rationals *)
Definition Qltb (a b : Q) : bool := negb (Qle_bool b a).

(** [x || 0] on a rational *)
Definition or_zero (x : Q) : Q := if Qeq_bool x 0 then 0%Q else x.

(** [xs.reduce((acc, curr) => acc + curr.loadTime, 0)]: the sum from the
    left, each addition rounded. *)
Definition total_loadTime (xs : list LSM.t) : float :=
  fold_left (fun acc curr => (acc + LSM.loadTime curr)%float) xs 0%float.

Definition total_requestCount (xs : list LSM.t) : Z :=
  fold_left (fun acc curr => acc + LSM.requestCount curr) xs 0.

Definition StepType_eqb (a b : StepType) : bool :=
  match a, b with nav, nav | query, query => true | _, _ => false end.

Fixpoint all_defined {A} (xs : list (option A)) : option (list A) :=
  match xs with
  | [] => Some []
  | None :: _ => None
  | Some a :: r => option_map (cons a) (all_defined r)
  end.

(** [results.filter(r => r.type === ty).map(r => r.layerMetrics[id])]; an
    entry that is [undefined] makes the [reduce] that follows throw. *)
Definition layer_steps (ty : StepType) (results : list BSR.t) (id : string)
  : option (list LSM.t) :=
  all_defined
    (map (fun r => dict_get id (BSR.layerMetrics r))
         (filter (fun r => StepType_eqb (BSR.type r) ty) results)).

Definition average (total : float) (n : nat) : float :=
  if (0 <? n)%nat then (total / JSNumber.of_Z (Z.of_nat n))%float else 0%float.

Definition layer_ranking (results : list BSR.t) (l : ML.t) : option LR.t :=
  match layer_steps nav results (ML.id l), layer_steps query results (ML.id l) with
  | Some layerNavSteps, Some layerQuerySteps =>
      let totalNavLoad := total_loadTime layerNavSteps in
      let totalQueryLoad := total_loadTime layerQuerySteps in
      let totalReq := total_requestCount (layerNavSteps ++ layerQuerySteps) in
      let avgNavLoad := average totalNavLoad (List.length layerNavSteps) in
      let avgQueryLoad := average totalQueryLoad (List.length layerQuerySteps) in
      Some (LR.mk avgNavLoad avgQueryLoad totalReq avgNavLoad)
  | _, _ => None
  end.

Fixpoint build_summary (results : list BSR.t) (mls : list ML.t)
         (summary : dict LR.t) : option (dict LR.t) :=
  match mls with
  | [] => Some summary
  | l :: r =>
      match layer_ranking results l with
      | Some e => build_summary results r (dict_set (ML.id l) e summary)
      | None => None
      end
  end.

(** [summary[id].score]; reading [.score] of [undefined] throws. *)
Definition score_of (summary : dict LR.t) (id : string) : option float :=
  option_map LR.score (dict_get id summary).

(** One round of the ranking loop. *)
Definition rank_step (summary : dict LR.t) (ids : option (string * string)) (l : ML.t)
  : option (string * string) :=
  match ids with
  | None => None
  | Some (fastestId, slowestId) =>
      match score_of summary (ML.id l), score_of summary fastestId,
            score_of summary slowestId with
      | Some sl, Some sf, Some ss =>
          Some (if (sl <? sf)%float then ML.id l else fastestId,
                if (ss <? sl)%float then ML.id l else slowestId)
      | _, _, _ => None
      end
  end.

(** A non-empty string is truthy. *)
Definition string_truthy (s : string) : bool :=
  match s with EmptyString => false | _ => true end.

(** [fastestId] and [slowestId] after the loop; [metricLayers[0]?.id] is
    [undefined] when there is no metric layer. *)
Definition rank (summary : dict LR.t) (mls : list ML.t)
  : option (option string * option string) :=
  match mls with
  | [] => Some (None, None)
  | l0 :: _ =>
      if string_truthy (ML.id l0) then
        match fold_left (rank_step summary) mls (Some (ML.id l0, ML.id l0)) with
        | Some (f, s) => Some (Some f, Some s)
        | None => None
        end
      else Some (Some (ML.id l0), Some (ML.id l0))
  end.

(** [summary[id]?.avgNavLoadTime || 0] *)
Definition avgNav_or_zero (summary : dict LR.t) (id : option string) : float :=
  match id with
  | None => 0%float
  | Some i =>
      match dict_get i summary with
      | Some e => JSNumber.or_zero (LR.avgNavLoadTime e)
      | None => 0%float
      end
  end.

(** [fastTime > 0 ? ((slowTime / fastTime) - 1) * 100 : 0] *)
Definition percent_faster (fastTime slowTime : float) : float :=
  if (0 <? fastTime)%float then ((slowTime / fastTime - 1) * 100)%float else 0%float.

Section Orchestrator.
Variable URL_hostname : string -> option string.

Definition layer_step_metric (stepMetrics : list LPS.t) (l : ML.t) : LSM.t :=
  match find (fun s => String.eqb (LPS.id s) (ML.id l)) stepMetrics with
  | Some sm => LSM.mk (JSNumber.of_Z (LPS.loadTime sm) / 1000)%float
                      (LPS.requestCount sm)
  | None => LSM.mk 0%float 0
  end.

Definition resultLayerMetrics (mls : list ML.t) (stepMetrics : list LPS.t)
  : dict LSM.t :=
  fold_left (fun d l => dict_set (ML.id l) (layer_step_metric stepMetrics l) d) mls [].

(** Body of the loop over [allSteps]. *)
Definition run_step (mls : list ML.t) (e : StepEnv) (step : Step.t)
           (results : list BSR.t) : Task (list BSR.t) :=
  (modify (setBenchmarkProgress ("Executing: " ++ Step.name step)%string) ;;;
   modify (set_benchmarkMetricsRef []) ;;;
   run_action e (Step.action step) ;;;
   wait_after e (Step.type step) ;;;
   acc <- gets benchmarkMetricsRef ;;
   stepMetrics <- lift_option (calculateMetrics_on URL_hostname mls acc) ;;
   let results' :=
     results ++ [BSR.mk (Step.name step) (Step.type step)
                        (resultLayerMetrics mls stepMetrics)] in
   deliver (arrived_in_pause e) ;;;
   ret results')%task.

Fixpoint run_steps (mls : list ML.t) (env : RunEnv) (steps : list Step.t)
         (k : nat) (results : list BSR.t) : Task (list BSR.t) :=
  match steps with
  | [] => ret results
  | step :: rest =>
      (results' <- run_step mls (step_env env k) step results ;;
       run_steps mls env rest (S k) results')%task
  end.

Definition make_report (env : RunEnv) (mls : list ML.t) (results : list BSR.t)
  : option BRD.t :=
  match build_summary results mls [] with
  | None => None
  | Some summary =>
      match rank summary mls with
      | None => None
      | Some (fastestId, slowestId) =>
          let fastTime := avgNav_or_zero summary fastestId in
          let slowTime := avgNav_or_zero summary slowestId in
          Some (BRD.mk (report_date env) results summary fastestId slowestId
                       (percent_faster fastTime slowTime))
      end
  end.

(** The [try] block. *)
Definition benchmark_try (mls : list ML.t) (env : RunEnv) : Task unit :=
  (modify (setBenchmarkProgress "Initializing...") ;;;
   deliver (setup_arrived env) ;;;
   await (setup_goTo env) ;;;
   _ <- ret (setup_idle env) ;;
   results <- run_steps mls env allSteps 0 [] ;;
   report <- lift_option (make_report env mls results) ;;
   modify (setBenchmarkReport (Some report)))%task.

(** The state in which the [try] block starts. *)
Definition prepare (st : AppState) : AppState :=
  set_isRecordingRef false
    (setIsRecording false
       (setBenchmarkReport None (setIsRunningBenchmark true st))).

(** [catch] and [finally]. *)
Definition conclude (originalRecording : bool) (r : option unit * AppState)
  : AppState :=
  let st := match fst r with
            | Some _ => snd r
            | None => console_log "Benchmark Failed" (snd r)
            end in
  let st := setBenchmarkProgress "" (setIsRunningBenchmark false st) in
  if originalRecording then set_isRecordingRef true (setIsRecording true st)
  else st.

Definition runBenchmark (layers : list ML.t) (env : RunEnv) (st : AppState)
  : AppState :=
  if negb (view_available env) then st
  else
    let originalRecording := isRecordingRef st in
    conclude originalRecording
             (benchmark_try (metricLayers layers) env (prepare st)).

(** The run failed: an exception reached the [catch] clause. *)
Definition run_failed (layers : list ML.t) (env : RunEnv) (st : AppState) : bool :=
  view_available env &&
  match fst (benchmark_try (metricLayers layers) env (prepare st)) with
  | Some _ => false
  | None => true
  end.
End Orchestrator.

(** * Vocabulary of the statements *)

(** The requests of a batch that the aggregator books on the summary with
    key [id]: those whose first matching layer has that id. *)
Definition attributed (mls : list ML.t) (id : string) (m : NRM.t) : bool :=
  match matchedLayer mls m with
  | Some l => String.eqb (ML.id l) id
  | None => false
  end.

Definition attributed_to (mls : list ML.t) (id : string) (metrics : list NRM.t)
  : list NRM.t :=
  filter (attributed mls id) metrics.

Definition sum_durations (ms : list NRM.t) : Z :=
  fold_right (fun m acc => NRM.duration m + acc) 0 ms.

(** [l] is the first layer of [mls] that the request matches. *)
Definition first_match (mls : list ML.t) (m : NRM.t) (l : ML.t) : Prop :=
  exists before after,
    mls = before ++ l :: after /\
    url_matches m l = true /\
    forall l', In l' before -> url_matches m l' = false.

(** [sub] occurs in [s]. *)
Definition substring (sub s : string) : Prop :=
  exists p q, s = (p ++ sub ++ q)%string.

(** What the first two loops of the aggregator leave in an entry of [stats]
    after the requests [ms]. *)
Definition binned (mls : list ML.t) (ms : list NRM.t) (e : string * LPS.t) : Prop :=
  let (k, s) := e in
  LPS.id s = k /\
  LPS.requests s = attributed_to mls k ms /\
  LPS.requestCount s = Z.of_nat (List.length (LPS.requests s)) /\
  LPS.totalDuration s = sum_durations (LPS.requests s) /\
  LPS.avgLatency s = 0 /\ LPS.totalSize s = 0 /\ LPS.errorCount s = 0 /\
  LPS.loadTime s = 0.

(** The wall-clock span of a list of requests, 0 for the empty list. *)
Definition span (ms : list NRM.t) : Z :=
  match ms with
  | [] => 0
  | r :: rs =>
      Math_max (NRM.endTime r) (map NRM.endTime rs)
      - Math_min (NRM.startTime r) (map NRM.startTime rs)
  end.

(** The metric invariant of the data model. *)
Definition well_timed (m : NRM.t) : Prop :=
  NRM.startTime m <= NRM.endTime m /\
  NRM.duration m = NRM.endTime m - NRM.startTime m.

(** Every instant between the earliest start and the latest end of [ms]
    lies inside one of the requests: no gap between them. *)
Definition gapless (ms : list NRM.t) : Prop :=
  forall t,
    (exists r, In r ms /\ NRM.startTime r <= t) ->
    (exists r, In r ms /\ t < NRM.endTime r) ->
    exists r, In r ms /\ NRM.startTime r <= t < NRM.endTime r.

(** The part of the request [[s, e)] inside the window [[a, b)]. *)
Definition clip (a b : Z) (m : NRM.t) : Z :=
  Z.max 0 (Z.min (NRM.endTime m) b - Z.max (NRM.startTime m) a).

Definition sum_clip (a b : Z) (ms : list NRM.t) : Z :=
  fold_right (fun m acc => clip a b m + acc) 0 ms.

(** What [calculateMetrics] returns for one layer id, in terms of the batch. *)
Definition summarises (mls : list ML.t) (metrics : list NRM.t) (s : LPS.t) : Prop :=
  LPS.requests s = attributed_to mls (LPS.id s) metrics /\
  LPS.requestCount s = Z.of_nat (List.length (LPS.requests s)) /\
  LPS.totalDuration s = sum_durations (LPS.requests s) /\
  LPS.avgLatency s = 0 /\ LPS.totalSize s = 0 /\ LPS.errorCount s = 0 /\
  LPS.loadTime s = span (LPS.requests s).

(** * Concrete inputs used in the examples *)

Definition request (id url : string) (startTime endTime : Z) : NRM.t :=
  NRM.mk id url startTime endTime (endTime - startTime) 200 (Some 512).

Definition layer (id url : string) : ML.t :=
  ML.mk id id url map_image true None None.

(** A URL parser that accepts the URLs of the examples. *)
Definition example_hostname (u : string) : option string :=
  if String.prefix "https://" u then Some "gis.example.com" else None.

(** Scenario A: three overlapping requests of one layer, and one stray. *)
Definition layerX : ML.t := layer "X" "https://gis.example.com/arcgis/rest/services/X".

Definition batchA : list NRM.t :=
  [ request "a1" "https://gis.example.com/ArcGIS/rest/services/X/tile/1" 100 300;
    request "a2" "https://gis.example.com/ArcGIS/rest/services/X/tile/2" 150 250;
    request "a3" "https://gis.example.com/ArcGIS/rest/services/X/tile/3" 280 400 ].

(** Scenario B: the URL of one layer is a prefix of the other's. *)
Definition layerA : ML.t := layer "A" "https://gis.example.com/ArcGIS/rest/services/A".
Definition layerA_MapServer : ML.t :=
  layer "A-map" "https://gis.example.com/ArcGIS/rest/services/A/MapServer".

Definition batchB : list NRM.t :=
  [ request "b1" "https://gis.example.com/ArcGIS/rest/services/A/MapServer/export" 0 40 ].

(** Two requests with a pause between them, and one request that starts and
    ends within the same millisecond. *)
Definition batch_with_gap : list NRM.t :=
  [ request "g1" "https://gis.example.com/arcgis/rest/services/X/1" 0 10;
    request "g2" "https://gis.example.com/arcgis/rest/services/X/2" 100 110 ].

Definition batch_instant : list NRM.t :=
  [ request "i1" "https://gis.example.com/arcgis/rest/services/X/1" 100 100 ].

(** A failed request as the interceptor's error path reports it. *)
Definition batch_with_error : list NRM.t :=
  [ NRM.mk "e1" "https://gis.example.com/arcgis/rest/services/X/1" 900 1000 100 500 (Some 0);
    request "e2" "https://gis.example.com/arcgis/rest/services/X/2" 950 1200 ].

(** A view that never stops updating, with timers that fire 3ms late. *)
Definition always_busy (i : nat) : IdleWaiter.Wakeup :=
  IdleWaiter.mk 3 (Some true) [("X", true)].

(** [xs] is [ys] with some elements left out, the order kept. *)
Inductive Subseq {A} : list A -> list A -> Prop :=
| Subseq_nil : Subseq [] []
| Subseq_skip x xs ys : Subseq xs ys -> Subseq xs (x :: ys)
| Subseq_keep x xs ys : Subseq xs ys -> Subseq (x :: xs) (x :: ys).

(** A bus with two subscribers, the first of which unsubscribes the second
    when it is called; and one whose first subscriber unsubscribes itself. *)
Definition unsubscribes_next (l : MetricBus.Listener) (metric : NRM.t)
  : list MetricBus.BusOp :=
  match l with
  | 1%nat => [MetricBus.Unsubscribe 2%nat]
  | _ => []
  end.

Definition unsubscribes_itself (l : MetricBus.Listener) (metric : NRM.t)
  : list MetricBus.BusOp :=
  match l with
  | 1%nat => [MetricBus.Unsubscribe 1%nat]
  | _ => []
  end.

Definition two_listeners : MetricBus.ListenerSet :=
  fst (MetricBus.subscribeToMetrics 2%nat
         (fst (MetricBus.subscribeToMetrics 1%nat []))).

Definition three_listeners : MetricBus.ListenerSet :=
  fst (MetricBus.subscribeToMetrics 3%nat two_listeners).

Definition some_metric : NRM.t := request "m" "https://gis.example.com/x" 0 1.

(** * The benchmark as a function of the environment *)

(** The state in which the [try] block runs: the benchmark flag is up, ad
    hoc recording is suspended and the stored report is cleared. *)
Definition running (st : AppState) : Prop :=
  isRunningBenchmark st = true /\ isRecordingRef st = false /\
  benchmarkReport st = None.

(** The step's action settles without an exception. *)
Definition action_settles (e : StepEnv) (a : Action) : bool :=
  match a with
  | GoTo _ _ => match goTo_outcome e with Resolved => true | Rejected => false end
  | QueryFeatures => true
  end.

Section Outcome.
Variable URL_hostname : string -> option string.

(** The entry that a step adds to [results], if the step gets that far. *)
Definition step_result (mls : list ML.t) (e : StepEnv) (step : Step.t)
  : option BSR.t :=
  if action_settles e (Step.action step) then
    option_map
      (fun stepMetrics =>
         BSR.mk (Step.name step) (Step.type step)
                (resultLayerMetrics mls stepMetrics))
      (calculateMetrics_on URL_hostname mls
         (arrived_in_action e ++ arrived_in_wait e))
  else None.

Fixpoint steps_results (mls : list ML.t) (env : RunEnv) (steps : list Step.t)
         (k : nat) : option (list BSR.t) :=
  match steps with
  | [] => Some []
  | step :: rest =>
      match step_result mls (step_env env k) step with
      | Some r => option_map (cons r) (steps_results mls env rest (S k))
      | None => None
      end
  end.

(** The report of a run that has a view, [None] when the run fails. *)
Definition benchmark_outcome (mls : list ML.t) (env : RunEnv) : option BRD.t :=
  match setup_goTo env with
  | Rejected => None
  | Resolved =>
      match steps_results mls env allSteps 0 with
      | Some results => make_report env mls results
      | None => None
      end
  end.
End Outcome.

(** [summary[id].score], 0 when the layer has no entry. *)
Definition score_at (summary : dict LR.t) (id : string) : float :=
  match score_of summary id with Some q => q | None => 0%float end.

(** What the ranking loop keeps true of its two ids: their scores are both
    numbers or both [NaN], and the second is not below the first. *)
Definition ranked (summary : dict LR.t) (fastestId slowestId : string) : Prop :=
  JSNumber.is_NaN (score_at summary fastestId)
  = JSNumber.is_NaN (score_at summary slowestId) /\
  (score_at summary slowestId <? score_at summary fastestId)%float = false.

(** * Concrete runs used in the examples *)

Definition idle_app : AppState := mkApp false "" None false false [] [] [].

(** Nothing is rejected and no request is seen. *)
Definition quiet_step : StepEnv := mkStepEnv Resolved [] true [] [] [].
Definition quiet_run : RunEnv :=
  mkRunEnv true Resolved true [] (fun _ => quiet_step) "2026-01-01".

(** The setup navigation is rejected. *)
Definition setup_rejected_run : RunEnv :=
  mkRunEnv true Rejected true [] (fun _ => quiet_step) "2026-01-01".

(** The third navigation step is rejected. *)
Definition nav3_rejected_run : RunEnv :=
  mkRunEnv true Resolved true []
           (fun k => if Nat.eqb k 2 then mkStepEnv Rejected [] true [] [] []
                     else quiet_step)
           "2026-01-01".

(** Every layer query is rejected; the interceptor's error path publishes a
    metric for the failed request of layer X. *)
Definition failed_query_metric : NRM.t :=
  NRM.mk "q" "https://gis.example.com/arcgis/rest/services/X/0/query"
         900 1000 100 500 (Some 0).

Definition queries_rejected_run : RunEnv :=
  mkRunEnv true Resolved true []
           (fun k => if Nat.leb 10 k
                     then mkStepEnv Resolved [Rejected] true [failed_query_metric] [] []
                     else quiet_step)
           "2026-01-01".

(** The "Run Benchmark" button, the only place that calls [runBenchmark]:
    the benchmark tab renders it when no report is stored (a stored report
    is shown instead, and closing it stores [null]) and no run is in
    progress (the progress text is shown instead). *)
Definition run_button_rendered (st : AppState) : bool :=
  match benchmarkReport st with
  | Some _ => false
  | None => negb (isRunningBenchmark st)
  end.

(** Scenario D: in every navigation step the requests of layer A span one
    second and those of layer B two seconds. *)
Definition layerD_A : ML.t := layer "A" "https://a.example.com/arcgis/rest/services/A".
Definition layerD_B : ML.t := layer "B" "https://b.example.com/arcgis/rest/services/B".

Definition scenario_D_step : StepEnv :=
  mkStepEnv Resolved [] true
    [ request "a" "https://a.example.com/arcgis/rest/services/A/tile/1" 0 1000;
      request "b" "https://b.example.com/arcgis/rest/services/B/tile/1" 0 2000 ]
    [] [].

Definition scenario_D_run : RunEnv :=
  mkRunEnv true Resolved true []
           (fun k => if Nat.ltb k 10 then scenario_D_step else quiet_step)
           "2026-01-01".

(** * Further parts of the application *)

(** ** The map event detector ([App.tsx], "Map Event Handling") *)

Module MapEventHistory.
Record t := mk {
  id : Z;
  timestamp : string;
  layerDurations : dict Q
}.
End MapEventHistory.

Module MEH := MapEventHistory.

Module EventDetector.
(** What a render shows to the effect: the layer list, the busy signal of
    the view, the two mode flags and the wall clock as
    [toLocaleTimeString] prints it. *)
Record Render := mkRender {
  layers : list ML.t;
  isMapUpdating : bool;
  isRecording : bool;
  isRunningBenchmark : bool;
  clock : string
}.

(** What persists between renders. *)
Record State := mkState {
  prevUpdatingRef : bool;
  rawMetrics : list NRM.t;
  history : list MEH.t
}.

Definition setRawMetrics (ms : list NRM.t) (st : State) : State :=
  mkState (prevUpdatingRef st) ms (history st).
Definition setHistory (h : list MEH.t) (st : State) : State :=
  mkState (prevUpdatingRef st) (rawMetrics st) h.
Definition set_prevUpdatingRef (b : bool) (st : State) : State :=
  mkState b (rawMetrics st) (history st).

(** [aggregatedMetrics.forEach(m => snapshot.layerDurations[m.id] =
    m.loadTime / 1000)] *)
Definition snapshot_durations (aggregatedMetrics : list LPS.t) : dict Q :=
  fold_left (fun d m => dict_set (LPS.id m) (inject_Z (LPS.loadTime m) / 1000)%Q d)
            aggregatedMetrics [].

Definition snapshot (history_length : nat) (clock : string)
           (aggregatedMetrics : list LPS.t) : MEH.t :=
  MEH.mk (Z.of_nat history_length + 1) clock (snapshot_durations aggregatedMetrics).

(** [aggregatedMetrics.some(m => m.requestCount > 0)] *)
Definition some_traffic (aggregatedMetrics : list LPS.t) : bool :=
  existsb (fun m => 0 <? LPS.requestCount m) aggregatedMetrics.

(** Body of the effect, with the aggregate of the render. *)
Definition mapEventEffect (aggregatedMetrics : list LPS.t) (r : Render) (st : State)
  : State :=
  if negb (isRecording r) then st
  else
    let st1 :=
      if isMapUpdating r && negb (prevUpdatingRef st) then
        if negb (isRunningBenchmark r) then setRawMetrics [] st else st
      else st in
    let st2 :=
      if negb (isMapUpdating r) && prevUpdatingRef st then
        if negb (isRunningBenchmark r) && some_traffic aggregatedMetrics then
          setHistory (history st1
                        ++ [snapshot (List.length (history st)) (clock r) aggregatedMetrics])
                     st1
        else st1
      else st1 in
    set_prevUpdatingRef (isMapUpdating r) st2.

(** What happens between two effects. *)
Inductive Event :=
| Rendered (r : Render)
| Published (recording : bool) (metric : NRM.t)
| ResetPressed.

Section Run.
Variable URL_hostname : string -> option string.

(** A render computes [aggregatedMetrics] first; if that throws, the
    component is gone. *)
Definition render_effect (r : Render) (st : State) : option State :=
  match calculateMetrics URL_hostname (layers r) (rawMetrics st) with
  | None => None
  | Some aggregatedMetrics => Some (mapEventEffect aggregatedMetrics r st)
  end.

Definition step (e : Event) (st : State) : option State :=
  match e with
  | Rendered r => render_effect r st
  | Published recording metric =>
      Some (if recording
            then setRawMetrics (slice_last 3000 (rawMetrics st) ++ [metric]) st
            else st)
  | ResetPressed => Some (setHistory [] (setRawMetrics [] st))
  end.

Fixpoint run (events : list Event) (st : State) : option State :=
  match events with
  | [] => Some st
  | e :: rest =>
      match step e st with
      | Some st' => run rest st'
      | None => None
      end
  end.
End Run.

Definition initial : State := mkState false [] [].
End EventDetector.

(** ** Layer list handlers ([App.tsx]) *)

Module LayerForm.
Record t := mk {
  newLayerUrl : string;
  newLayerName : string;
  newLayerType : LayerType
}.
End LayerForm.

Definition show_LayerType (t : LayerType) : string :=
  match t with
  | feature => "feature"
  | tile => "tile"
  | map_image => "map-image"
  | vector_tile => "vector-tile"
  end.

(** [handleAddLayer]; [fresh_id] is the value of [crypto.randomUUID()]. *)
Definition handleAddLayer (fresh_id : string) (form : LayerForm.t) (layers : list ML.t)
  : list ML.t * LayerForm.t :=
  if string_truthy (LayerForm.newLayerUrl form) then
    let title :=
      if string_truthy (LayerForm.newLayerName form) then LayerForm.newLayerName form
      else ("Layer " ++ show_nat (List.length layers + 1) ++ " ("
              ++ show_LayerType (LayerForm.newLayerType form) ++ ")")%string in
    let newLayer :=
      ML.mk fresh_id title (LayerForm.newLayerUrl form) (LayerForm.newLayerType form)
            true None None in
    (layers ++ [newLayer], LayerForm.mk "" "" (LayerForm.newLayerType form))
  else (layers, form).

Definition handleToggleLayer (id : string) (layers : list ML.t) : list ML.t :=
  map (fun l => if String.eqb (ML.id l) id
                then ML.mk (ML.id l) (ML.title l) (ML.url l) (ML.type l)
                           (negb (ML.visible l)) (ML.color l) (ML.excludeFromMetrics l)
                else l)
      layers.

Definition handleRemoveLayer (id : string) (layers : list ML.t) (compareIds : list string)
  : list ML.t * list string :=
  (filter (fun l => negb (String.eqb (ML.id l) id)) layers,
   filter (fun cid => negb (String.eqb cid id)) compareIds).

Definition saveEditing (id editTitle : string) (layers : list ML.t) : list ML.t :=
  map (fun l => if String.eqb (ML.id l) id
                then ML.mk (ML.id l) editTitle (ML.url l) (ML.type l)
                           (ML.visible l) (ML.color l) (ML.excludeFromMetrics l)
                else l)
      layers.

Definition handleCompareToggle (id : string) (prev : list string) : list string :=
  if existsb (String.eqb id) prev then
    filter (fun p => negb (String.eqb p id)) prev
  else
    match prev with
    | _ :: second :: _ => [second; id]
    | _ => prev ++ [id]
    end.

(** ** The comparison of two selected layers ([comparisonData]) *)

Module Comparison.
Record t := mk {
  l1 : LPS.t;
  l2 : LPS.t;
  fast : LPS.t;
  slow : LPS.t;
  diff : Z;
  percentDiff : Q
}.
End Comparison.

Definition comparisonData (compareIds : list string) (aggregatedMetrics : list LPS.t)
  : option Comparison.t :=
  match compareIds with
  | [id1; id2] =>
      match find (fun m => String.eqb (LPS.id m) id1) aggregatedMetrics,
            find (fun m => String.eqb (LPS.id m) id2) aggregatedMetrics with
      | Some l1, Some l2 =>
          let fast := if LPS.loadTime l1 <=? LPS.loadTime l2 then l1 else l2 in
          let slow := if LPS.loadTime l1 <=? LPS.loadTime l2 then l2 else l1 in
          let diff := LPS.loadTime slow - LPS.loadTime fast in
          let percentDiff :=
            if 0 <? LPS.loadTime fast
            then (inject_Z diff / inject_Z (LPS.loadTime fast) * 100)%Q
            else 0%Q in
          Some (Comparison.mk l1 l2 fast slow diff percentDiff)
      | _, _ => None
      end
  | _ => None
  end.

(** ** The request interceptor ([services/monitor.ts]) *)

Module Interceptor.
Record RequestOptions := mkOptions {
  customStartTime : option Z;
  responseType : option string
}.

(** What the size probes find on [response.data]: the length of
    [JSON.stringify(data)] ([None] when that throws), [data.byteLength] and
    [data.size]. *)
Record ResponseData := mkData {
  json_length : option Z;
  byteLength : option Z;
  blob_size : option Z
}.

Record Response := mkResponse {
  url : string;
  requestOptions : option RequestOptions;
  data : option ResponseData
}.

Record RequestError := mkError {
  error_url : option string;
  httpStatus : option Z
}.

(** A number that is truthy: present and not 0. *)
Definition truthy_number (n : option Z) : option Z :=
  match n with
  | Some z => if z =? 0 then None else Some z
  | None => None
  end.

(** [before]: stamp the request with the current time. *)
Definition before (now : Z) (requestOptions : option RequestOptions)
  : option RequestOptions :=
  match requestOptions with
  | Some o => Some (mkOptions (Some now) (responseType o))
  | None => None
  end.

(** The [try] block that estimates the payload size; an exception leaves
    the size at 0. *)
Definition estimate_size (response : Response) : Z :=
  match data response with
  | None => 0
  | Some d =>
      let is_json :=
        match requestOptions response with
        | Some o => match responseType o with
                    | Some t => String.eqb t "json"
                    | None => false
                    end
        | None => false
        end in
      if is_json then
        match json_length d with Some n => n | None => 0 end
      else
        match truthy_number (byteLength d) with
        | Some n => n
        | None => match truthy_number (blob_size d) with
                  | Some n => n
                  | None => 0
                  end
        end
  end.

(** [after]; [endTime] is [Date.now()] and [id] is [generateId()]. *)
Definition after (endTime : Z) (id : string) (response : Response) : NRM.t :=
  let startTime :=
    match requestOptions response with
    | Some o => match truthy_number (customStartTime o) with
                | Some t => t
                | None => endTime - 50
                end
    | None => endTime - 50
    end in
  let duration := endTime - startTime in
  NRM.mk id (url response) startTime endTime duration 200
         (Some (estimate_size response)).

(** [error] *)
Definition error (endTime : Z) (id : string) (e : RequestError) : NRM.t :=
  NRM.mk id
         (match error_url e with
          | Some u => if string_truthy u then u else "unknown"
          | None => "unknown"
          end)
         (endTime - 100) endTime 100
         (match truthy_number (httpStatus e) with Some s => s | None => 500 end)
         (Some 0).

(** The module state: the [initialized] flag, the ArcGIS [config] object
    ([None]: not loaded) with its [request.interceptors] array ([None]: no
    [request] object), and the console. *)
Record Config := mkConfig {
  assetsPath : string;
  interceptors : option nat
}.

Record Module_ := mkModule {
  initialized : bool;
  config : option Config;
  errors_logged : nat
}.

Definition initInterceptor (m : Module_) : Module_ :=
  if initialized m then m
  else
    match config m with
    | None => mkModule true None (S (errors_logged m))
    | Some c =>
        mkModule true
                 (Some (mkConfig "https://js.arcgis.com/4.28/"
                                 (match interceptors c with
                                  | Some n => Some (S n)
                                  | None => None
                                  end)))
                 (errors_logged m)
    end.
End Interceptor.

(** ** The history chart ([components/PerformanceHistoryChart.tsx]) *)

Module HistoryChart.
Definition height : Q := 150.
Definition width : Q := 300.
Definition padding : Q := 20.

(** The loop that finds the largest duration of the log. *)
Definition max_of (maxDuration : Q) (ds : list Q) : Q :=
  fold_left (fun mx d => if Qltb mx d then d else mx) ds maxDuration.

Definition raise_maxDuration (maxDuration : Q) (h : MEH.t) : Q :=
  max_of maxDuration (Object_values (MEH.layerDurations h)).

(** [Math.max(maxDuration, 1)] *)
Definition at_least_one (q : Q) : Q := if Qltb q 1 then 1%Q else q.

(** [chartData.maxDuration]; [None] for an empty log. *)
Definition chart_maxDuration (history : list MEH.t) : option Q :=
  match history with
  | [] => None
  | _ => Some (at_least_one (fold_left raise_maxDuration history 0%Q))
  end.

Definition getX (count : nat) (index : nat) : Q :=
  let availableWidth := (width - padding * 2)%Q in
  (padding + (inject_Z (Z.of_nat index) / (inject_Z (Z.of_nat count) - 1)) * availableWidth)%Q.

Definition getY (maxDuration duration : Q) : Q :=
  let availableHeight := (height - padding * 2)%Q in
  (height - padding - (duration / maxDuration) * availableHeight)%Q.

(** [h.layerDurations[layer.id] || 0] *)
Definition duration_of (h : MEH.t) (id : string) : Q :=
  match dict_get id (MEH.layerDurations h) with
  | Some d => or_zero d
  | None => 0%Q
  end.

(** The points of one layer's polyline; the chart is drawn for two or more
    events only. *)
Definition polyline (history : list MEH.t) (id : string) : option (list (Q * Q)) :=
  match chart_maxDuration history with
  | None => None
  | Some maxDuration =>
      if (List.length history <? 2)%nat then None
      else Some (map (fun ih => (getX (List.length history) (fst ih),
                                 getY maxDuration (duration_of (snd ih) id)))
                     (combine (seq 0 (List.length history)) history))
  end.
End HistoryChart.

(** The part of a layer that attribution looks at. *)
Definition layer_key (l : ML.t) : string * string * option bool :=
  (ML.id l, ML.url l, ML.excludeFromMetrics l).

(** Two summaries measure the same. *)
Definition same_measurements (s s' : LPS.t) : Prop :=
  LPS.id s' = LPS.id s /\
  LPS.requests s' = LPS.requests s /\
  LPS.requestCount s' = LPS.requestCount s /\
  LPS.totalDuration s' = LPS.totalDuration s /\
  LPS.loadTime s' = LPS.loadTime s.

(** The wake-up shows the view and every layer idle, as the first test of
    the waiter and as its re-check see it. *)
Definition idle_at_poll (w : IdleWaiter.Wakeup) : bool :=
  negb (IdleWaiter.view_busy w) && negb (IdleWaiter.layersBusy w).

Definition idle_at_recheck (w : IdleWaiter.Wakeup) : bool :=
  negb (IdleWaiter.view_busy w)
  && negb (existsb (fun s => s) (Object_values (IdleWaiter.layerStatuses w))).

(** An idle view with timers that fire 5ms late. *)
Definition always_idle (i : nat) : IdleWaiter.Wakeup :=
  IdleWaiter.mk 5 (Some false) [("X", false)].

(** A loaded ArcGIS module that has not been initialised. *)
Definition fresh_monitor : Interceptor.Module_ :=
  Interceptor.mkModule false (Some (Interceptor.mkConfig "" (Some 0%nat))) 0.

(** The log is numbered 1, 2, 3, ... *)
Definition numbered (history : list MEH.t) : Prop :=
  forall i h, nth_error history i = Some h -> MEH.id h = Z.of_nat i + 1.

(** No request of the buffer matches a tracked layer. *)
Definition no_layer_traffic (layers : list ML.t) (ms : list NRM.t) : Prop :=
  forall m l, In m ms -> In l (metricLayers layers) -> url_matches m l = false.

(** Renders and metrics used in the examples: recording, no benchmark. *)
Definition render_busy : EventDetector.Render :=
  EventDetector.mkRender [layerX] true true false "10:00:00".
Definition render_idle : EventDetector.Render :=
  EventDetector.mkRender [layerX] false true false "10:00:02".
Definition render_paused_idle : EventDetector.Render :=
  EventDetector.mkRender [layerX] false false false "10:00:01".
Definition render_benchmark_idle : EventDetector.Render :=
  EventDetector.mkRender [layerX] false true true "10:00:02".
Definition stray_metric : NRM.t := request "s" "https://cdn.example.com/font.pbf" 0 30.

(** What the detector can see while recording is paused: renders with
    [isRecording] down, and metrics that the subscriber drops because
    [isRecordingRef] is down. *)
Definition paused_event (e : EventDetector.Event) : bool :=
  match e with
  | EventDetector.Rendered r => negb (EventDetector.isRecording r)
  | EventDetector.Published recording _ => negb recording
  | EventDetector.ResetPressed => false
  end.

(** What the detector can see while a benchmark runs: renders with
    [isRunningBenchmark] up, and metrics published while [runBenchmark]
    holds [isRecordingRef] down. *)
Definition benchmark_event (e : EventDetector.Event) : bool :=
  match e with
  | EventDetector.Rendered r => EventDetector.isRunningBenchmark r
  | EventDetector.Published recording _ => negb recording
  | EventDetector.ResetPressed => false
  end.

(** The seconds the detector stores for a layer. *)
Definition seconds (ms : Z) : Q := (inject_Z ms / 1000)%Q.

(** The regular (non-benchmark) side of the state: the buffer and the two
    recording flags. *)
Definition regular (st : AppState) : list NRM.t * bool * bool :=
  (rawMetrics st, isRecording st, isRecordingRef st).

(** A task that leaves the regular side alone whenever it starts with the
    recording reference down. *)
Definition frames {A} (t : Task A) : Prop :=
  forall st, isRecordingRef st = false -> regular (snd (t st)) = regular st.

(** Two environments that agree on what a run measures: how the setup
    navigation and the ten navigation steps settle, and which metrics are
    published while a step's action is pending and while the step waits.
    They may differ in everything else: the answers of [waitForIdle], the
    outcomes of the layer queries, and what is published during the setup
    and during the pauses between steps. *)
Definition same_measured_world (env env' : RunEnv) : Prop :=
  setup_goTo env = setup_goTo env' /\
  report_date env = report_date env' /\
  (forall k, (k < 15)%nat ->
     arrived_in_action (step_env env k) = arrived_in_action (step_env env' k) /\
     arrived_in_wait (step_env env k) = arrived_in_wait (step_env env' k)) /\
  (forall k, (k < 10)%nat ->
     goTo_outcome (step_env env k) = goTo_outcome (step_env env' k)).

(** Scenario D again, but the view never settles in time, every layer query
    is rejected, and stray requests are published during the setup and in
    every pause. *)
Definition scenario_D_noisy_run : RunEnv :=
  mkRunEnv true Resolved false batchA
           (fun k => if Nat.ltb k 10
                     then mkStepEnv Resolved [] false
                            (arrived_in_action scenario_D_step) [] batchA
                     else mkStepEnv Resolved [Rejected; Rejected] false [] [] batchA)
           "2026-01-01".

(** The application while the user records. *)
Definition recording_app : AppState :=
  mkApp false "" None true true batchA [] [].

(** The requests of step [k] that the aggregator attributes to a layer:
    those published while the step's action was pending or while the step
    waited. *)
Definition step_requests (mls : list ML.t) (id : string) (env : RunEnv) (k : nat)
  : list NRM.t :=
  attributed_to mls id
    (arrived_in_action (step_env env k) ++ arrived_in_wait (step_env env k)).

(** The load time of a layer in step [k], in seconds: the span of those
    requests in milliseconds, divided by 1000 as a number. *)
Definition step_seconds (mls : list ML.t) (id : string) (env : RunEnv) (k : nat)
  : float :=
  (JSNumber.of_Z (span (step_requests mls id env k)) / 1000)%float.

(** What step [k] measures for a layer. *)
Definition measured (mls : list ML.t) (id : string) (env : RunEnv) (k : nat) : LSM.t :=
  LSM.mk (step_seconds mls id env k)
         (Z.of_nat (List.length (step_requests mls id env k))).

(** The indices (counted from [k]) of the steps of a type. *)
Fixpoint step_indices (ty : StepType) (steps : list Step.t) (k : nat) : list nat :=
  match steps with
  | [] => []
  | s :: rest =>
      if StepType_eqb (Step.type s) ty
      then k :: step_indices ty rest (S k)
      else step_indices ty rest (S k)
  end.

Definition Zsum (xs : list Z) : Z := fold_right Z.add 0 xs.

(** The sum of numbers from the left, starting from 0, as [reduce] takes
    it: every addition is rounded. *)
Definition sum_from_left (xs : list float) : float :=
  fold_left PrimFloat.add xs 0%float.

(** Callback 1 subscribes callback 5 when it is called. *)
Definition subscribes_another (l : MetricBus.Listener) (metric : NRM.t)
  : list MetricBus.BusOp :=
  match l with
  | 1%nat => [MetricBus.Subscribe 5%nat]
  | _ => []
  end.

(** [x] is called legitimately: it was subscribed when the publish began,
    or a callback called in the pass subscribed it. *)
Definition invited (behaviour : MetricBus.Listener -> NRM.t -> list MetricBus.BusOp)
           (metric : NRM.t) (listeners : MetricBus.ListenerSet)
           (called : list MetricBus.Listener) (x : MetricBus.Listener) : Prop :=
  In x (MetricBus.members listeners) \/
  exists c, In c called /\ In (MetricBus.Subscribe x) (behaviour c metric).

(** What holds between two calls of a dispatch pass: every occupied slot
    before the index has been called; every occupied slot and every call
    is invited. *)
Definition pass_invariant
           (behaviour : MetricBus.Listener -> NRM.t -> list MetricBus.BusOp)
           (metric : NRM.t) (listeners : MetricBus.ListenerSet)
           (index : nat) (s : MetricBus.ListenerSet)
           (called : list MetricBus.Listener) : Prop :=
  (forall i x, (i < index)%nat -> nth_error s i = Some (Some x) -> In x called) /\
  (forall i x, nth_error s i = Some (Some x) ->
               invited behaviour metric listeners called x) /\
  (forall x, In x called -> invited behaviour metric listeners called x).

(** Callback 1 unsubscribes and subscribes itself again when it is called. *)
Definition resubscribes_itself (l : MetricBus.Listener) (metric : NRM.t)
  : list MetricBus.BusOp :=
  match l with
  | 1%nat => [MetricBus.Unsubscribe 1%nat; MetricBus.Subscribe 1%nat]
  | _ => []
  end.

(** A log of two events used in the examples. *)
Definition two_events : list MEH.t :=
  [ MEH.mk 1 "10:00:02" [("X", seconds 300)];
    MEH.mk 2 "10:00:09" [("X", seconds 2500)] ].

(** Every duration stored in the log is non-negative. *)
Definition nonnegative_log (history : list MEH.t) : Prop :=
  forall h d, In h history -> In d (Object_values (MEH.layerDurations h)) -> (0 <= d)%Q.

(** The point lies inside the plot area of the chart. *)
Definition inside_plot (p : Q * Q) : Prop :=
  (HistoryChart.padding <= fst p)%Q /\
  (fst p <= HistoryChart.width - HistoryChart.padding)%Q /\
  (HistoryChart.padding <= snd p)%Q /\
  (snd p <= HistoryChart.height - HistoryChart.padding)%Q.

(** ** The map event detector of the earlier [App.tsx]

    The same effect without the benchmark guard, over the sorted aggregate,
    and with a log that keeps the last 19 entries before it appends. *)
Module EarlierDetector.
Definition mapEventEffect (aggregatedMetrics : list LPS.t)
           (r : EventDetector.Render) (st : EventDetector.State)
  : EventDetector.State :=
  if negb (EventDetector.isRecording r) then st
  else
    let st1 :=
      if EventDetector.isMapUpdating r && negb (EventDetector.prevUpdatingRef st)
      then EventDetector.setRawMetrics [] st
      else st in
    let st2 :=
      if negb (EventDetector.isMapUpdating r) && EventDetector.prevUpdatingRef st then
        if EventDetector.some_traffic aggregatedMetrics then
          EventDetector.setHistory
            (slice_last 19 (EventDetector.history st1)
               ++ [EventDetector.snapshot (List.length (EventDetector.history st))
                                          (EventDetector.clock r) aggregatedMetrics])
            st1
        else st1
      else st1 in
    EventDetector.set_prevUpdatingRef (EventDetector.isMapUpdating r) st2.

Section Render.
Variable URL_hostname : string -> option string.

Definition render_effect (r : EventDetector.Render) (st : EventDetector.State)
  : option EventDetector.State :=
  match aggregatedMetrics URL_hostname (EventDetector.layers r)
                          (EventDetector.rawMetrics st) with
  | None => None
  | Some aggregated => Some (mapEventEffect aggregated r st)
  end.
End Render.
End EarlierDetector.

(** A full log: twenty events numbered 1 to 20. *)
Definition full_log : list MEH.t :=
  map (fun i => MEH.mk (Z.of_nat i + 1) "09:00:00" [("X", seconds 100)]) (seq 0 20).

(** ** The bar chart ([components/MetricCharts.tsx]) *)

Module MetricCharts.
(** [Math.max(...data.map(d => d.loadTime), 1000)] *)
Definition maxTimeMs (data : list LPS.t) : Z :=
  fold_right Z.max 1000 (map LPS.loadTime data).

(** [Math.min(a, b)] on numbers *)
Definition Math_min2 (a b : Q) : Q := if Qltb b a then b else a.

(** The width of a layer's bar, in percent. *)
Definition percentage (data : list LPS.t) (item : LPS.t) : Q :=
  Math_min2 ((inject_Z (LPS.loadTime item) / inject_Z (maxTimeMs data)) * 100)%Q 100%Q.

Definition isHighLoad (item : LPS.t) : bool := 3000 <? LPS.loadTime item.
End MetricCharts.

(** A run in which layer A spans 100 ms in each of the ten navigation
    steps and layer B spans one second in the first and has no request in
    the others: both average a tenth of a second. *)
Definition tenth_each_step : StepEnv :=
  mkStepEnv Resolved [] true
    [ request "a" "https://a.example.com/arcgis/rest/services/A/tile/1" 0 100 ]
    [] [].

Definition tenth_and_second_step : StepEnv :=
  mkStepEnv Resolved [] true
    [ request "a" "https://a.example.com/arcgis/rest/services/A/tile/1" 0 100;
      request "b" "https://b.example.com/arcgis/rest/services/B/tile/1" 0 1000 ]
    [] [].

Definition equal_means_run : RunEnv :=
  mkRunEnv true Resolved true []
           (fun k => if Nat.eqb k 0 then tenth_and_second_step
                     else if Nat.ltb k 10 then tenth_each_step else quiet_step)
           "2026-01-01".

(** Layers whose ids are array indices. *)
Definition layer_nine : ML.t := layer "9" "https://gis.example.com/arcgis/rest/services/Nine".
Definition layer_ten : ML.t := layer "10" "https://gis.example.com/arcgis/rest/services/Ten".

(** * Properties *)

(** ** The enumeration order of properties *)

Section PropertyOrderFacts.
Context {A : Type}.
Variable key : A -> string.

Lemma insert_by_index_Permutation a l :
  Permutation (a :: l) (insert_by_index key a l).
Proof.
  induction l as [|b l IH]; simpl; [reflexivity|].
  destruct (index_of key a <=? index_of key b)%N; [reflexivity|].
  rewrite perm_swap. now constructor.
Qed.

Lemma filter_split_Permutation (p : A -> bool) xs :
  Permutation xs (filter p xs ++ filter (fun a => negb (p a)) xs).
Proof.
  induction xs as [|x xs IH]; simpl; [reflexivity|].
  destruct (p x); simpl.
  - now constructor.
  - rewrite <- Permutation_middle. now constructor.
Qed.

Lemma property_order_Permutation xs : Permutation xs (property_order key xs).
Proof.
  unfold property_order.
  rewrite (filter_split_Permutation (is_index key) xs) at 1.
  apply Permutation_app_tail.
  induction (filter (is_index key) xs) as [|a l IH]; simpl; [reflexivity|].
  rewrite <- insert_by_index_Permutation. now constructor.
Qed.

Lemma property_order_In xs x : In x (property_order key xs) <-> In x xs.
Proof.
  split; apply Permutation_in;
    [symmetry|]; apply property_order_Permutation.
Qed.

(** Where no name is an array index the enumeration is the creation order. *)
Lemma property_order_plain xs :
  (forall a, In a xs -> array_index (key a) = None) ->
  property_order key xs = xs.
Proof.
  intros H. unfold property_order.
  assert (Hno : forall a, In a xs -> is_index key a = false)
    by (intros a Ha; unfold is_index; now rewrite (H a Ha)).
  clear H.
  assert (H1 : filter (is_index key) xs = []).
  { induction xs as [|x xs IH]; [reflexivity|]. simpl.
    rewrite (Hno x) by now left. apply IH. intros a Ha. apply Hno. now right. }
  assert (H2 : filter (fun a => negb (is_index key a)) xs = xs).
  { induction xs as [|x xs IH]; [reflexivity|]. simpl.
    rewrite (Hno x) by now left. simpl. f_equal.
    apply IH; [intros a Ha; apply Hno; now right|].
    simpl in H1. rewrite (Hno x) in H1 by now left. exact H1. }
  now rewrite H1, H2.
Qed.

Lemma map_insert_by_index a l :
  map key (insert_by_index key a l)
  = insert_by_index (fun k => k) (key a) (map key l).
Proof.
  induction l as [|b l IH]; simpl; [reflexivity|].
  change (index_of (fun k : string => k) (key a)) with (index_of key a).
  change (index_of (fun k : string => k) (key b)) with (index_of key b).
  destruct (index_of key a <=? index_of key b)%N; simpl; [reflexivity|].
  now rewrite IH.
Qed.

Lemma map_property_order xs :
  map key (property_order key xs) = property_order (fun k => k) (map key xs).
Proof.
  unfold property_order. rewrite map_app. f_equal.
  - induction xs as [|x xs IH]; simpl; [reflexivity|].
    change (is_index (fun k : string => k) (key x)) with (is_index key x).
    destruct (is_index key x); simpl; [|exact IH].
    now rewrite map_insert_by_index, IH.
  - induction xs as [|x xs IH]; simpl; [reflexivity|].
    change (is_index (fun k : string => k) (key x)) with (is_index key x).
    destruct (is_index key x); simpl; [exact IH|now rewrite IH].
Qed.
End PropertyOrderFacts.

(** ** Dictionaries *)

Section DictFacts.
Context {V : Type}.
Implicit Types (d : dict V) (k : string) (v : V).

Lemma Object_values_In d v :
  In v (Object_values d) <-> exists k, In (k, v) d.
Proof.
  unfold Object_values. rewrite in_map_iff. split.
  - intros ([k v'] & <- & H). exists k. now apply property_order_In in H.
  - intros (k & H). exists (k, v). split; [reflexivity|].
    now apply property_order_In.
Qed.

Lemma dict_get_set d k k' v :
  dict_get k' (dict_set k v d) = if String.eqb k k' then Some v else dict_get k' d.
Proof.
  induction d as [|[k0 v0] d IH]; simpl.
  - destruct (String.eqb k k'); reflexivity.
  - destruct (String.eqb k0 k) eqn:E0; simpl.
    + apply String.eqb_eq in E0; subst k0.
      destruct (String.eqb k k'); reflexivity.
    + destruct (String.eqb k0 k') eqn:E1.
      * apply String.eqb_eq in E1; subst k0.
        rewrite String.eqb_sym, E0. reflexivity.
      * exact IH.
Qed.

Lemma dict_keys_set d k v k' :
  In k' (dict_keys (dict_set k v d)) <-> k' = k \/ In k' (dict_keys d).
Proof.
  induction d as [|[k0 v0] d IH]; simpl.
  - intuition.
  - destruct (String.eqb k0 k) eqn:E0; simpl.
    + apply String.eqb_eq in E0; subst k0. intuition.
    + rewrite IH. intuition.
Qed.

Lemma dict_keys_set_NoDup d k v :
  NoDup (dict_keys d) -> NoDup (dict_keys (dict_set k v d)).
Proof.
  induction d as [|[k0 v0] d IH]; simpl; intros H.
  - constructor; [intros []|constructor].
  - inversion H as [|? ? Hn Hd]; subst.
    destruct (String.eqb k0 k) eqn:E0; simpl.
    + apply String.eqb_eq in E0; subst k0. constructor; assumption.
    + constructor; [|apply IH; assumption].
      intros Hin. apply dict_keys_set in Hin as [->|Hin].
      * rewrite String.eqb_refl in E0. discriminate.
      * contradiction.
Qed.

Lemma dict_get_In d k v : dict_get k d = Some v -> In (k, v) d.
Proof.
  induction d as [|[k0 v0] d IH]; simpl; [discriminate|].
  destruct (String.eqb k0 k) eqn:E0.
  - apply String.eqb_eq in E0; subst k0. intros [= ->]. now left.
  - intros H. right. now apply IH.
Qed.

Lemma dict_In_get d k v :
  NoDup (dict_keys d) -> In (k, v) d -> dict_get k d = Some v.
Proof.
  induction d as [|[k0 v0] d IH]; simpl; [intros _ []|].
  intros Hnd [Heq|Hin]; inversion Hnd as [|? ? Hn Hd]; subst.
  - injection Heq as -> ->. now rewrite String.eqb_refl.
  - destruct (String.eqb k0 k) eqn:E0.
    + apply String.eqb_eq in E0; subst k0.
      exfalso. apply Hn. change k with (fst (k, v)). now apply in_map.
    + now apply IH.
Qed.

Lemma dict_get_None d k : dict_get k d = None -> ~ In k (dict_keys d).
Proof.
  induction d as [|[k0 v0] d IH]; simpl; [tauto|].
  destruct (String.eqb k0 k) eqn:E0; [discriminate|].
  intros H [Heq|Hin]; [|now apply IH].
  subst k0. rewrite String.eqb_refl in E0. discriminate.
Qed.

Lemma dict_get_Some_key d k : In k (dict_keys d) -> exists v, dict_get k d = Some v.
Proof.
  intros Hin. destruct (dict_get k d) as [v|] eqn:E; [now exists v|].
  now apply dict_get_None in E.
Qed.

Lemma adjust_absent d k f :
  ~ In k (dict_keys d) -> map (adjust_entry k f) d = d.
Proof.
  induction d as [|[k0 v0] d IH]; simpl; [reflexivity|].
  intros Hn. unfold adjust_entry at 1. simpl.
  destruct (String.eqb k0 k) eqn:E0.
  - apply String.eqb_eq in E0. tauto.
  - f_equal. apply IH. tauto.
Qed.

Lemma dict_set_adjust d k f v :
  NoDup (dict_keys d) -> dict_get k d = Some v ->
  dict_set k (f v) d = map (adjust_entry k f) d.
Proof.
  induction d as [|[k0 v0] d IH]; simpl; [discriminate|].
  intros Hnd Hget. inversion Hnd as [|? ? Hn Hd]; subst.
  unfold adjust_entry at 1. simpl.
  destruct (String.eqb k0 k) eqn:E0.
  - apply String.eqb_eq in E0; subst k0. injection Hget as ->.
    now rewrite adjust_absent.
  - f_equal. now apply IH.
Qed.

Lemma adjust_keys d k f : dict_keys (map (adjust_entry k f) d) = dict_keys d.
Proof.
  unfold dict_keys. rewrite map_map. apply map_ext.
  intros [k0 v0]. unfold adjust_entry. simpl. now destruct (String.eqb k0 k).
Qed.
End DictFacts.

(** ** Substrings *)

Lemma prefix_app (p s : string) :
  String.prefix p s = true <-> exists q, s = (p ++ q)%string.
Proof.
  revert s. induction p as [|c p IH]; intros s; simpl.
  - split; [intros _; now exists s|intros _; now destruct s].
  - destruct s as [|c' s]; simpl.
    + split; [discriminate|intros [q Hq]; discriminate].
    + destruct (Ascii.ascii_dec c c') as [->|Hne].
      * rewrite IH. split; intros [q Hq]; exists q; congruence.
      * split; [discriminate|intros [q Hq]; congruence].
Qed.

(** [includes s sub] holds exactly when [sub] occurs inside [s]. *)
Lemma includes_spec (s sub : string) :
  includes s sub = true <-> exists p q, s = (p ++ sub ++ q)%string.
Proof.
  induction s as [|c s IH]; cbn [includes].
  - destruct (String.prefix sub "") eqn:E.
    + split; [intros _|reflexivity].
      apply prefix_app in E as [q Hq]. now exists ""%string, q.
    + split; [discriminate|]. intros (p & q & H).
      destruct p; simpl in H; [|discriminate].
      assert (String.prefix sub "" = true) by (apply prefix_app; now exists q).
      congruence.
  - destruct (String.prefix sub (String c s)) eqn:E.
    + split; [intros _|reflexivity].
      apply prefix_app in E as [q Hq]. now exists ""%string, q.
    + rewrite IH. split; intros (p & q & H).
      * exists (String c p), q. simpl. now rewrite H.
      * destruct p as [|c' p]; simpl in H.
        -- assert (String.prefix sub (String c s) = true)
             by (apply prefix_app; now exists q).
           congruence.
        -- injection H as _ H. now exists p, q.
Qed.

(** ** The aggregator *)

Lemma Forall_dict_set {V} (P : string * V -> Prop) (d : dict V) k v :
  Forall P d -> P (k, v) -> Forall P (dict_set k v d).
Proof.
  induction d as [|[k0 v0] d IH]; simpl; intros Hd Hp.
  - now constructor.
  - inversion Hd; subst. destruct (String.eqb k0 k); constructor; auto.
Qed.

Lemma attributed_to_snoc mls k ms m :
  attributed_to mls k (ms ++ [m]) =
  attributed_to mls k ms ++ (if attributed mls k m then [m] else []).
Proof. unfold attributed_to. rewrite filter_app. reflexivity. Qed.

Lemma sum_durations_snoc ms m :
  sum_durations (ms ++ [m]) = sum_durations ms + NRM.duration m.
Proof. induction ms as [|x ms IH]; simpl; [lia|]. rewrite IH. lia. Qed.

Section AggregatorFacts.
Variable URL_hostname : string -> option string.

Lemma init_stats_keys mls : forall st st',
  init_stats URL_hostname mls st = Some st' ->
  forall k, In k (dict_keys st') <-> In k (dict_keys st) \/ In k (map ML.id mls).
Proof.
  induction mls as [|l mls IH]; simpl; intros st st' H k.
  - injection H as <-. tauto.
  - destruct (URL_hostname (ML.url l)) as [dom|]; [|discriminate].
    rewrite (IH _ _ H k), dict_keys_set. intuition.
Qed.

Lemma init_stats_NoDup mls : forall st st',
  init_stats URL_hostname mls st = Some st' ->
  NoDup (dict_keys st) -> NoDup (dict_keys st').
Proof.
  induction mls as [|l mls IH]; simpl; intros st st' H Hnd.
  - now injection H as <-.
  - destruct (URL_hostname (ML.url l)) as [dom|]; [|discriminate].
    eapply IH; [eassumption|]. now apply dict_keys_set_NoDup.
Qed.

Lemma init_stats_binned mls0 mls : forall st st',
  init_stats URL_hostname mls st = Some st' ->
  Forall (binned mls0 []) st -> Forall (binned mls0 []) st'.
Proof.
  induction mls as [|l mls IH]; simpl; intros st st' H Hb.
  - now injection H as <-.
  - destruct (URL_hostname (ML.url l)) as [dom|]; [|discriminate].
    eapply IH; [eassumption|]. apply Forall_dict_set; [assumption|].
    simpl. repeat split; reflexivity.
Qed.

(** The aggregation throws exactly when some layer URL does not parse. *)
Lemma init_stats_total mls : forall st,
  (forall l, In l mls -> URL_hostname (ML.url l) <> None) ->
  exists st', init_stats URL_hostname mls st = Some st'.
Proof.
  induction mls as [|l mls IH]; simpl; intros st H.
  - now exists st.
  - destruct (URL_hostname (ML.url l)) as [dom|] eqn:E.
    + apply IH. intros l' Hl'. apply H. now right.
    + exfalso. apply (H l); [now left|assumption].
Qed.

Lemma init_stats_fails mls : forall st l,
  In l mls -> URL_hostname (ML.url l) = None ->
  init_stats URL_hostname mls st = None.
Proof.
  induction mls as [|l0 mls IH]; simpl; intros st l Hin Hl; [contradiction|].
  destruct Hin as [->|Hin].
  - now rewrite Hl.
  - destruct (URL_hostname (ML.url l0)); [|reflexivity]. eapply IH; eassumption.
Qed.

Lemma binned_record mls ms m l k s :
  matchedLayer mls m = Some l ->
  binned mls ms (k, s) ->
  binned mls (ms ++ [m]) (adjust_entry (ML.id l) (record_request m) (k, s)).
Proof.
  intros Hm (Hid & Hreq & Hcnt & Hdur & Hz1 & Hz2 & Hz3 & Hlt).
  unfold adjust_entry. simpl fst; simpl snd.
  assert (Ha : attributed mls k m = String.eqb k (ML.id l)).
  { unfold attributed. rewrite Hm. apply String.eqb_sym. }
  destruct (String.eqb k (ML.id l)) eqn:E; simpl.
  - rewrite attributed_to_snoc, Ha.
    repeat split; try assumption.
    + now rewrite Hreq.
    + rewrite length_app, Hcnt. simpl. lia.
    + rewrite sum_durations_snoc, Hdur. reflexivity.
  - rewrite attributed_to_snoc, Ha, app_nil_r. repeat split; assumption.
Qed.

Lemma binned_skip mls ms m k s :
  attributed mls k m = false ->
  binned mls ms (k, s) -> binned mls (ms ++ [m]) (k, s).
Proof.
  intros Ha (Hid & Hreq & Hrest). simpl.
  rewrite attributed_to_snoc, Ha, app_nil_r. repeat split; tauto.
Qed.

Lemma bin_request_inv mls ms m stats :
  NoDup (dict_keys stats) ->
  Forall (binned mls ms) stats ->
  dict_keys (bin_request mls stats m) = dict_keys stats /\
  Forall (binned mls (ms ++ [m])) (bin_request mls stats m).
Proof.
  intros Hnd Hb. unfold bin_request.
  destruct (matchedLayer mls m) as [l|] eqn:Hm.
  - destruct (dict_get (ML.id l) stats) as [s|] eqn:Hg.
    + rewrite (dict_set_adjust _ _ (record_request m) _ Hnd Hg).
      split; [apply adjust_keys|].
      apply Forall_map. eapply Forall_impl; [|exact Hb].
      intros [k s']. now apply binned_record.
    + split; [reflexivity|].
      apply dict_get_None in Hg.
      rewrite Forall_forall in Hb |- *. intros [k s'] Hin.
      apply binned_skip; [|now apply Hb].
      unfold attributed. rewrite Hm.
      destruct (String.eqb (ML.id l) k) eqn:E; [|reflexivity].
      apply String.eqb_eq in E. exfalso. apply Hg. rewrite E.
      change k with (fst (k, s')). now apply in_map.
  - split; [reflexivity|].
    eapply Forall_impl; [|exact Hb]. intros [k s'].
    apply binned_skip. unfold attributed. now rewrite Hm.
Qed.

Lemma bin_all_inv mls metrics : forall ms stats,
  NoDup (dict_keys stats) ->
  Forall (binned mls ms) stats ->
  dict_keys (fold_left (bin_request mls) metrics stats) = dict_keys stats /\
  Forall (binned mls (ms ++ metrics)) (fold_left (bin_request mls) metrics stats).
Proof.
  induction metrics as [|m metrics IH]; simpl; intros ms stats Hnd Hb.
  - now rewrite app_nil_r.
  - destruct (bin_request_inv mls ms m stats Hnd Hb) as [Hk Hb'].
    destruct (IH (ms ++ [m]) (bin_request mls stats m)) as [Hk2 Hb2];
      [now rewrite Hk|assumption|].
    rewrite <- app_assoc in Hb2. simpl in Hb2.
    split; [congruence|assumption].
Qed.

Lemma set_loadTime_summarises mls ms k s :
  binned mls ms (k, s) ->
  LPS.id (set_loadTime s) = k /\ summarises mls ms (set_loadTime s).
Proof.
  intros (Hid & Hreq & Hcnt & Hdur & Hz1 & Hz2 & Hz3 & Hlt).
  unfold set_loadTime, summarises.
  destruct (LPS.requests s) as [|r rs] eqn:Er;
    cbn [LPS.id LPS.requests LPS.requestCount LPS.totalDuration LPS.avgLatency
         LPS.totalSize LPS.errorCount LPS.loadTime];
    rewrite ?Er; subst k; repeat split; assumption || reflexivity.
Qed.

(** The summaries returned are one per distinct layer id, and each is
    determined by the batch as [summarises] says. *)
Lemma calculateMetrics_on_spec mls metrics result :
  calculateMetrics_on URL_hostname mls metrics = Some result ->
  NoDup (map LPS.id result) /\
  (forall k, In k (map LPS.id result) <-> In k (map ML.id mls)) /\
  Forall (summarises mls metrics) result.
Proof.
  unfold calculateMetrics_on.
  destruct (init_stats URL_hostname mls []) as [stats0|] eqn:Hi; [|discriminate].
  intros [= <-].
  assert (Hnd0 : NoDup (dict_keys stats0))
    by (eapply init_stats_NoDup; [eassumption|constructor]).
  assert (Hb0 : Forall (binned mls []) stats0)
    by (eapply init_stats_binned; [eassumption|constructor]).
  destruct (bin_all_inv mls metrics [] stats0 Hnd0 Hb0) as [Hk Hb].
  simpl in Hb. set (stats1 := fold_left (bin_request mls) metrics stats0) in *.
  set (stats2 := dict_map_values set_loadTime stats1).
  assert (Hentry : forall k s, In (k, s) stats2 -> LPS.id s = k /\ summarises mls metrics s).
  { intros k s Hin. unfold stats2, dict_map_values in Hin.
    apply in_map_iff in Hin. destruct Hin as ([k0 s0] & [= <- <-] & Hin0).
    rewrite Forall_forall in Hb. simpl.
    exact (set_loadTime_summarises mls metrics k0 s0 (Hb _ Hin0)). }
  assert (Hkeys2 : dict_keys stats2 = dict_keys stats1).
  { unfold stats2, dict_map_values, dict_keys. rewrite map_map. reflexivity. }
  assert (Hids : Permutation (dict_keys stats1) (map LPS.id (Object_values stats2))).
  { rewrite <- Hkeys2. unfold Object_values, dict_keys. rewrite map_map.
    rewrite (property_order_Permutation fst stats2) at 1.
    erewrite map_ext_in; [reflexivity|].
    intros [k s] Hin. apply property_order_In in Hin.
    simpl. symmetry. now apply Hentry. }
  rewrite Hk in Hids. split; [eapply Permutation_NoDup; eassumption|]. split.
  - intros k. pose proof (init_stats_keys _ _ _ Hi k) as Hin. simpl in Hin. split.
    + intros H. apply (Permutation_in _ (Permutation_sym Hids)) in H.
      apply Hin in H. destruct H as [[]|H]. exact H.
    + intros H. apply (Permutation_in _ Hids). apply Hin. now right.
  - apply Forall_forall. intros s Hs.
    apply Object_values_In in Hs. destruct Hs as [k Hin].
    now apply (Hentry k s).
Qed.

Lemma calculateMetrics_on_returns mls metrics :
  (forall l, In l mls -> URL_hostname (ML.url l) <> None) ->
  exists result, calculateMetrics_on URL_hostname mls metrics = Some result.
Proof.
  intros H. unfold calculateMetrics_on.
  destruct (init_stats_total mls [] H) as [st' ->]. eauto.
Qed.
End AggregatorFacts.

(** ** Minimum, maximum and span *)

Lemma Math_min_spec xs : forall x,
  In (Math_min x xs) (x :: xs) /\ forall y, In y (x :: xs) -> Math_min x xs <= y.
Proof.
  unfold Math_min. induction xs as [|a xs IH]; intros x; simpl.
  - split; [now left|]. intros y [->|[]]. lia.
  - destruct (IH (Z.min x a)) as [Hin Hle]. split.
    + destruct Hin as [Heq|Hin]; [|now right; right].
      rewrite <- Heq. destruct (Z.min_spec x a) as [[_ ->]|[_ ->]]; auto.
    + intros y [->|[->|Hy]].
      * specialize (Hle (Z.min y a) (or_introl eq_refl)). lia.
      * specialize (Hle (Z.min x y) (or_introl eq_refl)). lia.
      * apply Hle. now right.
Qed.

Lemma Math_max_spec xs : forall x,
  In (Math_max x xs) (x :: xs) /\ forall y, In y (x :: xs) -> y <= Math_max x xs.
Proof.
  unfold Math_max. induction xs as [|a xs IH]; intros x; simpl.
  - split; [now left|]. intros y [->|[]]. lia.
  - destruct (IH (Z.max x a)) as [Hin Hle]. split.
    + destruct Hin as [Heq|Hin]; [|now right; right].
      rewrite <- Heq. destruct (Z.max_spec x a) as [[_ ->]|[_ ->]]; auto.
    + intros y [->|[->|Hy]].
      * specialize (Hle (Z.max y a) (or_introl eq_refl)). lia.
      * specialize (Hle (Z.max x y) (or_introl eq_refl)). lia.
      * apply Hle. now right.
Qed.

(** The span of a non-empty list runs from its earliest start to its latest
    end. *)
Lemma span_extremes ms :
  ms <> [] ->
  exists first last,
    In first ms /\ In last ms /\
    (forall r, In r ms ->
       NRM.startTime first <= NRM.startTime r /\ NRM.endTime r <= NRM.endTime last) /\
    span ms = NRM.endTime last - NRM.startTime first.
Proof.
  destruct ms as [|r rs]; [congruence|intros _]. unfold span.
  destruct (Math_min_spec (map NRM.startTime rs) (NRM.startTime r)) as [Hmin Hle].
  destruct (Math_max_spec (map NRM.endTime rs) (NRM.endTime r)) as [Hmax Hge].
  change (NRM.startTime r :: map NRM.startTime rs)
    with (map NRM.startTime (r :: rs)) in Hmin, Hle.
  change (NRM.endTime r :: map NRM.endTime rs)
    with (map NRM.endTime (r :: rs)) in Hmax, Hge.
  apply in_map_iff in Hmin as (first & Hf & Hfin).
  apply in_map_iff in Hmax as (last & Hl & Hlin).
  exists first, last. repeat split; try assumption.
  - rewrite Hf. apply Hle. now apply in_map.
  - rewrite Hl. apply Hge. now apply in_map.
  - now rewrite Hf, Hl.
Qed.

Lemma NoDup_map_unique {A B} (f : A -> B) (l : list A) x y :
  NoDup (map f l) -> In x l -> In y l -> f x = f y -> x = y.
Proof.
  induction l as [|a l IH]; simpl; [intros _ []|].
  intros Hnd Hx Hy Hf. inversion Hnd as [|? ? Hn Hd]; subst.
  destruct Hx as [->|Hx], Hy as [->|Hy]; auto.
  - exfalso. apply Hn. rewrite Hf. now apply in_map.
  - exfalso. apply Hn. rewrite <- Hf. now apply in_map.
Qed.

(** The summary of a given layer id exists and is unique. *)
Lemma summary_of_layer URL_hostname mls metrics result l :
  calculateMetrics_on URL_hostname mls metrics = Some result ->
  In l mls ->
  exists s, In s result /\ LPS.id s = ML.id l /\
            (forall s', In s' result -> LPS.id s' = ML.id l -> s' = s) /\
            summarises mls metrics s.
Proof.
  intros Hc Hl.
  destruct (calculateMetrics_on_spec _ _ _ _ Hc) as (Hnd & Hids & Hall).
  assert (Hin : In (ML.id l) (map LPS.id result))
    by (apply Hids; now apply in_map).
  apply in_map_iff in Hin as (s & Hs & Hsin).
  exists s. repeat split; try assumption; try (rewrite Forall_forall in Hall; now apply Hall).
  intros s' Hs' Hid'. eapply NoDup_map_unique; eauto. congruence.
Qed.

(** The metric layers are the tracked layers that are not excluded, with a
    colour added. *)
Lemma layersWithColors_from_In layers : forall i l0,
  In l0 layers ->
  exists l, In l (layersWithColors_from i layers) /\
            ML.id l = ML.id l0 /\ ML.url l = ML.url l0 /\
            ML.excludeFromMetrics l = ML.excludeFromMetrics l0.
Proof.
  induction layers as [|a layers IH]; intros i l0 Hin; simpl in *; [contradiction|].
  destruct Hin as [->|Hin].
  - eexists. split; [left; reflexivity|]. repeat split.
  - destruct (IH (S i) l0 Hin) as (l & Hl & H). exists l. split; [now right|exact H].
Qed.

Lemma layersWithColors_from_origin layers : forall i l,
  In l (layersWithColors_from i layers) ->
  exists l0, In l0 layers /\
             ML.id l = ML.id l0 /\ ML.url l = ML.url l0 /\
             ML.excludeFromMetrics l = ML.excludeFromMetrics l0.
Proof.
  induction layers as [|a layers IH]; intros i l Hin; simpl in *; [contradiction|].
  destruct Hin as [<-|Hin].
  - exists a. split; [now left|]. repeat split.
  - destruct (IH (S i) l Hin) as (l0 & Hl0 & H). exists l0. split; [now right|exact H].
Qed.

Lemma metricLayers_tracked layers l0 :
  In l0 layers -> truthy (ML.excludeFromMetrics l0) = false ->
  exists l, In l (metricLayers layers) /\
            ML.id l = ML.id l0 /\ ML.url l = ML.url l0.
Proof.
  intros Hin Hex.
  destruct (layersWithColors_from_In layers 0 l0 Hin) as (l & Hl & Hid & Hurl & He).
  exists l. split; [|auto]. unfold metricLayers, layersWithColors.
  apply filter_In. split; [exact Hl|]. now rewrite He, Hex.
Qed.

Lemma metricLayers_origin layers l :
  In l (metricLayers layers) ->
  exists l0, In l0 layers /\ truthy (ML.excludeFromMetrics l0) = false /\
             ML.id l = ML.id l0 /\ ML.url l = ML.url l0.
Proof.
  unfold metricLayers, layersWithColors. intros Hin.
  apply filter_In in Hin as [Hin Hex].
  destruct (layersWithColors_from_origin layers 0 l Hin) as (l0 & Hl0 & Hid & Hurl & He).
  exists l0. rewrite <- He. apply negb_true_iff in Hex. auto.
Qed.

(** C1. For every batch and every tracked, non-excluded layer (the URLs of
    the tracked, non-excluded layers being ones the URL parser accepts), the
    aggregator returns exactly one summary with the layer's id; its requests
    are the requests of the batch attributed to that id, its requestCount is
    their number, and its loadTime is the latest end minus the earliest start
    of those requests, or 0 when there is none.  Scenario A: the requests
    (100,300), (150,250), (280,400) give requestCount 3 and loadTime 300. *)
Theorem aggregator_load_time_is_span :
  (forall URL_hostname layers metrics l,
     In l layers -> truthy (ML.excludeFromMetrics l) = false ->
     (forall l', In l' layers -> truthy (ML.excludeFromMetrics l') = false ->
                 URL_hostname (ML.url l') <> None) ->
     exists result s,
       calculateMetrics URL_hostname layers metrics = Some result /\
       In s result /\ LPS.id s = ML.id l /\
       (forall s', In s' result -> LPS.id s' = ML.id l -> s' = s) /\
       let matched := attributed_to (metricLayers layers) (ML.id l) metrics in
       LPS.requests s = matched /\
       LPS.requestCount s = Z.of_nat (List.length matched) /\
       (matched = [] -> LPS.loadTime s = 0) /\
       (matched <> [] ->
        exists first last,
          In first matched /\ In last matched /\
          (forall r, In r matched ->
             NRM.startTime first <= NRM.startTime r /\
             NRM.endTime r <= NRM.endTime last) /\
          LPS.loadTime s = NRM.endTime last - NRM.startTime first)) /\
  (forall URL_hostname dom,
     URL_hostname (ML.url layerX) = Some dom ->
     exists s,
       calculateMetrics URL_hostname [layerX] batchA = Some [s] /\
       LPS.id s = "X" /\ LPS.requests s = batchA /\
       LPS.requestCount s = 3 /\ LPS.loadTime s = 300).
Proof.
  split.
  - intros URL_hostname layers metrics l0 Hl0 Hex Hparse.
    destruct (metricLayers_tracked layers l0 Hl0 Hex) as (l & Hl & Hidl & _).
    rewrite <- Hidl.
    assert (Hparse' : forall l', In l' (metricLayers layers) ->
                                 URL_hostname (ML.url l') <> None).
    { intros l' Hl'. destruct (metricLayers_origin layers l' Hl')
        as (l1 & Hl1 & Hex1 & _ & ->). now apply Hparse. }
    destruct (calculateMetrics_on_returns URL_hostname _ metrics Hparse') as [result Hc].
    destruct (summary_of_layer _ _ _ _ _ Hc Hl)
      as (s & Hin & Hid & Huniq & Hreq & Hcnt & _ & _ & _ & _ & Hlt).
    exists result, s. rewrite Hid in Hreq.
    repeat split; try assumption.
    + now rewrite Hcnt, Hreq.
    + intros He. cbv zeta in He. rewrite Hlt, Hreq, He. reflexivity.
    + intros Hne. cbv zeta in Hne. rewrite Hlt, Hreq. now apply span_extremes.
  - intros URL_hostname dom Hdom.
    unfold calculateMetrics, calculateMetrics_on.
    change (metricLayers [layerX])
      with [ML.mk "X" "X" (ML.url layerX) map_image true (Some "#3b82f6") None].
    cbn [init_stats ML.url]. rewrite Hdom.
    eexists. split; [vm_compute; reflexivity|]. repeat split.
Qed.

(** Scenario A obtained from the general statement. *)
Lemma aggregator_load_time_scenario_A :
  exists result s,
    calculateMetrics example_hostname [layerX] batchA = Some result /\
    In s result /\ LPS.id s = "X" /\
    LPS.requestCount s = 3 /\
    exists first last,
      NRM.startTime first = 100 /\ NRM.endTime last = 400 /\
      LPS.loadTime s = NRM.endTime last - NRM.startTime first.
Proof.
  destruct (proj1 aggregator_load_time_is_span example_hostname [layerX] batchA layerX)
    as (result & s & Hc & Hin & Hid & _ & Hreq & Hcnt & _ & Hspan).
  - now left.
  - reflexivity.
  - intros l' [<-|[]] _. vm_compute. discriminate.
  - cbv zeta in Hreq, Hcnt, Hspan.
    change (attributed_to _ _ _) with batchA in Hreq, Hcnt, Hspan.
    destruct Hspan as (first & last & Hf & Hl & Hext & Hlt); [discriminate|].
    exists result, s. repeat split; try assumption.
    exists first, last. repeat split; try assumption.
    + pose proof (proj1 (Hext _ (or_introl eq_refl))) as H1. simpl in H1.
      destruct Hf as [<-|[<-|[<-|[]]]]; simpl in *; lia.
    + pose proof (proj2 (Hext _ (or_intror (or_intror (or_introl eq_refl))))) as H1.
      simpl in H1.
      destruct Hl as [<-|[<-|[<-|[]]]]; simpl in *; lia.
Defined.

(** ** Fields that the aggregation never updates *)

Lemma sort_insert_In a l s : In s (sort_insert a l) <-> s = a \/ In s l.
Proof.
  induction l as [|b l IH]; simpl.
  - intuition.
  - destruct (LPS.loadTime b - LPS.loadTime a <=? 0); simpl.
    + intuition.
    + rewrite IH. intuition.
Qed.

Lemma sort_by_loadTime_desc_In l s : In s (sort_by_loadTime_desc l) <-> In s l.
Proof.
  induction l as [|a l IH]; simpl; [tauto|].
  rewrite sort_insert_In, IH. intuition.
Qed.

(** C10. Every summary returned by the aggregator ([calculateMetrics], and
    the sorted [aggregatedMetrics] of the earlier App) has avgLatency,
    totalSize and errorCount equal to 0, whatever the batch and the layers. *)
Theorem aggregator_unused_fields_are_zero :
  forall URL_hostname layers metrics result s,
    calculateMetrics URL_hostname layers metrics = Some result \/
    aggregatedMetrics URL_hostname layers metrics = Some result ->
    In s result ->
    LPS.avgLatency s = 0 /\ LPS.totalSize s = 0 /\ LPS.errorCount s = 0.
Proof.
  intros URL_hostname layers metrics result s Hc Hin.
  assert (H : exists r, calculateMetrics URL_hostname layers metrics = Some r /\ In s r).
  { destruct Hc as [Hc|Hc]; [eauto|].
    unfold aggregatedMetrics in Hc.
    destruct (calculateMetrics URL_hostname layers metrics) as [r|]; [|discriminate].
    injection Hc as <-. exists r. split; [reflexivity|].
    now apply sort_by_loadTime_desc_In. }
  destruct H as (r & Hr & Hsr).
  destruct (calculateMetrics_on_spec _ _ _ _ Hr) as (_ & _ & Hall).
  rewrite Forall_forall in Hall.
  destruct (Hall s Hsr) as (_ & _ & _ & H1 & H2 & H3 & _). auto.
Qed.

(** A batch with a failed request (status 500), payload sizes and non-zero
    durations still yields zeros in the three fields. *)
Lemma aggregator_unused_fields_witness :
  exists s,
    calculateMetrics example_hostname [layerX] batch_with_error = Some [s] /\
    LPS.requestCount s = 2 /\ LPS.totalDuration s = 350 /\
    LPS.avgLatency s = 0 /\ LPS.totalSize s = 0 /\ LPS.errorCount s = 0.
Proof.
  eexists. split; [vm_compute; reflexivity|].
  split; [reflexivity|]. split; [reflexivity|].
  eapply (aggregator_unused_fields_are_zero example_hostname [layerX] batch_with_error).
  - left. vm_compute. reflexivity.
  - now left.
Defined.

(** ** Attribution *)

Lemma find_first_match {A} (f : A -> bool) (l : list A) (x : A) :
  find f l = Some x <->
  exists before after,
    l = before ++ x :: after /\ f x = true /\
    forall y, In y before -> f y = false.
Proof.
  induction l as [|a l IH]; simpl.
  - split; [discriminate|]. intros (b & c & H & _). now destruct b.
  - destruct (f a) eqn:Ea.
    + split.
      * intros [= ->]. exists [], l. repeat split; [assumption|intros y []].
      * intros (b & c & H & Hx & Hb). destruct b as [|b0 b]; simpl in H.
        -- congruence.
        -- injection H as -> _. rewrite (Hb b0 (or_introl eq_refl)) in Ea.
           discriminate.
    + rewrite IH. split; intros (b & c & H & Hx & Hb).
      * exists (a :: b), c. subst l. repeat split; [assumption|].
        intros y [<-|Hy]; auto.
      * destruct b as [|b0 b]; simpl in H.
        -- injection H as -> _. congruence.
        -- injection H as _ ->. exists b, c. repeat split; [assumption|].
           intros y Hy. apply Hb. now right.
Qed.

Lemma matchedLayer_first_match mls m l :
  matchedLayer mls m = Some l <-> first_match mls m l.
Proof. apply find_first_match. Qed.

Lemma url_matches_substring m l :
  url_matches m l = true <->
  substring (toLowerCase (ML.url l)) (toLowerCase (NRM.url m)).
Proof. apply includes_spec. Qed.

Lemma attributed_first_match mls k m :
  attributed mls k m = true <-> exists l, first_match mls m l /\ ML.id l = k.
Proof.
  unfold attributed. split.
  - destruct (matchedLayer mls m) as [l|] eqn:E; [|discriminate].
    intros H. exists l. split; [now apply matchedLayer_first_match|].
    now apply String.eqb_eq.
  - intros (l & Hl & <-). apply matchedLayer_first_match in Hl.
    rewrite Hl. apply String.eqb_refl.
Qed.

(** C2. A request matches a layer iff its lower-cased URL contains the
    layer's lower-cased URL; the aggregator books it on the summary of the
    first matching layer of the tracked-layer list and on no other summary,
    as often as it occurs in the batch; a request that matches no tracked
    layer is in no summary. *)
Theorem aggregator_attributes_to_first_match :
  forall URL_hostname layers metrics result,
    calculateMetrics URL_hostname layers metrics = Some result ->
    let mls := metricLayers layers in
    (forall m l, url_matches m l = true <->
                 substring (toLowerCase (ML.url l)) (toLowerCase (NRM.url m))) /\
    (forall m l, matchedLayer mls m = Some l <-> first_match mls m l) /\
    (forall s, In s result ->
       LPS.requests s = attributed_to mls (LPS.id s) metrics /\
       LPS.requestCount s = Z.of_nat (List.length (LPS.requests s)) /\
       forall m, In m (LPS.requests s) <->
                 In m metrics /\ exists l, first_match mls m l /\ ML.id l = LPS.id s) /\
    (forall m l, In m metrics -> first_match mls m l ->
       exists s, In s result /\ LPS.id s = ML.id l /\ In m (LPS.requests s) /\
                 forall s', In s' result -> In m (LPS.requests s') -> s' = s) /\
    (forall m, (forall l, In l mls -> url_matches m l = false) ->
       forall s, In s result -> ~ In m (LPS.requests s)).
Proof.
  intros URL_hostname layers metrics result Hc mls.
  destruct (calculateMetrics_on_spec _ _ _ _ Hc) as (Hnd & Hids & Hall).
  rewrite Forall_forall in Hall.
  assert (Hbook : forall s, In s result -> forall m,
             In m (LPS.requests s) <->
             In m metrics /\ exists l, first_match mls m l /\ ML.id l = LPS.id s).
  { intros s Hs m. destruct (Hall s Hs) as (Hreq & _).
    rewrite Hreq. unfold attributed_to. rewrite filter_In.
    now rewrite attributed_first_match. }
  split; [apply url_matches_substring|].
  split; [apply matchedLayer_first_match|].
  split; [|split].
  - intros s Hs. destruct (Hall s Hs) as (Hreq & Hcnt & _). auto.
  - intros m l Hm Hl.
    assert (Hlin : In l mls).
    { destruct Hl as (b & a & -> & _). apply in_or_app. right. now left. }
    destruct (summary_of_layer _ _ _ _ _ Hc Hlin) as (s & Hs & Hid & Huniq & _).
    exists s. repeat split; try assumption.
    + apply Hbook; [assumption|]. split; [assumption|]. exists l. auto.
    + intros s' Hs' Hm'. apply Huniq; [assumption|].
      apply Hbook in Hm' as (_ & l' & Hl' & <-); [|assumption].
      apply matchedLayer_first_match in Hl, Hl'. congruence.
  - intros m Hno s Hs Hm.
    apply Hbook in Hm as (_ & l & (b & a & Hl & Hmatch & _) & _); [|assumption].
    rewrite Hno in Hmatch; [discriminate|].
    fold mls. rewrite Hl. apply in_or_app. right. now left.
Qed.

(** Scenario B: a request to the longer of two overlapping layer URLs is
    booked on the layer listed first, whichever that is, and on that one
    alone. *)
Lemma aggregator_scenario_B :
  (exists sA sMap,
     calculateMetrics example_hostname [layerA; layerA_MapServer] batchB
       = Some [sA; sMap] /\
     LPS.id sA = "A" /\ LPS.requestCount sA = 1 /\
     LPS.id sMap = "A-map" /\ LPS.requestCount sMap = 0) /\
  (exists sMap sA,
     calculateMetrics example_hostname [layerA_MapServer; layerA] batchB
       = Some [sMap; sA] /\
     LPS.id sA = "A" /\ LPS.requestCount sA = 0 /\
     LPS.id sMap = "A-map" /\ LPS.requestCount sMap = 1).
Proof.
  split; do 2 eexists; (split; [vm_compute; reflexivity|]); repeat split.
Qed.

Lemma aggregator_attribution_witness :
  exists s,
    calculateMetrics example_hostname [layerA; layerA_MapServer] batchB
      = Some [s; LPS.mk "A-map" "A-map" "gis.example.com" 0 0 0 0 0 0 []] /\
    LPS.requests s = attributed_to (metricLayers [layerA; layerA_MapServer]) "A" batchB /\
    LPS.requests s = batchB.
Proof.
  eexists. split; [vm_compute; reflexivity|].
  split; [|reflexivity].
  refine (proj1 (proj1 (proj2 (proj2
    (aggregator_attributes_to_first_match example_hostname
       [layerA; layerA_MapServer] batchB _ _))) _ _)).
  - vm_compute. reflexivity.
  - now left.
Defined.

(** ** Load time against total duration *)

Lemma clip_nonneg a b m : 0 <= clip a b m.
Proof. unfold clip. lia. Qed.

Lemma clip_le_duration a b m : well_timed m -> clip a b m <= NRM.duration m.
Proof. unfold well_timed, clip. lia. Qed.

Lemma clip_grows a b m : clip a b m <= clip a (b + 1) m.
Proof. unfold clip. lia. Qed.

Lemma clip_grows_inside a b m :
  a <= b -> NRM.startTime m <= b < NRM.endTime m ->
  clip a b m + 1 <= clip a (b + 1) m.
Proof. unfold clip. lia. Qed.

Lemma sum_clip_nonneg a b ms : 0 <= sum_clip a b ms.
Proof.
  induction ms as [|m ms IH]; simpl; [lia|].
  pose proof (clip_nonneg a b m). lia.
Qed.

Lemma sum_clip_le_durations a b ms :
  Forall well_timed ms -> sum_clip a b ms <= sum_durations ms.
Proof.
  induction 1 as [|m ms Hm _ IH]; simpl; [lia|].
  pose proof (clip_le_duration a b m Hm). lia.
Qed.

Lemma sum_clip_grows a b ms : sum_clip a b ms <= sum_clip a (b + 1) ms.
Proof.
  induction ms as [|m ms IH]; simpl; [lia|].
  pose proof (clip_grows a b m). lia.
Qed.

Lemma sum_clip_grows_inside a b ms :
  a <= b ->
  (exists r, In r ms /\ NRM.startTime r <= b < NRM.endTime r) ->
  sum_clip a b ms + 1 <= sum_clip a (b + 1) ms.
Proof.
  intros Hab (r & Hin & Hr). induction ms as [|m ms IH]; simpl; [contradiction|].
  destruct Hin as [->|Hin].
  - pose proof (clip_grows_inside a b r Hab Hr).
    pose proof (sum_clip_grows a b ms). lia.
  - pose proof (clip_grows a b m). specialize (IH Hin). lia.
Qed.

(** Requests that cover a window are together at least as long as it. *)
Lemma covered_window_le_sum_clip ms a : forall n,
  (forall t, a <= t < a + Z.of_nat n ->
     exists r, In r ms /\ NRM.startTime r <= t < NRM.endTime r) ->
  Z.of_nat n <= sum_clip a (a + Z.of_nat n) ms.
Proof.
  induction n as [|n IH]; intros Hcov.
  - apply sum_clip_nonneg.
  - assert (IHn : Z.of_nat n <= sum_clip a (a + Z.of_nat n) ms).
    { apply IH. intros t Ht. apply Hcov. lia. }
    assert (Hstep : sum_clip a (a + Z.of_nat n) ms + 1
                    <= sum_clip a (a + Z.of_nat n + 1) ms).
    { apply sum_clip_grows_inside; [lia|]. apply Hcov. lia. }
    replace (a + Z.of_nat (S n)) with (a + Z.of_nat n + 1) by lia. lia.
Qed.

Lemma sum_durations_nonneg ms : Forall well_timed ms -> 0 <= sum_durations ms.
Proof.
  induction 1 as [|m ms [Hm1 Hm2] _ IH]; simpl; lia.
Qed.

Lemma gapless_span_le_durations ms :
  Forall well_timed ms -> gapless ms -> span ms <= sum_durations ms.
Proof.
  intros Hwt Hgap. destruct ms as [|r0 rs] eqn:E.
  - simpl. lia.
  - rewrite <- E in *.
    destruct (span_extremes ms) as (first & last & Hf & Hl & Hext & ->);
      [rewrite E; discriminate|].
    set (a := NRM.startTime first). set (b := NRM.endTime last).
    destruct (Z_le_gt_dec b a) as [Hle|Hgt].
    + pose proof (sum_durations_nonneg ms Hwt). lia.
    + pose proof (covered_window_le_sum_clip ms a (Z.to_nat (b - a))) as Hc.
      rewrite Z2Nat.id in Hc by lia.
      assert (Hcov : forall t, a <= t < a + (b - a) ->
                exists r, In r ms /\ NRM.startTime r <= t < NRM.endTime r).
      { intros t Ht. apply Hgap.
        - exists first. split; [assumption|]. unfold a in Ht. lia.
        - exists last. split; [assumption|]. unfold b in Ht. lia. }
      specialize (Hc Hcov).
      pose proof (sum_clip_le_durations a (a + (b - a)) ms Hwt). lia.
Qed.

Lemma span_nonneg ms : Forall well_timed ms -> 0 <= span ms.
Proof.
  intros Hwt. destruct ms as [|r0 rs] eqn:E; [simpl; lia|].
  rewrite <- E in *.
  destruct (span_extremes ms) as (first & last & Hf & Hl & Hext & ->);
    [rewrite E; discriminate|].
  rewrite Forall_forall in Hwt. destruct (Hwt _ Hf) as [H1 _].
  destruct (Hext _ Hf) as [_ H2]. lia.
Qed.

Lemma span_zero_iff ms :
  Forall well_timed ms ->
  (span ms = 0 <->
   ms = [] \/ exists t, forall r, In r ms -> NRM.startTime r = t /\ NRM.endTime r = t).
Proof.
  intros Hwt. destruct ms as [|r0 rs] eqn:E.
  - simpl. split; auto.
  - rewrite <- E in *.
    destruct (span_extremes ms) as (first & last & Hf & Hl & Hext & Hs);
      [rewrite E; discriminate|].
    rewrite Forall_forall in Hwt. split.
    + intros H0. right. exists (NRM.startTime first). intros r Hr.
      destruct (Hext r Hr) as [H1 H2]. destruct (Hwt r Hr) as [H3 _]. lia.
    + intros [He|[t Ht]]; [rewrite E in He; discriminate|].
      destruct (Ht _ Hf) as [H1 _]. destruct (Ht _ Hl) as [_ H2]. lia.
Qed.

(** C3, refuted as stated.  Two requests [0,10] and [100,110] of one layer
    satisfy the metric invariant and give requestCount 2, totalDuration 20
    and loadTime 110; one request that starts and ends at 100 gives
    requestCount 1 and loadTime 0. *)
Lemma aggregator_load_time_invariant_fails :
  (Forall well_timed batch_with_gap /\
   exists s,
     calculateMetrics example_hostname [layerX] batch_with_gap = Some [s] /\
     LPS.requestCount s = 2 /\ LPS.totalDuration s = 20 /\ LPS.loadTime s = 110 /\
     ~ (LPS.requestCount s > 1 -> LPS.loadTime s <= LPS.totalDuration s)) /\
  (Forall well_timed batch_instant /\
   exists s,
     calculateMetrics example_hostname [layerX] batch_instant = Some [s] /\
     LPS.requestCount s = 1 /\ LPS.loadTime s = 0 /\
     ~ (LPS.loadTime s = 0 <-> LPS.requestCount s = 0)).
Proof.
  split; (split; [repeat constructor; simpl; lia|]);
    eexists; (split; [vm_compute; reflexivity|]); simpl.
  - repeat split; try reflexivity. intros H. specialize (H eq_refl). lia.
  - repeat split; try reflexivity. intros [H _]. specialize (H eq_refl). lia.
Qed.

(** C3, amended.  For a batch that satisfies the metric invariant (end >=
    start, duration = end - start) every summary has loadTime >= 0;
    requestCount 0 gives loadTime 0; loadTime is 0 exactly when requestCount
    is 0 or all matched requests start and end at one common instant; and
    loadTime <= totalDuration holds when the matched requests leave no gap
    between the earliest start and the latest end. *)
Theorem aggregator_load_time_bounds :
  forall URL_hostname layers metrics result s,
    calculateMetrics URL_hostname layers metrics = Some result ->
    Forall well_timed metrics ->
    In s result ->
    0 <= LPS.loadTime s /\
    (LPS.requestCount s = 0 -> LPS.loadTime s = 0) /\
    (LPS.loadTime s = 0 <->
     LPS.requestCount s = 0 \/
     exists t, forall r, In r (LPS.requests s) ->
                 NRM.startTime r = t /\ NRM.endTime r = t) /\
    (gapless (LPS.requests s) -> LPS.loadTime s <= LPS.totalDuration s).
Proof.
  intros URL_hostname layers metrics result s Hc Hwt Hin.
  destruct (calculateMetrics_on_spec _ _ _ _ Hc) as (_ & _ & Hall).
  rewrite Forall_forall in Hall.
  destruct (Hall s Hin) as (Hreq & Hcnt & Hdur & _ & _ & _ & Hlt).
  assert (Hwts : Forall well_timed (LPS.requests s)).
  { rewrite Hreq. unfold attributed_to. rewrite Forall_forall in Hwt |- *.
    intros m Hm. apply filter_In in Hm as [Hm _]. now apply Hwt. }
  assert (Hempty : LPS.requestCount s = 0 <-> LPS.requests s = []).
  { rewrite Hcnt. destruct (LPS.requests s); simpl; split; (lia || discriminate || auto). }
  rewrite Hlt, Hdur. split; [now apply span_nonneg|]. split; [|split].
  - intros H0. apply Hempty in H0. now rewrite H0.
  - rewrite Hempty. now apply span_zero_iff.
  - now apply gapless_span_le_durations.
Qed.

(** Scenario A is gapless: its load time is below its total duration. *)
Lemma aggregator_load_time_bounds_witness :
  exists s,
    calculateMetrics example_hostname [layerX] batchA = Some [s] /\
    LPS.requests s = batchA /\
    0 <= LPS.loadTime s /\ LPS.loadTime s <= LPS.totalDuration s.
Proof.
  eexists. split; [vm_compute; reflexivity|]. split; [reflexivity|].
  refine ((fun H => conj (proj1 H) (proj2 (proj2 (proj2 H)) _))
            (aggregator_load_time_bounds example_hostname [layerX] batchA _ _ _ _ _)).
  - intros t (r1 & Hin1 & H1) (r2 & Hin2 & H2).
    assert (Ht : 100 <= t < 400).
    { simpl in Hin1, Hin2.
      destruct Hin1 as [<-|[<-|[<-|[]]]]; destruct Hin2 as [<-|[<-|[<-|[]]]];
        simpl in H1, H2; lia. }
    destruct (Z_lt_ge_dec t 300) as [Hlt|Hge].
    + eexists. split; [left; reflexivity|]. simpl. lia.
    + eexists. split; [right; right; left; reflexivity|]. simpl. lia.
  - vm_compute. reflexivity.
  - repeat constructor; simpl; lia.
  - now left.
Defined.

(** ** The idle waiter against a view that stays busy *)

Module IdleWaiterFacts.
Import IdleWaiter.

(** While the view is busy at every wake-up the loop only polls; it leaves
    through the timeout test, at the first wake-up at or after the
    deadline. *)
Lemma busy_loop env start timeout :
  (forall i, view_busy (env i) = true) ->
  forall fuel now k,
    (1 <= fuel)%nat ->
    timeout - (now - start) <= 200 * (Z.of_nat fuel - 1) ->
    exists t k',
      waitForIdle_loop fuel env start timeout now k = Some (false, t, k') /\
      timeout <= t - start /\
      (timeout <= now - start -> t = now /\ k' = k) /\
      (now - start < timeout ->
       forall J, (forall i, Z.of_nat (late (env i)) <= J) ->
                 t - start < timeout + 200 + J).
Proof.
  intros Hbusy. induction fuel as [|fuel IH]; intros now k Hf Hr; [lia|].
  simpl. destruct (now - start <? timeout) eqn:E.
  - apply Z.ltb_lt in E. rewrite Hbusy.
    set (now1 := now + 200 + Z.of_nat (late (env k))).
    assert (Hnow1 : now + 200 <= now1) by (unfold now1; lia).
    destruct (IH now1 (S k)) as (t & k' & Hres & Hge & Hstop & Hslack); [lia|lia|].
    exists t, k'. split; [exact Hres|]. split; [exact Hge|].
    split; [lia|]. intros _ J HJ.
    destruct (Z_lt_ge_dec (now1 - start) timeout) as [Hlt|Hge'].
    + now apply Hslack.
    + destruct Hstop as [-> _]; [lia|].
      specialize (HJ k). unfold now1. lia.
  - apply Z.ltb_ge in E. exists now, k.
    split; [reflexivity|]. split; [lia|]. split; [auto|lia].
Qed.

(** Whatever the signals do, the waiter returns: every round of the loop
    moves the clock by at least 200ms. *)
Lemma loop_returns env start timeout :
  forall fuel now k,
    (1 <= fuel)%nat ->
    timeout - (now - start) <= 200 * (Z.of_nat fuel - 1) ->
    exists b t k', waitForIdle_loop fuel env start timeout now k = Some (b, t, k').
Proof.
  induction fuel as [|fuel IH]; intros now k Hf Hr; [lia|].
  simpl. destruct (now - start <? timeout) eqn:E; [|eauto].
  apply Z.ltb_lt in E.
  set (now1 := now + 200 + Z.of_nat (late (env k))).
  destruct (view_busy (env k)); [apply IH; unfold now1; lia|].
  destruct (layersBusy (env k)); [apply IH; unfold now1; lia|].
  destruct (negb (view_busy (env (S k))) && _); [eauto|].
  apply IH; unfold now1; lia.
Qed.

Lemma enough_polls_suffice timeout fuel :
  (enough_polls timeout <= fuel)%nat ->
  (1 <= fuel)%nat /\ timeout <= 200 * (Z.of_nat fuel - 1).
Proof.
  unfold enough_polls. intros H. split; [lia|].
  destruct (Z_le_gt_dec timeout 0) as [Hle|Hgt]; [lia|].
  assert (0 <= timeout / 200) by (apply Z.div_pos; lia).
  assert (timeout < 200 * (timeout / 200 + 1)).
  { pose proof (Z.mod_pos_bound timeout 200 ltac:(lia)).
    pose proof (Z.div_mod timeout 200 ltac:(lia)). lia. }
  assert (Z.of_nat (Z.to_nat (timeout / 200 + 1)) = timeout / 200 + 1)
    by (apply Z2Nat.id; lia).
  lia.
Qed.
Lemma waitForIdle_returns env timeout now k fuel :
  (enough_polls timeout <= fuel)%nat ->
  exists b t k', waitForIdle fuel env timeout now k = Some (b, t, k').
Proof.
  intros Hfuel. destruct (enough_polls_suffice timeout fuel Hfuel) as [H1 H2].
  apply loop_returns; lia.
Qed.
End IdleWaiterFacts.

(** C6. For every timeout T, [waitForIdle(T)] called while the view is busy
    at every poll returns (given fuel for T/200 + 2 polls) the answer false,
    at a clock reading t with t - now >= T; with a non-positive T it returns
    at once; and when no timer is more than J late, t - now < T + 200 + J:
    with punctual timers the return falls within one poll interval after T. *)
Theorem waitForIdle_times_out_no_earlier_than_timeout :
  forall env timeout now k fuel,
    (forall i, IdleWaiter.view_busy (env i) = true) ->
    (IdleWaiter.enough_polls timeout <= fuel)%nat ->
    exists t k',
      IdleWaiter.waitForIdle fuel env timeout now k = Some (false, t, k') /\
      timeout <= t - now /\
      (timeout <= 0 -> t = now) /\
      (0 < timeout ->
       forall J, (forall i, Z.of_nat (IdleWaiter.late (env i)) <= J) ->
                 t - now < timeout + 200 + J).
Proof.
  intros env timeout now k fuel Hbusy Hfuel.
  destruct (IdleWaiterFacts.enough_polls_suffice timeout fuel Hfuel) as [H1 H2].
  destruct (IdleWaiterFacts.busy_loop env now timeout Hbusy fuel now k H1)
    as (t & k' & Hres & Hge & Hstop & Hslack); [lia|].
  exists t, k'. split; [exact Hres|]. split; [exact Hge|]. split.
  - intros H0. apply Hstop. lia.
  - intros H0. apply Hslack. lia.
Qed.

(** With a timeout of 1000ms, started at clock 5000: five polls of 203ms,
    answer false at 6015. *)
Lemma waitForIdle_times_out_witness :
  exists t k',
    IdleWaiter.waitForIdle 10 always_busy 1000 5000 0 = Some (false, t, k') /\
    1000 <= t - 5000 /\ t - 5000 < 1000 + 200 + 3 /\ t = 6015.
Proof.
  destruct (waitForIdle_times_out_no_earlier_than_timeout always_busy 1000 5000 0 10)
    as (t & k' & Hres & Hge & _ & Hslack).
  - intros i. reflexivity.
  - vm_compute. lia.
  - exists t, k'. split; [exact Hres|]. split; [exact Hge|]. split.
    + apply Hslack; [lia|]. intros i. simpl. lia.
    + vm_compute in Hres. congruence.
Defined.

(** ** The Metric Bus *)

Lemma Subseq_In {A} (xs ys : list A) x : Subseq xs ys -> In x xs -> In x ys.
Proof.
  induction 1 as [|y xs ys _ IH|y xs ys _ IH]; simpl; auto.
  intros [->|H]; auto.
Qed.

Lemma Subseq_NoDup {A} (xs ys : list A) : Subseq xs ys -> NoDup ys -> NoDup xs.
Proof.
  induction 1 as [|y xs ys _ IH|y xs ys Hs IH]; intros Hnd; auto.
  - inversion Hnd; auto.
  - inversion Hnd as [|? ? Hn Hd]; subst. constructor; auto.
    intros Hin. apply Hn. eapply Subseq_In; eassumption.
Qed.

Lemma skipn_nth_error {A} (l : list A) : forall i e,
  nth_error l i = Some e -> skipn i l = e :: skipn (S i) l.
Proof.
  induction l as [|a l IH]; intros [|i] e H; simpl in *; try discriminate.
  - now injection H as ->.
  - now apply IH.
Qed.

Module MetricBusFacts.
Import MetricBus.

Lemma run_ops_pointwise ops : forall s,
  forallb is_unsubscribe ops = true ->
  fold_left run_op ops s = map (clear_slot ops) s.
Proof.
  induction ops as [|op ops IH]; intros s H; simpl.
  - rewrite <- (map_id s) at 1. apply map_ext. now intros [x|].
  - simpl in H. apply andb_prop in H as [Hop Hops].
    destruct op as [l|l]; [discriminate|].
    rewrite IH by assumption. simpl. unfold set_delete. rewrite map_map.
    apply map_ext. intros [x|]; simpl; [|reflexivity].
    rewrite (Nat.eqb_sym l x). now destruct (Nat.eqb x l).
Qed.

Lemma run_ops_length ops s :
  forallb is_unsubscribe ops = true ->
  List.length (fold_left run_op ops s) = List.length s.
Proof. intros H. rewrite run_ops_pointwise by assumption. apply length_map. Qed.

Lemma members_clear ops r :
  members (map (clear_slot ops) r) =
  filter (fun x => negb (unsubscribed_in ops x)) (members r).
Proof.
  induction r as [|[x|] r IH]; simpl; auto.
  destruct (unsubscribed_in ops x); simpl; now rewrite IH.
Qed.

Section Dispatch.
Variable behaviour : Listener -> NRM.t -> list BusOp.
Variable metric : NRM.t.

Local Abbreviation live := (live_dispatch behaviour metric).

Lemma live_ext ls : forall rm rm',
  (forall x, rm x = rm' x) -> live rm ls = live rm' ls.
Proof.
  induction ls as [|l ls IH]; intros rm rm' H; simpl; [reflexivity|].
  rewrite <- (H l). destruct (rm l); [now apply IH|].
  f_equal. apply IH. intros x. now rewrite H.
Qed.

Lemma live_filter p ls : forall rm,
  live rm (filter (fun x => negb (p x)) ls) = live (fun x => rm x || p x) ls.
Proof.
  induction ls as [|l ls IH]; intros rm; simpl; [reflexivity|].
  destruct (p l) eqn:Ep; simpl.
  - rewrite orb_true_r. apply IH.
  - rewrite orb_false_r. destruct (rm l); [apply IH|].
    f_equal. rewrite IH. apply live_ext. intros x.
    now rewrite <- !orb_assoc, (orb_comm (p x)).
Qed.

Lemma live_Subseq ls : forall rm, Subseq (live rm ls) ls.
Proof.
  induction ls as [|l ls IH]; intros rm; simpl; [constructor|].
  destruct (rm l); constructor; apply IH.
Qed.

Lemma live_complete ls x : forall rm,
  In x ls -> rm x = false ->
  (forall l, In l ls -> unsubscribed_by behaviour l metric x = false) ->
  In x (live rm ls).
Proof.
  induction ls as [|l ls IH]; intros rm Hin Hrm Hno; simpl in *; [contradiction|].
  destruct Hin as [->|Hin].
  - rewrite Hrm. now left.
  - destruct (rm l).
    + apply IH; auto.
    + right. apply IH; auto. rewrite Hrm. simpl. apply Hno. now left.
Qed.

Lemma live_all ls : forall rm,
  (forall x, In x ls -> rm x = false) ->
  (forall l x, In l ls -> In x ls -> unsubscribed_by behaviour l metric x = false) ->
  live rm ls = ls.
Proof.
  induction ls as [|l ls IH]; intros rm Hrm Hno; simpl; [reflexivity|].
  rewrite (Hrm l) by now left. f_equal. apply IH.
  - intros x Hx. rewrite (Hrm x) by now right. simpl.
    apply Hno; [now left|now right].
  - intros l' x Hl' Hx. apply Hno; now right.
Qed.

(** The iteration by index computes [live_dispatch] on the callbacks
    that are still to be visited. *)
Lemma forEach_from_live :
  (forall l, only_unsubscribes behaviour l metric = true) ->
  forall fuel index s called,
    (List.length s - index < fuel)%nat ->
    exists s',
      forEach_from behaviour fuel metric index s called =
      Some (s', called ++ live (fun _ => false) (members (skipn index s))).
Proof.
  intros Honly. induction fuel as [|fuel IH]; intros index s called Hf; [lia|].
  simpl. destruct (nth_error s index) as [[l|]|] eqn:E.
  - rewrite (skipn_nth_error _ _ _ E).
    destruct (IH (S index) (fold_left run_op (behaviour l metric) s) (called ++ [l]))
      as [s' Hs'].
    { assert (index < List.length s)%nat by (apply nth_error_Some; congruence).
      rewrite run_ops_length by apply Honly. lia. }
    exists s'. rewrite Hs'. f_equal. f_equal.
    rewrite run_ops_pointwise by apply Honly.
    rewrite skipn_map, members_clear, live_filter, <- app_assoc.
    reflexivity.
  - rewrite (skipn_nth_error _ _ _ E).
    assert (index < List.length s)%nat by (apply nth_error_Some; congruence).
    destruct (IH (S index) s called) as [s' Hs']; [lia|].
    exists s'. exact Hs'.
  - apply nth_error_None in E. rewrite skipn_all2 by assumption.
    exists s. simpl. now rewrite app_nil_r.
Qed.
End Dispatch.
End MetricBusFacts.

(** C9, refuted as stated.  Callbacks 1 and 2 are subscribed in that order;
    callback 1 unsubscribes callback 2 when it is called.  The publish
    returns normally, but callback 2, subscribed when the publish began, is
    not invoked in that pass. *)
Lemma publish_skips_listener_unsubscribed_during_dispatch :
  MetricBus.snapshot_dispatch two_listeners = [1; 2]%nat /\
  MetricBus.notifyListeners unsubscribes_next 3 some_metric two_listeners
    = Some ([Some 1%nat; None], [1%nat]) /\
  ~ (forall called s',
       MetricBus.notifyListeners unsubscribes_next 3 some_metric two_listeners
         = Some (s', called) ->
       called = MetricBus.snapshot_dispatch two_listeners).
Proof.
  split; [reflexivity|]. split; [reflexivity|].
  intros H. specialize (H _ _ eq_refl). discriminate.
Qed.

(** C9, amended.  When the callbacks do nothing to the bus but unsubscribe,
    a publish returns normally (the iteration needs one unit of fuel per
    slot and one more); the callbacks invoked are those subscribed when the
    publish began except the ones that a callback invoked earlier in the
    same pass has unsubscribed; they are invoked in subscription order and
    at most once each; a callback that no callback unsubscribes is invoked;
    and when no callback unsubscribes another still-subscribed one, the pass
    is exactly the subscription list. *)
Theorem publish_dispatches_to_still_subscribed_listeners :
  forall behaviour metric listeners,
    NoDup (MetricBus.members listeners) ->
    (forall l, MetricBus.only_unsubscribes behaviour l metric = true) ->
    exists listeners' called,
      MetricBus.notifyListeners behaviour (S (List.length listeners)) metric listeners
        = Some (listeners', called) /\
      called = MetricBus.live_dispatch behaviour metric (fun _ => false)
                 (MetricBus.members listeners) /\
      Subseq called (MetricBus.snapshot_dispatch listeners) /\
      NoDup called /\
      (forall x, In x (MetricBus.members listeners) ->
         (forall l, In l (MetricBus.members listeners) ->
            MetricBus.unsubscribed_by behaviour l metric x = false) ->
         In x called) /\
      ((forall l x, In l (MetricBus.members listeners) ->
          In x (MetricBus.members listeners) ->
          MetricBus.unsubscribed_by behaviour l metric x = false) ->
       called = MetricBus.snapshot_dispatch listeners).
Proof.
  intros behaviour metric listeners Hnd Honly.
  destruct (MetricBusFacts.forEach_from_live behaviour metric Honly
              (S (List.length listeners)) 0 listeners []) as [s' Hs']; [lia|].
  simpl skipn in Hs'. rewrite app_nil_l in Hs'.
  exists s', (MetricBus.live_dispatch behaviour metric (fun _ => false)
                (MetricBus.members listeners)).
  split; [exact Hs'|]. split; [reflexivity|].
  assert (Hsub := MetricBusFacts.live_Subseq behaviour metric
                    (MetricBus.members listeners) (fun _ => false)).
  split; [exact Hsub|]. split; [eapply Subseq_NoDup; eassumption|]. split.
  - intros x Hx Hno. now apply MetricBusFacts.live_complete.
  - intros Hno. apply MetricBusFacts.live_all; auto.
Qed.

(** Three subscribers, the first of which unsubscribes itself during the
    publish: all three are invoked, in order. *)
Lemma publish_dispatch_witness :
  exists listeners' called,
    MetricBus.notifyListeners unsubscribes_itself 4 some_metric three_listeners
      = Some (listeners', called) /\
    called = [1; 2; 3]%nat /\ NoDup called.
Proof.
  destruct (publish_dispatches_to_still_subscribed_listeners
              unsubscribes_itself some_metric three_listeners)
    as (listeners' & called & Hres & Hcalled & _ & Hnd & _).
  - vm_compute. repeat constructor; simpl; intuition discriminate.
  - intros [|[|l]]; reflexivity.
  - exists listeners', called. split; [exact Hres|]. split; [|exact Hnd].
    rewrite Hcalled. reflexivity.
Defined.

(** ** The benchmark orchestrator: the run as a function of the environment *)

Lemma on_metric_running st m :
  running st ->
  on_metric st m = set_benchmarkMetricsRef (benchmarkMetricsRef st ++ [m]) st.
Proof.
  intros (H1 & H2 & _). unfold on_metric. now rewrite H2, H1.
Qed.

Lemma deliver_running ms : forall st,
  running st ->
  fold_left on_metric ms st
  = set_benchmarkMetricsRef (benchmarkMetricsRef st ++ ms) st.
Proof.
  induction ms as [|m ms IH]; intros st Hr; simpl.
  - rewrite app_nil_r. now destruct st.
  - rewrite on_metric_running by assumption.
    rewrite IH by (destruct Hr as (? & ? & ?); now repeat split).
    destruct st; simpl. unfold set_benchmarkMetricsRef; simpl.
    now rewrite <- app_assoc.
Qed.

Lemma catch_all_settles ps : forall st,
  running st ->
  exists st',
    catch_all ps st = (Some (map (fun _ : Outcome => Resolved) ps), st') /\
    running st' /\ benchmarkMetricsRef st' = benchmarkMetricsRef st.
Proof.
  induction ps as [|p ps IH]; intros st Hr; simpl.
  - exists st. auto.
  - destruct p; unfold bind; simpl.
    + destruct (IH st Hr) as (st' & -> & Hr' & Hacc). exists st'. auto.
    + destruct (IH (console_log "Query failed" st)) as (st' & -> & Hr' & Hacc).
      { destruct Hr as (? & ? & ?). now repeat split. }
      exists st'. auto.
Qed.

Lemma Promise_all_settled ps : Promise_all (map (fun _ : Outcome => Resolved) ps) = Resolved.
Proof.
  unfold Promise_all.
  replace (existsb _ (map (fun _ : Outcome => Resolved) ps)) with false; [reflexivity|].
  induction ps; simpl; auto.
Qed.

(** A step's action: a rejected navigation throws, rejected queries do not;
    either way the metrics published meanwhile are in the accumulator. *)
Lemma run_action_spec e a st :
  running st ->
  exists st',
    run_action e a st
    = ((if action_settles e a then Some tt else None), st') /\
    running st' /\
    benchmarkMetricsRef st' = benchmarkMetricsRef st ++ arrived_in_action e.
Proof.
  intros Hr. destruct a as [zoom center|]; simpl; unfold bind, deliver, modify.
  - rewrite deliver_running by assumption.
    eexists. split; [destruct (goTo_outcome e); reflexivity|].
    destruct Hr as (? & ? & ?). now repeat split.
  - destruct (catch_all_settles (query_outcomes e) st Hr) as (st1 & -> & Hr1 & Hacc).
    rewrite deliver_running by assumption. rewrite Promise_all_settled. simpl.
    eexists. split; [reflexivity|].
    destruct Hr1 as (? & ? & ?). rewrite Hacc. now repeat split.
Qed.

Lemma wait_after_spec e ty st :
  running st ->
  exists st',
    wait_after e ty st = (Some tt, st') /\ running st' /\
    benchmarkMetricsRef st' = benchmarkMetricsRef st ++ arrived_in_wait e.
Proof.
  intros Hr. destruct ty; simpl; unfold bind, deliver, modify, ret;
    rewrite deliver_running by assumption;
    (eexists; split; [reflexivity|]);
    destruct Hr as (? & ? & ?); now repeat split.
Qed.

Section OrchestratorFacts.
Variable URL_hostname : string -> option string.

Lemma run_step_spec mls e step results st :
  running st ->
  exists st',
    run_step URL_hostname mls e step results st
    = (option_map (fun r => results ++ [r]) (step_result URL_hostname mls e step), st')
    /\ running st'.
Proof.
  intros Hr. unfold run_step, step_result.
  unfold bind at 1. unfold modify at 1.
  unfold bind at 1. unfold modify at 1.
  set (st1 := set_benchmarkMetricsRef []
                (setBenchmarkProgress ("Executing: " ++ Step.name step)%string st)).
  assert (Hr1 : running st1) by (destruct Hr as (? & ? & ?); now repeat split).
  destruct (run_action_spec e (Step.action step) st1 Hr1) as (st2 & Ha & Hr2 & Hacc2).
  unfold bind at 1. rewrite Ha.
  destruct (action_settles e (Step.action step)); [|exists st2; auto].
  destruct (wait_after_spec e (Step.type step) st2 Hr2) as (st3 & Hw & Hr3 & Hacc3).
  unfold bind at 1. rewrite Hw.
  unfold bind at 1. unfold gets at 1.
  rewrite Hacc3, Hacc2. simpl benchmarkMetricsRef at 1. rewrite app_nil_l.
  unfold bind at 1.
  destruct (calculateMetrics_on URL_hostname mls
              (arrived_in_action e ++ arrived_in_wait e)) as [sm|]; simpl.
  - unfold bind, deliver, modify, ret. rewrite deliver_running by assumption.
    eexists. split; [reflexivity|].
    destruct Hr3 as (? & ? & ?). now repeat split.
  - exists st3. auto.
Qed.

Lemma run_steps_spec mls env steps : forall k results st,
  running st ->
  exists st',
    run_steps URL_hostname mls env steps k results st
    = (option_map (fun rs => results ++ rs)
                  (steps_results URL_hostname mls env steps k), st')
    /\ running st'.
Proof.
  induction steps as [|step steps IH]; intros k results st Hr; simpl.
  - exists st. now rewrite app_nil_r.
  - destruct (run_step_spec mls (step_env env k) step results st Hr)
      as (st1 & Hs & Hr1).
    unfold bind. rewrite Hs.
    destruct (step_result URL_hostname mls (step_env env k) step) as [r|]; simpl;
      [|exists st1; auto].
    destruct (IH (S k) (results ++ [r]) st1 Hr1) as (st2 & -> & Hr2).
    exists st2. split; [|assumption].
    destruct (steps_results URL_hostname mls env steps (S k)); simpl;
      [|reflexivity].
    now rewrite <- app_assoc.
Qed.

(** The [try] block either stores the report computed by
    [benchmark_outcome] or throws and leaves no report. *)
Lemma benchmark_try_spec mls env st :
  running st ->
  exists st',
    benchmark_try URL_hostname mls env st
    = (option_map (fun _ => tt) (benchmark_outcome URL_hostname mls env), st')
    /\ benchmarkReport st' = benchmark_outcome URL_hostname mls env.
Proof.
  intros Hr. unfold benchmark_try, benchmark_outcome.
  generalize allSteps. intros steps.
  unfold bind at 1. unfold modify at 1.
  unfold bind at 1. unfold deliver at 1. unfold modify at 1.
  set (st1 := fold_left on_metric (setup_arrived env)
                (setBenchmarkProgress "Initializing..." st)).
  assert (Hr1 : running st1).
  { unfold st1. rewrite deliver_running
      by (destruct Hr as (? & ? & ?); now repeat split).
    destruct Hr as (? & ? & ?). now repeat split. }
  unfold bind at 1.
  destruct (setup_goTo env); cbn [await];
    [|exists st1; split; [reflexivity|apply Hr1]].
  unfold ret at 1. unfold bind at 1. unfold ret at 1.
  destruct (run_steps_spec mls env steps 0 [] st1 Hr1) as (st2 & Hs & Hr2).
  unfold bind at 1. rewrite Hs.
  destruct (steps_results URL_hostname mls env steps 0) as [results|];
    cbn [option_map app];
    [|exists st2; split; [reflexivity|apply Hr2]].
  unfold bind at 1.
  destruct (make_report env mls results) as [report|]; cbn [lift_option option_map].
  - eexists. split; reflexivity.
  - exists st2. split; [reflexivity|apply Hr2].
Qed.

Lemma prepare_running st : running (prepare st).
Proof. now repeat split. Qed.

Lemma conclude_report originalRecording r :
  benchmarkReport (conclude originalRecording r) = benchmarkReport (snd r).
Proof.
  unfold conclude. destruct originalRecording, (fst r); reflexivity.
Qed.

(** The stored report after a run that had a view is [benchmark_outcome];
    the run failed exactly when that is [None]. *)
Lemma runBenchmark_report layers env st :
  view_available env = true ->
  benchmarkReport (runBenchmark URL_hostname layers env st)
  = benchmark_outcome URL_hostname (metricLayers layers) env /\
  run_failed URL_hostname layers env st
  = match benchmark_outcome URL_hostname (metricLayers layers) env with
    | Some _ => false
    | None => true
    end.
Proof.
  intros Hv. unfold runBenchmark, run_failed. rewrite Hv. simpl.
  destruct (benchmark_try_spec (metricLayers layers) env (prepare st)
              (prepare_running st)) as (st' & Ht & Hrep).
  rewrite conclude_report, Ht. simpl. split; [exact Hrep|].
  now destruct (benchmark_outcome URL_hostname (metricLayers layers) env).
Qed.
End OrchestratorFacts.

(** ** The benchmark orchestrator: structure of the results *)

Section StepsFacts.
Variable URL_hostname : string -> option string.
Variable mls : list ML.t.
Variable env : RunEnv.

Lemma step_result_Some e step x :
  step_result URL_hostname mls e step = Some x <->
  action_settles e (Step.action step) = true /\
  exists sm,
    calculateMetrics_on URL_hostname mls
      (arrived_in_action e ++ arrived_in_wait e) = Some sm /\
    x = BSR.mk (Step.name step) (Step.type step) (resultLayerMetrics mls sm).
Proof.
  unfold step_result. destruct (action_settles e (Step.action step)).
  - destruct (calculateMetrics_on URL_hostname mls _) as [sm|]; simpl.
    + split.
      * intros [= <-]. eauto.
      * intros (_ & sm' & [= <-] & ->). reflexivity.
    + split; [discriminate|]. intros (_ & sm' & H & _). discriminate.
  - split; [discriminate|]. intros (H & _). discriminate.
Qed.

(** Every step of the list has its entry, at the same position. *)
Lemma steps_results_nth steps : forall k results,
  steps_results URL_hostname mls env steps k = Some results ->
  List.length results = List.length steps /\
  forall j step,
    nth_error steps j = Some step ->
    exists x, nth_error results j = Some x /\
              step_result URL_hostname mls (step_env env (k + j)) step = Some x.
Proof.
  induction steps as [|s steps IH]; intros k results H; simpl in H.
  - injection H as <-. split; [reflexivity|]. intros [|j] step Hj; discriminate.
  - destruct (step_result URL_hostname mls (step_env env k) s) as [r|] eqn:Er;
      [|discriminate].
    destruct (steps_results URL_hostname mls env steps (S k)) as [rs|] eqn:Ers;
      [|discriminate].
    injection H as <-. destruct (IH _ _ Ers) as [Hlen Hnth].
    split; [simpl; now rewrite Hlen|].
    intros [|j] step Hj; simpl in Hj.
    + injection Hj as <-. exists r. rewrite Nat.add_0_r. auto.
    + destruct (Hnth j step Hj) as (x & Hx & Hsx). exists x.
      rewrite Nat.add_succ_r. auto.
Qed.

Lemma steps_results_total steps : forall k,
  (forall j step, nth_error steps j = Some step ->
     step_result URL_hostname mls (step_env env (k + j)) step <> None) ->
  exists results, steps_results URL_hostname mls env steps k = Some results.
Proof.
  induction steps as [|s steps IH]; intros k H; simpl.
  - eauto.
  - pose proof (H 0%nat s eq_refl) as H0. rewrite Nat.add_0_r in H0.
    destruct (step_result URL_hostname mls (step_env env k) s) as [r|];
      [|congruence].
    destruct (IH (S k)) as [rs ->]; [|simpl; eauto].
    intros j step Hj. specialize (H (S j) step Hj).
    now rewrite Nat.add_succ_r in H.
Qed.

Lemma steps_results_fail steps : forall k j step,
  nth_error steps j = Some step ->
  step_result URL_hostname mls (step_env env (k + j)) step = None ->
  steps_results URL_hostname mls env steps k = None.
Proof.
  induction steps as [|s steps IH]; intros k [|j] step Hj Hs; simpl in *;
    try discriminate.
  - injection Hj as ->. rewrite Nat.add_0_r in Hs. now rewrite Hs.
  - destruct (step_result URL_hostname mls (step_env env k) s); [|reflexivity].
    rewrite (IH (S k) j step Hj); [reflexivity|].
    now rewrite Nat.add_succ_r in Hs.
Qed.

Lemma steps_results_shape steps k results :
  steps_results URL_hostname mls env steps k = Some results ->
  map BSR.stepName results = map Step.name steps /\
  map BSR.type results = map Step.type steps.
Proof.
  revert k results.
  induction steps as [|s steps IH]; intros k results H; simpl in H.
  - injection H as <-. auto.
  - destruct (step_result URL_hostname mls (step_env env k) s) as [r|] eqn:Er;
      [|discriminate].
    destruct (steps_results URL_hostname mls env steps (S k)) as [rs|] eqn:Ers;
      [|discriminate].
    injection H as <-. destruct (IH _ _ Ers) as [Hn Ht].
    apply step_result_Some in Er as (_ & sm & _ & ->).
    simpl. now rewrite Hn, Ht.
Qed.
End StepsFacts.

Lemma make_report_steps env mls results r :
  make_report env mls results = Some r -> BRD.steps r = results.
Proof.
  unfold make_report.
  destruct (build_summary results mls []) as [summary|]; [|discriminate].
  destruct (rank summary mls) as [[f s]|]; [|discriminate].
  now intros [= <-].
Qed.

Lemma benchmark_outcome_steps URL_hostname mls env r :
  benchmark_outcome URL_hostname mls env = Some r ->
  setup_goTo env = Resolved /\
  steps_results URL_hostname mls env allSteps 0 = Some (BRD.steps r).
Proof.
  unfold benchmark_outcome. destruct (setup_goTo env); [|discriminate].
  destruct (steps_results URL_hostname mls env allSteps 0) as [results|];
    [|discriminate].
  intros H. now rewrite (make_report_steps _ _ _ _ H).
Qed.

(** C4. Every run that completes stores a report with exactly 15 step
    results: first the 10 navigation steps, one per town of the fixed list,
    with zoom levels 10..16 and then 10..12 again (10 + i mod 7), then the 5
    query steps; whatever the timing, the metrics and the query outcomes. *)
Theorem completed_benchmark_has_fixed_step_sequence :
  forall URL_hostname layers env st r,
    view_available env = true ->
    benchmarkReport (runBenchmark URL_hostname layers env st) = Some r ->
    List.length (BRD.steps r) = 15%nat /\
    map BSR.type (BRD.steps r) = repeat nav 10 ++ repeat query 5 /\
    map BSR.stepName (BRD.steps r) =
      [ "Nav 1: Montpelier (Z10)"; "Nav 2: Burlington (Z11)";
        "Nav 3: Rutland (Z12)"; "Nav 4: St. Albans (Z13)";
        "Nav 5: Brattleboro (Z14)"; "Nav 6: Middlebury (Z15)";
        "Nav 7: Newport (Z16)"; "Nav 8: Bennington (Z10)";
        "Nav 9: St. Johnsbury (Z11)"; "Nav 10: Stowe (Z12)";
        "Query 1: Features"; "Query 2: Features"; "Query 3: Features";
        "Query 4: Features"; "Query 5: Features" ] /\
    (forall i, (i < 10)%nat ->
       exists town,
         nth_error TOWNS i = Some town /\
         nth_error allSteps i =
           Some (Step.mk ("Nav " ++ show_nat (i + 1) ++ ": " ++ Town.name town
                            ++ " (Z" ++ show_nat (10 + i mod 7) ++ ")")%string
                         nav
                         (GoTo (10 + Z.of_nat (i mod 7)) (Town.center town)))).
Proof.
  intros URL_hostname layers env st r Hv Hr.
  destruct (runBenchmark_report URL_hostname layers env st Hv) as [Hrep _].
  rewrite Hrep in Hr.
  apply benchmark_outcome_steps in Hr as [_ Hs].
  destruct (steps_results_nth _ _ _ _ _ _ Hs) as [Hlen _].
  destruct (steps_results_shape _ _ _ _ _ _ Hs) as [Hn Ht].
  split; [rewrite Hlen; reflexivity|].
  split; [rewrite Ht; reflexivity|].
  split; [rewrite Hn; reflexivity|].
  intros i Hi.
  do 10 (destruct i as [|i]; [eexists; split; reflexivity|]). lia.
Qed.

(** A run in which nothing is rejected and no request is seen completes. *)
Lemma completed_benchmark_witness :
  exists r,
    benchmarkReport (runBenchmark example_hostname [layerX] quiet_run idle_app) = Some r /\
    List.length (BRD.steps r) = 15%nat /\
    map BSR.type (BRD.steps r) = repeat nav 10 ++ repeat query 5.
Proof.
  eexists. split; [vm_compute; reflexivity|].
  refine ((fun H => conj (proj1 H) (proj1 (proj2 H)))
            (completed_benchmark_has_fixed_step_sequence
               example_hostname [layerX] quiet_run idle_app _ _ _)).
  - reflexivity.
  - vm_compute. reflexivity.
Defined.

(** ** The benchmark orchestrator: failed runs *)

Lemma conclude_flags originalRecording r :
  isRunningBenchmark (conclude originalRecording r) = false /\
  benchmarkProgress (conclude originalRecording r) = ""%string.
Proof.
  unfold conclude. destruct originalRecording, (fst r); split; reflexivity.
Qed.

Lemma conclude_failed_logs originalRecording st :
  In "Benchmark Failed"%string (console (conclude originalRecording (None, st))).
Proof.
  unfold conclude. destruct originalRecording; simpl; apply in_or_app; right; now left.
Qed.

(** A run without a map view returns at once and leaves the state as it
    was.  A run that has a view stores [null] as report when it starts; if
    it then fails, there is no report afterwards, the failure is logged,
    and the running flag and the progress text are cleared. *)
Lemma failed_run_stores_no_report :
  forall URL_hostname layers env st,
    (view_available env = false ->
     runBenchmark URL_hostname layers env st = st) /\
    (run_failed URL_hostname layers env st = true ->
     let st' := runBenchmark URL_hostname layers env st in
     benchmarkReport st' = None /\
     isRunningBenchmark st' = false /\
     benchmarkProgress st' = ""%string /\
     In "Benchmark Failed"%string (console st')).
Proof.
  intros URL_hostname layers env st. split.
  - intros Hv. unfold runBenchmark. now rewrite Hv.
  - intros Hf. assert (Hv : view_available env = true).
    { unfold run_failed in Hf. now apply andb_prop in Hf as [Hv _]. }
    destruct (runBenchmark_report URL_hostname layers env st Hv) as [Hrep Hfail].
    rewrite Hf in Hfail. cbv zeta. split; [|split; [|split]].
    + rewrite Hrep.
      now destruct (benchmark_outcome URL_hostname (metricLayers layers) env).
    + unfold runBenchmark. rewrite Hv. apply conclude_flags.
    + unfold runBenchmark. rewrite Hv. apply conclude_flags.
    + unfold runBenchmark, run_failed in *. rewrite Hv in *. simpl in Hf |- *.
      destruct (benchmark_try URL_hostname (metricLayers layers) env (prepare st))
        as [[u|] st1]; [discriminate|].
      apply conclude_failed_logs.
Qed.

(** C7. A benchmark run is started by the "Run Benchmark" button, which is
    there only while no report is stored and no run is in progress.  If
    such a run fails (an exception reaches the handler of the run), the
    stored report is after the run what it was before it: no new report is
    produced, and there was none to lose.  The failure is logged and the
    running flag and the progress text are cleared.  A run without a map
    view returns at once and leaves the whole state as it was. *)
Theorem failed_benchmark_leaves_stored_report_unchanged :
  forall URL_hostname layers env st,
    run_button_rendered st = true ->
    (view_available env = false ->
     runBenchmark URL_hostname layers env st = st) /\
    (run_failed URL_hostname layers env st = true ->
     let st' := runBenchmark URL_hostname layers env st in
     benchmarkReport st' = benchmarkReport st /\
     benchmarkReport st' = None /\
     isRunningBenchmark st' = false /\
     benchmarkProgress st' = ""%string /\
     In "Benchmark Failed"%string (console st')).
Proof.
  intros URL_hostname layers env st Hbutton.
  destruct (failed_run_stores_no_report URL_hostname layers env st) as [Hnoview Hfail].
  split; [exact Hnoview|]. intros Hf. cbv zeta.
  destruct (Hfail Hf) as (Hrep & Hrun & Hprog & Hlog).
  split; [|repeat split; assumption].
  rewrite Hrep. unfold run_button_rendered in Hbutton.
  destruct (benchmarkReport st); [discriminate|reflexivity].
Qed.

Lemma failed_benchmark_witness :
  run_button_rendered idle_app = true /\
  run_failed example_hostname [layerX] nav3_rejected_run idle_app = true /\
  benchmarkReport
    (runBenchmark example_hostname [layerX] nav3_rejected_run idle_app)
  = benchmarkReport idle_app.
Proof.
  split; [reflexivity|]. split; [reflexivity|].
  exact (proj1 (proj2 (failed_benchmark_leaves_stored_report_unchanged
                         example_hostname [layerX] nav3_rejected_run idle_app
                         eq_refl) eq_refl)).
Defined.

(** ** The benchmark orchestrator: report synthesis never throws *)

Lemma layer_step_metric_by_id sm l l' :
  ML.id l = ML.id l' -> layer_step_metric sm l = layer_step_metric sm l'.
Proof. unfold layer_step_metric. now intros ->. Qed.

Lemma fold_dict_set_other {V} (g : ML.t -> V) k ls : forall d,
  ~ In k (map ML.id ls) ->
  dict_get k (fold_left (fun d l => dict_set (ML.id l) (g l) d) ls d) = dict_get k d.
Proof.
  induction ls as [|a ls IH]; intros d Hn; simpl; [reflexivity|].
  rewrite IH by (simpl in Hn; tauto). rewrite dict_get_set.
  destruct (String.eqb (ML.id a) k) eqn:E; [|reflexivity].
  apply String.eqb_eq in E. simpl in Hn. tauto.
Qed.

Lemma fold_dict_set_get {V} (g : ML.t -> V) ls :
  (forall l l', ML.id l = ML.id l' -> g l = g l') ->
  forall d l, In l ls ->
    dict_get (ML.id l) (fold_left (fun d l => dict_set (ML.id l) (g l) d) ls d)
    = Some (g l).
Proof.
  intros Hg. induction ls as [|a ls IH]; intros d l Hin; simpl; [contradiction|].
  destruct (in_dec string_dec (ML.id l) (map ML.id ls)) as [Hi|Hn].
  - apply in_map_iff in Hi as (l' & Hid & Hl').
    rewrite <- Hid, (IH _ l' Hl'). f_equal. now apply Hg.
  - destruct Hin as [->|Hin]; [|exfalso; apply Hn; now apply in_map].
    rewrite fold_dict_set_other by assumption.
    rewrite dict_get_set, String.eqb_refl. reflexivity.
Qed.

Lemma resultLayerMetrics_get mls sm l :
  In l mls ->
  dict_get (ML.id l) (resultLayerMetrics mls sm) = Some (layer_step_metric sm l).
Proof.
  intros Hin. unfold resultLayerMetrics.
  apply (fold_dict_set_get (layer_step_metric sm)); [|assumption].
  apply layer_step_metric_by_id.
Qed.

Lemma all_defined_map_total {A B} (f : A -> option B) (xs : list A) :
  (forall x, In x xs -> f x <> None) ->
  exists ys, all_defined (map f xs) = Some ys /\ List.length ys = List.length xs.
Proof.
  induction xs as [|x xs IH]; intros H; simpl.
  - exists []. auto.
  - destruct (f x) as [y|] eqn:E; [|exfalso; apply (H x); [now left|assumption]].
    destruct IH as (ys & -> & Hlen); [intros x' Hx'; apply H; now right|].
    exists (y :: ys). simpl. now rewrite Hlen.
Qed.


Lemma layer_ranking_by_id results l l' :
  ML.id l = ML.id l' -> layer_ranking results l = layer_ranking results l'.
Proof. unfold layer_ranking. now intros ->. Qed.

Lemma layer_ranking_total results mls l :
  (forall x, In x results -> forall l', In l' mls ->
     dict_get (ML.id l') (BSR.layerMetrics x) <> None) ->
  In l mls -> layer_ranking results l <> None.
Proof.
  intros H Hl. unfold layer_ranking, layer_steps.
  destruct (all_defined_map_total
              (fun r => dict_get (ML.id l) (BSR.layerMetrics r))
              (filter (fun r => StepType_eqb (BSR.type r) nav) results))
    as (navs & -> & _).
  { intros x Hx. apply filter_In in Hx as [Hx _]. now apply H. }
  destruct (all_defined_map_total
              (fun r => dict_get (ML.id l) (BSR.layerMetrics r))
              (filter (fun r => StepType_eqb (BSR.type r) query) results))
    as (queries & -> & _).
  { intros x Hx. apply filter_In in Hx as [Hx _]. now apply H. }
  discriminate.
Qed.

Lemma build_summary_other results mls : forall d d' k,
  build_summary results mls d = Some d' ->
  ~ In k (map ML.id mls) -> dict_get k d' = dict_get k d.
Proof.
  induction mls as [|a mls IH]; intros d d' k H Hn; simpl in H.
  - now injection H as <-.
  - destruct (layer_ranking results a) as [e|]; [|discriminate].
    rewrite (IH _ _ k H) by (simpl in Hn; tauto). rewrite dict_get_set.
    destruct (String.eqb (ML.id a) k) eqn:E; [|reflexivity].
    apply String.eqb_eq in E. simpl in Hn. tauto.
Qed.

(** The summary holds, for every metric layer, the ranking entry computed
    from the step results. *)
Lemma build_summary_get results mls : forall d d' l,
  build_summary results mls d = Some d' ->
  In l mls -> dict_get (ML.id l) d' = layer_ranking results l.
Proof.
  induction mls as [|a mls IH]; intros d d' l H Hin; simpl in H; [contradiction|].
  destruct (layer_ranking results a) as [e|] eqn:Ea; [|discriminate].
  destruct (in_dec string_dec (ML.id l) (map ML.id mls)) as [Hi|Hn].
  - apply in_map_iff in Hi as (l' & Hid & Hl').
    rewrite <- Hid, (IH _ _ l' H Hl'). now apply layer_ranking_by_id.
  - destruct Hin as [->|Hin]; [|exfalso; apply Hn; now apply in_map].
    rewrite (build_summary_other _ _ _ _ _ H Hn), dict_get_set, String.eqb_refl.
    now rewrite Ea.
Qed.

Lemma build_summary_total results mls : forall d,
  (forall l, In l mls -> layer_ranking results l <> None) ->
  exists d', build_summary results mls d = Some d'.
Proof.
  induction mls as [|a mls IH]; intros d H; simpl; [eauto|].
  destruct (layer_ranking results a) as [e|] eqn:Ea.
  - apply IH. intros l Hl. apply H. now right.
  - exfalso. apply (H a); [now left|assumption].
Qed.

(** ** JavaScript numbers: the order

    What the ranking needs of [<] on binary64 numbers, read off the
    specification of the comparison: it is transitive and irreflexive, it
    holds between numbers only (never with [NaN]), and a positive number is
    truthy. *)

Module JSNumberFacts.
Import JSNumber.

Lemma fin_cmp_refl e m : fin_cmp e m e m = Eq.
Proof. unfold fin_cmp. now rewrite Z.compare_refl, Pos.compare_refl. Qed.

Lemma fin_cmp_Lt_trans e1 m1 e2 m2 e3 m3 :
  fin_cmp e1 m1 e2 m2 = Lt -> fin_cmp e2 m2 e3 m3 = Lt -> fin_cmp e1 m1 e3 m3 = Lt.
Proof.
  unfold fin_cmp.
  destruct (Z.compare_spec e1 e2), (Z.compare_spec e2 e3), (Z.compare_spec e1 e3);
    intros H12 H23; try discriminate; try lia; try reflexivity.
  rewrite Pos.compare_lt_iff in *. lia.
Qed.

Lemma fin_cmp_Gt_trans e1 m1 e2 m2 e3 m3 :
  fin_cmp e1 m1 e2 m2 = Gt -> fin_cmp e2 m2 e3 m3 = Gt -> fin_cmp e1 m1 e3 m3 = Gt.
Proof.
  unfold fin_cmp.
  destruct (Z.compare_spec e1 e2), (Z.compare_spec e2 e3), (Z.compare_spec e1 e3);
    intros H12 H23; try discriminate; try lia; try reflexivity.
  rewrite Pos.compare_gt_iff in *. lia.
Qed.

Lemma SFcompare_finite s1 m1 e1 s2 m2 e2 :
  SFcompare (S754_finite s1 m1 e1) (S754_finite s2 m2 e2)
  = Some (if s1 then if s2 then CompOpp (fin_cmp e1 m1 e2 m2) else Lt
          else if s2 then Gt else fin_cmp e1 m1 e2 m2).
Proof.
  unfold fin_cmp. simpl. change (PosDef.Pos.compare_cont Eq m1 m2) with (Pos.compare m1 m2).
  destruct s1, s2; try reflexivity; destruct (e1 ?= e2); reflexivity.
Qed.

Lemma CompOpp_Lt c : CompOpp c = Lt <-> c = Gt.
Proof. destruct c; simpl; split; congruence. Qed.

Lemma SFlt_trans a b c :
  SFcompare a b = Some Lt -> SFcompare b c = Some Lt -> SFcompare a c = Some Lt.
Proof.
  destruct a as [sa|sa| |sa ma ea], b as [sb|sb| |sb mb eb], c as [sc|sc| |sc mc ec];
    rewrite ?SFcompare_finite;
    try (simpl; destruct sa; discriminate);
    try (simpl; destruct sb; discriminate);
    try (simpl; destruct sc; discriminate);
    try (simpl; destruct sa, sb; discriminate);
    try (simpl; destruct sb, sc; discriminate);
    try (simpl; destruct sa, sc; discriminate);
    try (simpl; destruct sa, sb, sc; (discriminate || reflexivity));
    try discriminate.
  all: try (destruct sa, sb; simpl; try discriminate; destruct sc; simpl;
            (discriminate || reflexivity || idtac)).
  all: intros H12 H23; injection H12 as H12; injection H23 as H23; f_equal.
  all: try (apply CompOpp_Lt in H12, H23; apply CompOpp_Lt;
            eapply fin_cmp_Gt_trans; eassumption).
  all: try (eapply fin_cmp_Lt_trans; eassumption).
Qed.

Lemma SFcompare_self a : a <> S754_nan -> SFcompare a a = Some Eq.
Proof.
  destruct a as [s|s| |s m e]; intros H; try congruence.
  - reflexivity.
  - now destruct s.
  - rewrite SFcompare_finite, fin_cmp_refl. now destruct s.
Qed.

Lemma SFcompare_number a b c : SFcompare a b = Some c -> a <> S754_nan /\ b <> S754_nan.
Proof. destruct a, b; simpl; intros H; split; congruence. Qed.

Lemma SFlt_irrefl a : SFcompare a a <> Some Lt.
Proof.
  destruct a as [s|s| |s m e]; simpl; try discriminate.
  - destruct s; discriminate.
  - change (PosDef.Pos.compare_cont Eq m m) with (Pos.compare m m).
    rewrite Z.compare_refl, Pos.compare_refl. destruct s; discriminate.
Qed.




Lemma is_NaN_spec x : is_NaN x = false <-> Prim2SF x <> S754_nan.
Proof.
  unfold is_NaN. rewrite FloatAxioms.eqb_spec. unfold SFeqb. split.
  - intros H Hn. rewrite Hn in H. discriminate.
  - intros H. now rewrite (SFcompare_self _ H).
Qed.

Lemma ltb_trans a b c :
  PrimFloat.ltb a b = true -> PrimFloat.ltb b c = true -> PrimFloat.ltb a c = true.
Proof.
  rewrite !FloatAxioms.ltb_spec. unfold SFltb.
  destruct (SFcompare (Prim2SF a) (Prim2SF b)) as [[]|] eqn:E1; try discriminate.
  destruct (SFcompare (Prim2SF b) (Prim2SF c)) as [[]|] eqn:E2; try discriminate.
  now rewrite (SFlt_trans _ _ _ E1 E2).
Qed.

Lemma ltb_irrefl a : PrimFloat.ltb a a = false.
Proof.
  rewrite FloatAxioms.ltb_spec. unfold SFltb.
  destruct (SFcompare (Prim2SF a) (Prim2SF a)) as [[]|] eqn:E; try reflexivity.
  now apply SFlt_irrefl in E.
Qed.

Lemma ltb_numbers a b :
  PrimFloat.ltb a b = true -> is_NaN a = false /\ is_NaN b = false.
Proof.
  rewrite FloatAxioms.ltb_spec. unfold SFltb.
  destruct (SFcompare (Prim2SF a) (Prim2SF b)) as [c|] eqn:E; [|discriminate].
  intros _. apply SFcompare_number in E. now rewrite !is_NaN_spec.
Qed.



End JSNumberFacts.

Lemma Qltb_true a b : Qltb a b = true -> (a < b)%Q.
Proof.
  unfold Qltb. intros H. apply negb_true_iff in H.
  apply Qnot_le_lt. intros Hle. apply Qle_bool_iff in Hle. congruence.
Qed.

Lemma Qltb_false a b : Qltb a b = false -> (b <= a)%Q.
Proof.
  unfold Qltb. intros H. apply negb_false_iff in H. now apply Qle_bool_iff.
Qed.

(** The ranking loop: no score it has seen is below that of the first id
    it keeps, none is above that of the second. *)
Lemma rank_fold_spec summary ls : forall f0 s0,
  (forall l, In l ls -> score_of summary (ML.id l) <> None) ->
  score_of summary f0 <> None -> score_of summary s0 <> None ->
  exists f s,
    fold_left (rank_step summary) ls (Some (f0, s0)) = Some (f, s) /\
    (f = f0 \/ In f (map ML.id ls)) /\ (s = s0 \/ In s (map ML.id ls)) /\
    score_of summary f <> None /\ score_of summary s <> None /\
    (forall x, (x <? score_at summary f)%float = true ->
               (x <? score_at summary f0)%float = true) /\
    (forall x, (score_at summary s <? x)%float = true ->
               (score_at summary s0 <? x)%float = true) /\
    (ranked summary f0 s0 -> ranked summary f s) /\
    forall l, In l ls ->
      (score_at summary (ML.id l) <? score_at summary f)%float = false /\
      (score_at summary s <? score_at summary (ML.id l))%float = false.
Proof.
  induction ls as [|a ls IH]; intros f0 s0 Hls Hf0 Hs0; simpl.
  - exists f0, s0. split; [reflexivity|]. split; [now left|]. split; [now left|].
    split; [assumption|]. split; [assumption|].
    split; [auto|]. split; [auto|]. split; [auto|]. intros l [].
  - assert (Ha : score_of summary (ML.id a) <> None) by (apply Hls; now left).
    destruct (score_of summary (ML.id a)) as [sl|] eqn:Esl; [|congruence].
    destruct (score_of summary f0) as [sf|] eqn:Esf; [|congruence].
    destruct (score_of summary s0) as [ss|] eqn:Ess; [|congruence].
    set (f1 := if (sl <? sf)%float then ML.id a else f0).
    set (s1 := if (ss <? sl)%float then ML.id a else s0).
    assert (Hf1 : score_of summary f1 <> None)
      by (unfold f1; destruct (sl <? sf)%float; congruence).
    assert (Hs1 : score_of summary s1 <> None)
      by (unfold s1; destruct (ss <? sl)%float; congruence).
    destruct (IH f1 s1)
      as (f & s & Hfold & Hfin & Hsin & Hf & Hs & Hlo & Hhi & Hrk & Hall);
      [intros l Hl; apply Hls; now right|assumption|assumption|].
    assert (Hsf0 : score_at summary f0 = sf) by (unfold score_at; now rewrite Esf).
    assert (Hss0 : score_at summary s0 = ss) by (unfold score_at; now rewrite Ess).
    assert (Hsa : score_at summary (ML.id a) = sl) by (unfold score_at; now rewrite Esl).
    assert (Hf1v : score_at summary f1 = if (sl <? sf)%float then sl else sf)
      by (unfold f1; destruct (sl <? sf)%float; assumption).
    assert (Hs1v : score_at summary s1 = if (ss <? sl)%float then sl else ss)
      by (unfold s1; destruct (ss <? sl)%float; assumption).
    exists f, s. split; [exact Hfold|].
    split.
    { destruct Hfin as [->|Hfin]; [|right; now right].
      unfold f1. destruct (sl <? sf)%float; [right; now left|now left]. }
    split.
    { destruct Hsin as [->|Hsin]; [|right; now right].
      unfold s1. destruct (ss <? sl)%float; [right; now left|now left]. }
    split; [assumption|]. split; [assumption|].
    rewrite Hsf0, Hss0.
    assert (Hlo1 : forall x, (x <? score_at summary f1)%float = true ->
                             (x <? sf)%float = true).
    { intros x Hx. rewrite Hf1v in Hx. destruct (sl <? sf)%float eqn:E; [|exact Hx].
      eapply JSNumberFacts.ltb_trans; eassumption. }
    assert (Hhi1 : forall x, (score_at summary s1 <? x)%float = true ->
                             (ss <? x)%float = true).
    { intros x Hx. rewrite Hs1v in Hx. destruct (ss <? sl)%float eqn:E; [|exact Hx].
      eapply JSNumberFacts.ltb_trans; eassumption. }
    split; [intros x Hx; apply Hlo1; now apply Hlo|].
    split; [intros x Hx; apply Hhi1; now apply Hhi|].
    split.
    { intros [Hnan Hord]. apply Hrk. unfold ranked.
      rewrite Hsf0, Hss0 in Hnan, Hord. rewrite Hf1v, Hs1v.
      destruct (sl <? sf)%float eqn:E1, (ss <? sl)%float eqn:E2.
      - split; [reflexivity|apply JSNumberFacts.ltb_irrefl].
      - split; [|exact E2].
        destruct (JSNumberFacts.ltb_numbers _ _ E1) as [Hl Hf'].
        congruence.
      - split; [|exact E1].
        destruct (JSNumberFacts.ltb_numbers _ _ E2) as [Hs' Hl].
        congruence.
      - now split. }
    intros l [<-|Hl]; [|now apply Hall].
    rewrite Hsa. split.
    + destruct (sl <? score_at summary f)%float eqn:E; [|reflexivity].
      apply Hlo in E. rewrite Hf1v in E.
      destruct (sl <? sf)%float eqn:E1; [|congruence].
      now rewrite JSNumberFacts.ltb_irrefl in E.
    + destruct (score_at summary s <? sl)%float eqn:E; [|reflexivity].
      apply Hhi in E. rewrite Hs1v in E.
      destruct (ss <? sl)%float eqn:E1; [|congruence].
      now rewrite JSNumberFacts.ltb_irrefl in E.
Qed.

Lemma make_report_total env mls results :
  (forall x, In x results -> forall l, In l mls ->
     dict_get (ML.id l) (BSR.layerMetrics x) <> None) ->
  exists r, make_report env mls results = Some r.
Proof.
  intros H. unfold make_report.
  destruct (build_summary_total results mls [])
    as [summary Hsum]; [intros l Hl; now apply (layer_ranking_total results mls)|].
  rewrite Hsum.
  assert (Hscore : forall l, In l mls -> score_of summary (ML.id l) <> None).
  { intros l Hl. unfold score_of. rewrite (build_summary_get _ _ _ _ _ Hsum Hl).
    pose proof (layer_ranking_total results mls l H Hl).
    destruct (layer_ranking results l); [discriminate|congruence]. }
  unfold rank. destruct mls as [|l0 mls]; [eauto|].
  destruct (string_truthy (ML.id l0)); [|eauto].
  destruct (rank_fold_spec summary (l0 :: mls) (ML.id l0) (ML.id l0))
    as (f & s & -> & _); [assumption|apply Hscore; now left..|eauto].
Qed.

(** ** The benchmark orchestrator: failures inside a step *)

Lemma allSteps_actions j step :
  nth_error allSteps j = Some step ->
  ((j < 10)%nat /\ exists zoom center, Step.action step = GoTo zoom center) \/
  ((10 <= j < 15)%nat /\ Step.action step = QueryFeatures).
Proof.
  intros H.
  do 10 (destruct j as [|j];
         [injection H as <-; left; split; [lia|]; do 2 eexists; reflexivity|]).
  do 5 (destruct j as [|j];
        [injection H as <-; right; split; [lia|reflexivity]|]).
  destruct j; discriminate.
Qed.

Lemma allSteps_nav j :
  (j < 10)%nat ->
  exists step zoom center,
    nth_error allSteps j = Some step /\ Step.action step = GoTo zoom center.
Proof.
  intros H.
  do 10 (destruct j as [|j]; [do 3 eexists; split; reflexivity|]). lia.
Qed.

(** With no request in the batch every layer measures zero. *)
Lemma layer_step_metric_empty URL_hostname mls sm l :
  calculateMetrics_on URL_hostname mls [] = Some sm ->
  LSM.loadTime (layer_step_metric sm l) = 0%float /\
  LSM.requestCount (layer_step_metric sm l) = 0.
Proof.
  intros Hc. destruct (calculateMetrics_on_spec _ _ _ _ Hc) as (_ & _ & Hall).
  rewrite Forall_forall in Hall. unfold layer_step_metric.
  destruct (find (fun s => String.eqb (LPS.id s) (ML.id l)) sm) as [s|] eqn:E; simpl.
  - apply find_some in E as [Hin _].
    destruct (Hall s Hin) as (Hreq & Hcnt & _ & _ & _ & _ & Hlt).
    simpl in Hreq. rewrite Hreq in Hcnt, Hlt. simpl in Hcnt, Hlt.
    rewrite Hcnt, Hlt. split; reflexivity.
  - split; reflexivity.
Qed.

(** C8, refuted as stated.  (1) The third navigation step is rejected: the
    exception reaches the handler of the run, which logs the failure; no
    report is stored.  (2) Every layer query is rejected and the error
    metric of the failed request arrives: the run completes, and the query
    step is recorded with request count 1 and a load time of 0.1s. *)
Lemma rejected_navigation_step_aborts_the_run :
  (setup_goTo nav3_rejected_run = Resolved /\
   goTo_outcome (step_env nav3_rejected_run 2) = Rejected /\
   benchmarkReport (runBenchmark example_hostname [layerX] nav3_rejected_run idle_app)
     = None /\
   console (runBenchmark example_hostname [layerX] nav3_rejected_run idle_app)
     = ["Benchmark Failed"%string]) /\
  (query_outcomes (step_env queries_rejected_run 10) = [Rejected] /\
   exists r x,
     benchmarkReport (runBenchmark example_hostname [layerX] queries_rejected_run idle_app)
       = Some r /\
     nth_error (BRD.steps r) 10 = Some x /\
     BSR.layerMetrics x = [("X"%string, LSM.mk (100 / 1000)%float 1)]).
Proof.
  split.
  - repeat split.
  - split; [reflexivity|]. do 2 eexists.
    split; [vm_compute; reflexivity|]. split; reflexivity.
Qed.

(** A rejected navigation step is awaited inside the [try] block without a
    handler of its own: the exception reaches the [catch] clause of the run. *)
Lemma rejected_navigation_reaches_run_handler :
  forall URL_hostname layers env st k,
    view_available env = true ->
    (k < 10)%nat -> goTo_outcome (step_env env k) = Rejected ->
    benchmarkReport (runBenchmark URL_hostname layers env st) = None /\
    run_failed URL_hostname layers env st = true.
Proof.
  intros URL_hostname layers env st k Hv Hk Hrejk.
  destruct (runBenchmark_report URL_hostname layers env st Hv) as [Hrep Hfail].
  assert (Hout : benchmark_outcome URL_hostname (metricLayers layers) env = None).
  { unfold benchmark_outcome. destruct (setup_goTo env); [|reflexivity].
    destruct (allSteps_nav k Hk) as (step & z & c & Hstep & Hact).
    rewrite (steps_results_fail URL_hostname _ env allSteps 0 k step Hstep);
      [reflexivity|].
    simpl. unfold step_result. rewrite Hact. simpl. now rewrite Hrejk. }
  rewrite Hrep, Hfail, Hout. auto.
Qed.

(** C8, amended.  For a run that has a view and layers whose URLs parse:
    (a) a rejected layer query is caught where the query is issued, so when
    the setup navigation and the navigation steps resolve, the run completes
    whatever the layer queries do; each of the 15 steps is recorded from the
    metrics published during that step alone, and a step during which none
    was published is recorded with zero load time and zero requests for
    every layer; (b) a rejected setup navigation aborts the run, and no
    report is stored. *)
Theorem query_failures_are_absorbed_by_the_step :
  forall URL_hostname layers env st,
    view_available env = true ->
    (forall l, In l (metricLayers layers) -> URL_hostname (ML.url l) <> None) ->
    let mls := metricLayers layers in
    let st' := runBenchmark URL_hostname layers env st in
    (setup_goTo env = Resolved ->
     (forall k, (k < 10)%nat -> goTo_outcome (step_env env k) = Resolved) ->
     exists r,
       benchmarkReport st' = Some r /\
       List.length (BRD.steps r) = 15%nat /\
       forall k x,
         nth_error (BRD.steps r) k = Some x ->
         let arrived := arrived_in_action (step_env env k)
                        ++ arrived_in_wait (step_env env k) in
         exists sm,
           calculateMetrics_on URL_hostname mls arrived = Some sm /\
           BSR.layerMetrics x = resultLayerMetrics mls sm /\
           (arrived = [] ->
            forall l, In l mls ->
              exists v, dict_get (ML.id l) (BSR.layerMetrics x) = Some v /\
                        LSM.loadTime v = 0%float /\ LSM.requestCount v = 0)) /\
    (setup_goTo env = Rejected ->
     benchmarkReport st' = None /\
     run_failed URL_hostname layers env st = true).
Proof.
  intros URL_hostname layers env st Hv Hparse mls st'.
  destruct (runBenchmark_report URL_hostname layers env st Hv) as [Hrep Hfail].
  fold mls in Hrep, Hfail. fold st' in Hrep. split.
  - intros Hsetup Hnav.
    destruct (steps_results_total URL_hostname mls env allSteps 0) as [results Hres].
    { intros j step Hj. simpl.
      destruct (calculateMetrics_on_returns URL_hostname mls
                  (arrived_in_action (step_env env j) ++ arrived_in_wait (step_env env j))
                  Hparse) as [sm Hsm].
      unfold step_result. rewrite Hsm.
      destruct (allSteps_actions j step Hj) as [[Hlt (z & c & ->)]|[_ ->]]; simpl.
      - rewrite (Hnav j Hlt). discriminate.
      - discriminate. }
    destruct (steps_results_nth _ _ _ _ _ _ Hres) as [Hlen Hnth].
    destruct (make_report_total env mls results) as [r Hr].
    { intros x Hx l Hl. apply In_nth_error in Hx as [j Hj].
      assert (Hjs : exists step, nth_error allSteps j = Some step).
      { destruct (nth_error allSteps j) as [step|] eqn:E; [eauto|].
        apply nth_error_None in E.
        assert (j < List.length results)%nat by (apply nth_error_Some; congruence).
        lia. }
      destruct Hjs as [step Hstep].
      destruct (Hnth j step Hstep) as (x' & Hx' & Hsx).
      assert (x' = x) by congruence. subst x'.
      apply step_result_Some in Hsx as (_ & sm & _ & ->). simpl.
      rewrite resultLayerMetrics_get by assumption. discriminate. }
    assert (Hout : benchmark_outcome URL_hostname mls env = Some r).
    { unfold benchmark_outcome. now rewrite Hsetup, Hres. }
    exists r. rewrite Hrep. split; [exact Hout|].
    rewrite (make_report_steps _ _ _ _ Hr).
    split; [rewrite Hlen; reflexivity|].
    intros k x Hx arrived.
    assert (Hks : exists step, nth_error allSteps k = Some step).
    { destruct (nth_error allSteps k) as [step|] eqn:E; [eauto|].
      apply nth_error_None in E.
      assert (k < List.length results)%nat by (apply nth_error_Some; congruence).
      lia. }
    destruct Hks as [step Hstep].
    destruct (Hnth k step Hstep) as (x' & Hx' & Hsx).
    assert (x' = x) by congruence. subst x'. simpl in Hsx.
    apply step_result_Some in Hsx as (_ & sm & Hsm & ->).
    exists sm. split; [exact Hsm|]. split; [reflexivity|].
    intros Hempty l Hl. exists (layer_step_metric sm l). simpl.
    split; [now apply resultLayerMetrics_get|].
    fold arrived in Hsm. rewrite Hempty in Hsm.
    now apply (layer_step_metric_empty URL_hostname mls).
  - intros Hrej.
    assert (Hout : benchmark_outcome URL_hostname mls env = None).
    { unfold benchmark_outcome. now rewrite Hrej. }
    rewrite Hrep, Hfail, Hout. auto.
Qed.

(** The run in which every layer query is rejected completes. *)
Lemma query_failures_are_absorbed_witness :
  exists r,
    benchmarkReport (runBenchmark example_hostname [layerX] queries_rejected_run idle_app)
      = Some r /\
    List.length (BRD.steps r) = 15%nat.
Proof.
  assert (Hparse : forall l, In l (metricLayers [layerX]) ->
                             example_hostname (ML.url l) <> None).
  { intros l [<-|[]]. vm_compute. discriminate. }
  destruct (proj1 (query_failures_are_absorbed_by_the_step
                     example_hostname [layerX] queries_rejected_run idle_app
                     eq_refl Hparse) eq_refl)
    as (r & Hr & Hlen & _).
  - intros k Hk. unfold queries_rejected_run, step_env.
    destruct (Nat.leb 10 k) eqn:E; [apply Nat.leb_le in E; lia|reflexivity].
  - exists r. split; assumption.
Defined.

(** ** The benchmark orchestrator: ranking *)

Lemma make_report_inv env mls results r :
  make_report env mls results = Some r ->
  exists summary f s,
    build_summary results mls [] = Some summary /\
    rank summary mls = Some (f, s) /\
    r = BRD.mk (report_date env) results summary f s
               (percent_faster (avgNav_or_zero summary f) (avgNav_or_zero summary s)).
Proof.
  unfold make_report.
  destruct (build_summary results mls []) as [summary|] eqn:Eb; [|discriminate].
  destruct (rank summary mls) as [[f s]|] eqn:Er; [|discriminate].
  intros H. injection H as H. exists summary, f, s.
  split; [reflexivity|]. split; [exact Er|]. now rewrite <- H.
Qed.





Lemma or_zero_eq a : (or_zero a == a)%Q.
Proof.
  unfold or_zero. destruct (Qeq_bool a 0) eqn:E; [|reflexivity].
  apply Qeq_bool_eq in E. now rewrite E.
Qed.








(** The averages are those of the numbers, not of the reals.  Layer A
    measures a tenth of a second in each of the ten navigation steps, layer
    B one second in the first and nothing in the others.  Ten times 0.1
    added from the left is 0.9999999999999999, so A scores
    0.09999999999999999 and B 0.1: A is the fastest and B the slowest, and
    the percentage is positive, where the means of the reals are equal. *)
Lemma rounded_averages_separate_equal_means :
  exists r,
    benchmarkReport
      (runBenchmark example_hostname [layerD_A; layerD_B] equal_means_run idle_app)
    = Some r /\
    score_at (BRD.summary r) "A"
    = (sum_from_left (repeat (100 / 1000)%float 10) / 10)%float /\
    score_at (BRD.summary r) "B" = (1 / 10)%float /\
    (score_at (BRD.summary r) "A" <? score_at (BRD.summary r) "B")%float = true /\
    BRD.fastestLayerId r = Some "A"%string /\
    BRD.slowestLayerId r = Some "B"%string /\
    (0 <? BRD.percentFaster r)%float = true.
Proof.
  destruct (benchmarkReport
              (runBenchmark example_hostname [layerD_A; layerD_B]
                            equal_means_run idle_app)) as [r|] eqn:Hrun;
    [|vm_compute in Hrun; discriminate].
  exists r. split; [reflexivity|].
  vm_compute in Hrun. injection Hrun as <-.
  repeat split; vm_compute; reflexivity.
Qed.

(** * Further properties *)

(** ** The sorted aggregate of the earlier App *)

Lemma sort_insert_Permutation a l : Permutation (a :: l) (sort_insert a l).
Proof.
  induction l as [|b l IH]; simpl; [reflexivity|].
  destruct (LPS.loadTime b - LPS.loadTime a <=? 0); [reflexivity|].
  rewrite perm_swap. now constructor.
Qed.

Lemma sort_by_loadTime_desc_Permutation l :
  Permutation l (sort_by_loadTime_desc l).
Proof.
  induction l as [|a l IH]; simpl; [constructor|].
  rewrite <- sort_insert_Permutation. now constructor.
Qed.

Lemma sort_insert_sorted a l :
  StronglySorted (fun x y => LPS.loadTime y <= LPS.loadTime x) l ->
  StronglySorted (fun x y => LPS.loadTime y <= LPS.loadTime x) (sort_insert a l).
Proof.
  induction 1 as [|b l Hs IH Hb]; simpl.
  - repeat constructor.
  - destruct (LPS.loadTime b - LPS.loadTime a <=? 0) eqn:E.
    + apply Z.leb_le in E. constructor; [now constructor|].
      constructor; [lia|]. rewrite Forall_forall in Hb |- *.
      intros y Hy. specialize (Hb y Hy). simpl in Hb. lia.
    + apply Z.leb_gt in E. constructor; [exact IH|].
      rewrite Forall_forall in Hb |- *. intros y Hy.
      apply sort_insert_In in Hy as [->|Hy]; [lia|now apply Hb].
Qed.

Lemma sort_insert_stable k a l :
  filter (fun s => LPS.loadTime s =? k) (sort_insert a l)
  = filter (fun s => LPS.loadTime s =? k) (a :: l).
Proof.
  induction l as [|b l IH]; [reflexivity|].
  cbn [sort_insert].
  destruct (LPS.loadTime b - LPS.loadTime a <=? 0) eqn:E; [reflexivity|].
  apply Z.leb_gt in E. cbn [filter] in IH |- *. rewrite IH.
  destruct (LPS.loadTime a =? k) eqn:Ea, (LPS.loadTime b =? k) eqn:Eb;
    try reflexivity.
  apply Z.eqb_eq in Ea, Eb. lia.
Qed.

(** The order of the summaries that [calculateMetrics] returns. *)
Lemma dict_keys_set_new {V} (d : dict V) k v :
  ~ In k (dict_keys d) -> dict_keys (dict_set k v d) = dict_keys d ++ [k].
Proof.
  induction d as [|[k0 v0] d IH]; simpl; intros Hn; [reflexivity|].
  destruct (String.eqb k0 k) eqn:E.
  - apply String.eqb_eq in E. exfalso. apply Hn. now left.
  - simpl. f_equal. apply IH. intros H. apply Hn. now right.
Qed.

Lemma init_stats_order URL_hostname mls : forall st st',
  init_stats URL_hostname mls st = Some st' ->
  NoDup (dict_keys st ++ map ML.id mls) ->
  dict_keys st' = dict_keys st ++ map ML.id mls.
Proof.
  induction mls as [|l mls IH]; simpl; intros st st' H Hnd.
  - injection H as <-. now rewrite app_nil_r.
  - destruct (URL_hostname (ML.url l)) as [dom|]; [|discriminate].
    assert (Hnew : ~ In (ML.id l) (dict_keys st)).
    { intros Hin. apply NoDup_remove_2 in Hnd. apply Hnd.
      apply in_or_app. now left. }
    rewrite (IH _ _ H); rewrite (dict_keys_set_new _ _ _ Hnew).
    + now rewrite <- app_assoc.
    + now rewrite <- app_assoc.
Qed.

Lemma calculateMetrics_on_order URL_hostname mls metrics result :
  calculateMetrics_on URL_hostname mls metrics = Some result ->
  NoDup (map ML.id mls) ->
  map LPS.id result = property_order (fun k => k) (map ML.id mls).
Proof.
  intros Hc Hnd. pose proof Hc as Hspec.
  apply calculateMetrics_on_spec in Hspec. destruct Hspec as (_ & _ & Hall).
  unfold calculateMetrics_on in Hc.
  destruct (init_stats URL_hostname mls []) as [stats0|] eqn:Hi; [|discriminate].
  injection Hc as <-.
  pose proof (init_stats_order _ _ _ _ Hi Hnd) as Hk0. simpl in Hk0.
  assert (Hnd0 : NoDup (dict_keys stats0)) by now rewrite Hk0.
  assert (Hb0 : Forall (binned mls []) stats0)
    by (eapply init_stats_binned; [eassumption|constructor]).
  destruct (bin_all_inv URL_hostname mls metrics [] stats0 Hnd0 Hb0) as [Hk Hb].
  simpl in Hb. set (stats1 := fold_left (bin_request mls) metrics stats0) in *.
  set (stats2 := dict_map_values set_loadTime stats1).
  assert (Hkeys2 : map fst stats2 = map ML.id mls).
  { unfold stats2, dict_map_values. rewrite map_map. simpl.
    change (map (fun x => fst x) stats1) with (dict_keys stats1).
    now rewrite Hk, Hk0. }
  rewrite <- Hkeys2, <- map_property_order.
  unfold Object_values. rewrite map_map. apply map_ext_in.
  intros [k s] Hin. apply property_order_In in Hin. simpl.
  unfold stats2, dict_map_values in Hin. apply in_map_iff in Hin.
  destruct Hin as ([k0 s0] & [= <- <-] & Hin0). simpl.
  rewrite Forall_forall in Hb.
  now destruct (set_loadTime_summarises mls metrics k0 s0 (Hb _ Hin0)).
Qed.

Lemma sort_by_loadTime_desc_sorted l :
  StronglySorted (fun x y => LPS.loadTime y <= LPS.loadTime x)
                 (sort_by_loadTime_desc l).
Proof.
  induction l as [|a l IH]; simpl; [constructor|]. now apply sort_insert_sorted.
Qed.

Lemma sort_by_loadTime_desc_stable l k :
  filter (fun s => LPS.loadTime s =? k) (sort_by_loadTime_desc l)
  = filter (fun s => LPS.loadTime s =? k) l.
Proof.
  induction l as [|a l IH]; [reflexivity|].
  cbn [sort_by_loadTime_desc fold_right].
  change (fold_right sort_insert [] l) with (sort_by_loadTime_desc l).
  rewrite sort_insert_stable. cbn [filter]. now rewrite IH.
Qed.

Lemma Subseq_refl {A} (l : list A) : Subseq l l.
Proof. induction l; constructor; assumption. Qed.

Lemma Subseq_filter_map {A B} (f : A -> B) (p : A -> bool) l :
  Subseq (map f (filter p l)) (map f l).
Proof.
  induction l as [|a l IH]; simpl; [constructor|].
  destruct (p a); simpl; now constructor.
Qed.

(** X1. The [aggregatedMetrics] memo returns the summaries of [calculateMetrics]
    rearranged slowest first, summaries of equal load time keeping the
    order they have there (the sort is stable).  That order is the one in
    which [Object.values] enumerates the layer ids (distinct ids being
    given): ids that are array indices first, by ascending index, then the
    others in the order in which the layers are tracked.  So when no id is
    an array index, summaries of equal load time keep the order in which
    their layers are tracked. *)
Theorem aggregatedMetrics_sorted_slowest_first :
  forall URL_hostname layers rawMetrics result,
    aggregatedMetrics URL_hostname layers rawMetrics = Some result ->
    exists unsorted,
      calculateMetrics URL_hostname layers rawMetrics = Some unsorted /\
      Permutation unsorted result /\
      StronglySorted (fun x y => LPS.loadTime y <= LPS.loadTime x) result /\
      (forall k, filter (fun s => LPS.loadTime s =? k) result
                 = filter (fun s => LPS.loadTime s =? k) unsorted) /\
      (NoDup (map ML.id (metricLayers layers)) ->
       map LPS.id unsorted
       = property_order (fun k => k) (map ML.id (metricLayers layers)) /\
       ((forall l, In l (metricLayers layers) -> array_index (ML.id l) = None) ->
        map LPS.id unsorted = map ML.id (metricLayers layers) /\
        forall k,
          Subseq (map LPS.id (filter (fun s => LPS.loadTime s =? k) result))
                 (map ML.id (metricLayers layers)))).
Proof.
  intros URL_hostname layers rawMetrics result H. unfold aggregatedMetrics in H.
  destruct (calculateMetrics URL_hostname layers rawMetrics) as [unsorted|] eqn:Hc;
    [|discriminate].
  injection H as <-. exists unsorted. split; [reflexivity|].
  split; [apply sort_by_loadTime_desc_Permutation|].
  pose proof (sort_by_loadTime_desc_stable unsorted) as Hstable.
  split; [apply sort_by_loadTime_desc_sorted|]. split; [exact Hstable|].
  intros Hnd. unfold calculateMetrics in Hc.
  pose proof (calculateMetrics_on_order _ _ _ _ Hc Hnd) as Hord.
  split; [exact Hord|]. intros Hplain.
  assert (Hids : map LPS.id unsorted = map ML.id (metricLayers layers)).
  { rewrite Hord. apply property_order_plain.
    intros k Hk. apply in_map_iff in Hk. destruct Hk as (l & <- & Hl).
    now apply Hplain. }
  split; [exact Hids|]. intros k. rewrite Hstable, <- Hids.
  apply Subseq_filter_map.
Qed.

Lemma aggregatedMetrics_sorted_witness :
  exists result,
    aggregatedMetrics example_hostname [layerA_MapServer; layerX]
                      (batchA ++ batchB) = Some result /\
    map LPS.id result = ["X"; "A-map"] /\
    StronglySorted (fun x y => LPS.loadTime y <= LPS.loadTime x) result /\
    Subseq (map LPS.id (filter (fun s => LPS.loadTime s =? 300) result))
           (map ML.id (metricLayers [layerA_MapServer; layerX])).
Proof.
  destruct (aggregatedMetrics example_hostname [layerA_MapServer; layerX]
                              (batchA ++ batchB)) as [result|] eqn:H;
    [|vm_compute in H; discriminate].
  exists result. split; [reflexivity|].
  destruct (aggregatedMetrics_sorted_slowest_first _ _ _ _ H)
    as (unsorted & _ & _ & Hsorted & _ & Horder).
  split; [|split; [exact Hsorted|]].
  - vm_compute in H. injection H as <-. reflexivity.
  - refine (proj2 (proj2 (Horder _) _) 300).
    + repeat constructor; simpl; intuition discriminate.
    + intros l [<-|[<-|[]]]; reflexivity.
Defined.

(** Ids that are array indices come first, whatever the order in which the
    layers are tracked: of the layers X, 10 and 9, none of which has a
    request, the summaries are returned in the order 9, 10, X. *)
Lemma aggregate_enumerates_index_ids_first :
  option_map (map LPS.id)
    (aggregatedMetrics example_hostname [layerX; layer_ten; layer_nine] [])
  = Some ["9"; "10"; "X"].
Proof. vm_compute. reflexivity. Qed.

(** ** Layer list handlers *)

(** X2. The selection for comparison never holds a layer twice nor more than two
    layers; a click on a selected layer deselects it, a click on another
    selects it.  The selection is kept in the order of the clicks: a newly
    selected layer comes last, behind the most recent earlier selection;
    when two layers were selected, it is the older one (the first) that is
    dropped and the newer one (the second) that stays. *)
Theorem handleCompareToggle_keeps_a_pair :
  forall id prev,
    NoDup prev -> (List.length prev <= 2)%nat ->
    NoDup (handleCompareToggle id prev) /\
    (List.length (handleCompareToggle id prev) <= 2)%nat /\
    (In id (handleCompareToggle id prev) <-> ~ In id prev) /\
    (forall x, x <> id -> In x (handleCompareToggle id prev) -> In x prev) /\
    (~ In id prev -> (List.length prev < 2)%nat ->
     handleCompareToggle id (handleCompareToggle id prev) = prev) /\
    (~ In id prev ->
     handleCompareToggle id prev = slice_last 1 prev ++ [id]) /\
    (forall older newer, prev = [older; newer] -> ~ In id prev ->
       handleCompareToggle id prev = [newer; id]).
Proof.
  intros id prev Hnd Hlen. unfold handleCompareToggle.
  assert (Hex : existsb (String.eqb id) prev = true <-> In id prev).
  { rewrite existsb_exists. split.
    - intros (x & Hx & E). apply String.eqb_eq in E. now subst.
    - intros H. exists id. split; [assumption|apply String.eqb_refl]. }
  assert (Hfilter : forall l x, In x (filter (fun p => negb (String.eqb p id)) l)
                                <-> In x l /\ x <> id).
  { intros l x. rewrite filter_In, negb_true_iff. split; intros [H1 H2]; split; auto.
    - intros ->. rewrite String.eqb_refl in H2. discriminate.
    - now apply String.eqb_neq. }
  destruct (existsb (String.eqb id) prev) eqn:E.
  - assert (Hin : In id prev) by now apply Hex.
    split; [now apply NoDup_filter|].
    split; [etransitivity; [apply filter_length_le|exact Hlen]|].
    split; [|split; [|split; [|split]]].
    + rewrite Hfilter. tauto.
    + intros x _ Hx. now apply Hfilter in Hx.
    + tauto.
    + tauto.
    + intros older newer _ Hn. tauto.
  - assert (Hnin : ~ In id prev) by (intros H; apply Hex in H; discriminate).
    destruct prev as [|a [|b [|c r]]]; simpl in Hlen; try lia; cbn [app].
    + split; [repeat constructor; intros []|].
      split; [simpl; lia|]. split; [split; [auto|intros _; now left]|].
      split; [intros x Hne [->|[]]; congruence|].
      split; [|split; [reflexivity|discriminate]].
      intros _ _. cbn [existsb filter]. rewrite String.eqb_refl. reflexivity.
    + assert (Hne : a <> id) by (intros ->; apply Hnin; now left).
      split; [constructor; [intros [->|[]]; congruence|repeat constructor; intros []]|].
      split; [simpl; lia|].
      split; [split; [auto|intros _; right; now left]|].
      split; [intros x Hx [->|[->|[]]]; [now left|congruence]|].
      split; [|split; [reflexivity|discriminate]].
      intros _ _. cbn [existsb filter].
      rewrite String.eqb_refl, orb_true_r.
      apply String.eqb_neq in Hne. rewrite Hne. reflexivity.
    + assert (Hne : b <> id) by (intros ->; apply Hnin; right; now left).
      split; [constructor; [intros [->|[]]; congruence|repeat constructor; intros []]|].
      split; [simpl; lia|].
      split; [split; [auto|intros _; right; now left]|].
      split; [intros x Hx [->|[->|[]]]; [right; now left|congruence]|].
      split; [intros _ H; simpl in H; lia|].
      split; [reflexivity|].
      intros older newer Heq _. now injection Heq as _ ->.
Qed.

Lemma handleCompareToggle_witness :
  handleCompareToggle "C" ["A"; "B"] = ["B"; "C"] /\
  NoDup (handleCompareToggle "C" ["A"; "B"]) /\
  (List.length (handleCompareToggle "C" ["A"; "B"]) <= 2)%nat.
Proof.
  refine ((fun H => conj (proj2 (proj2 (proj2 (proj2 (proj2 (proj2 H)))))
                           "A" "B" eq_refl _)
                         (conj (proj1 H) (proj1 (proj2 H))))
            (handleCompareToggle_keeps_a_pair "C" ["A"; "B"] _ _)).
  - simpl. intuition discriminate.
  - repeat constructor; simpl; intuition discriminate.
  - simpl. lia.
Defined.

(** Attribution looks at the ids, URLs and exclusion flags of the layers
    only. *)
Lemma layersWithColors_from_keys layers : forall layers' i,
  map layer_key layers = map layer_key layers' ->
  map layer_key (layersWithColors_from i layers)
  = map layer_key (layersWithColors_from i layers').
Proof.
  induction layers as [|a layers IH]; intros [|a' layers'] i H; cbn [map] in H;
    try discriminate; [reflexivity|].
  injection H as Hid Hurl Hex H.
  cbn [layersWithColors_from map]. f_equal; [|now apply IH].
  unfold layer_key. cbn [ML.id ML.url ML.excludeFromMetrics]. congruence.
Qed.

Lemma filter_tracked_keys (ls : list ML.t) : forall ls',
  map layer_key ls = map layer_key ls' ->
  map layer_key (filter (fun l => negb (truthy (ML.excludeFromMetrics l))) ls)
  = map layer_key (filter (fun l => negb (truthy (ML.excludeFromMetrics l))) ls').
Proof.
  induction ls as [|a ls IH]; intros [|a' ls'] H; cbn [map] in H;
    try discriminate; [reflexivity|].
  injection H as Hid Hurl Hex H. cbn [filter].
  rewrite Hex. destruct (negb (truthy (ML.excludeFromMetrics a'))); cbn [map].
  - f_equal; [unfold layer_key; congruence|now apply IH].
  - now apply IH.
Qed.

Lemma metricLayers_keys layers layers' :
  map layer_key layers = map layer_key layers' ->
  map layer_key (metricLayers layers) = map layer_key (metricLayers layers').
Proof.
  intros H. unfold metricLayers, layersWithColors.
  apply filter_tracked_keys. now apply layersWithColors_from_keys.
Qed.

Lemma attributed_keys mls : forall mls' k m,
  map layer_key mls = map layer_key mls' ->
  attributed mls k m = attributed mls' k m.
Proof.
  unfold attributed, matchedLayer.
  induction mls as [|a mls IH]; intros [|a' mls'] k m H; cbn [map] in H;
    try discriminate; [reflexivity|].
  injection H as Hid Hurl _ H.
  cbn [find]. unfold url_matches at 1 3. rewrite Hurl.
  destruct (includes (toLowerCase (NRM.url m)) (toLowerCase (ML.url a'))).
  - now rewrite Hid.
  - now apply IH.
Qed.

Lemma attributed_to_keys mls mls' k metrics :
  map layer_key mls = map layer_key mls' ->
  attributed_to mls k metrics = attributed_to mls' k metrics.
Proof.
  intros H. unfold attributed_to. apply filter_ext.
  intros m. now apply attributed_keys.
Qed.

Lemma calculateMetrics_on_parses URL_hostname mls metrics result l :
  calculateMetrics_on URL_hostname mls metrics = Some result ->
  In l mls -> URL_hostname (ML.url l) <> None.
Proof.
  intros Hc Hl Hn. unfold calculateMetrics_on in Hc.
  now rewrite (init_stats_fails URL_hostname mls [] l Hl Hn) in Hc.
Qed.

Lemma keys_ids (ls ls' : list ML.t) :
  map layer_key ls = map layer_key ls' -> map ML.id ls = map ML.id ls'.
Proof.
  intros H.
  assert (E : forall l : list ML.t, map ML.id l = map (fun k => fst (fst k)) (map layer_key l)).
  { intros l. rewrite map_map. reflexivity. }
  now rewrite !E, H.
Qed.

Lemma keys_urls (ls ls' : list ML.t) :
  map layer_key ls = map layer_key ls' -> map ML.url ls = map ML.url ls'.
Proof.
  intros H.
  assert (E : forall l : list ML.t, map ML.url l = map (fun k => snd (fst k)) (map layer_key l)).
  { intros l. rewrite map_map. reflexivity. }
  now rewrite !E, H.
Qed.

(** Editing layers without touching ids, URLs and exclusion flags leaves
    every measurement as it was. *)
Lemma calculateMetrics_keys URL_hostname layers layers' metrics result :
  map layer_key layers = map layer_key layers' ->
  calculateMetrics URL_hostname layers metrics = Some result ->
  exists result',
    calculateMetrics URL_hostname layers' metrics = Some result' /\
    forall s, In s result ->
      exists s', In s' result' /\ same_measurements s s'.
Proof.
  intros Hk Hc. apply metricLayers_keys in Hk. unfold calculateMetrics in *.
  set (mls := metricLayers layers) in *. set (mls' := metricLayers layers') in *.
  destruct (calculateMetrics_on_returns URL_hostname mls' metrics) as [result' Hc'].
  { intros l' Hl' Hn.
    assert (Hu : In (ML.url l') (map ML.url mls)).
    { rewrite (keys_urls _ _ Hk). now apply in_map. }
    apply in_map_iff in Hu as (l & Hurl & Hl).
    apply (calculateMetrics_on_parses _ _ _ _ l Hc Hl). congruence. }
  exists result'. split; [exact Hc'|].
  destruct (calculateMetrics_on_spec _ _ _ _ Hc) as (_ & Hids & Hall).
  destruct (calculateMetrics_on_spec _ _ _ _ Hc') as (_ & Hids' & Hall').
  rewrite Forall_forall in Hall, Hall'.
  intros s Hs.
  assert (Hin' : In (LPS.id s) (map LPS.id result')).
  { apply Hids'. rewrite <- (keys_ids _ _ Hk). apply Hids. now apply in_map. }
  apply in_map_iff in Hin' as (s' & Hid' & Hs').
  exists s'. split; [exact Hs'|].
  destruct (Hall s Hs) as (Hreq & Hcnt & Hdur & _ & _ & _ & Hlt).
  destruct (Hall' s' Hs') as (Hreq' & Hcnt' & Hdur' & _ & _ & _ & Hlt').
  assert (Hr : LPS.requests s' = LPS.requests s).
  { rewrite Hreq, Hreq', Hid'. symmetry. now apply attributed_to_keys. }
  unfold same_measurements. rewrite Hcnt, Hcnt', Hdur, Hdur', Hlt, Hlt', Hr. auto.
Qed.

Lemma handleToggleLayer_keys id layers :
  map layer_key layers = map layer_key (handleToggleLayer id layers).
Proof.
  unfold handleToggleLayer. rewrite map_map. apply map_ext.
  intros l. now destruct (String.eqb (ML.id l) id).
Qed.

Lemma saveEditing_keys id editTitle layers :
  map layer_key layers = map layer_key (saveEditing id editTitle layers).
Proof.
  unfold saveEditing. rewrite map_map. apply map_ext.
  intros l. now destruct (String.eqb (ML.id l) id).
Qed.

(** X3. Hiding, showing or renaming a layer changes no measurement: the
    aggregation still succeeds, and every layer id keeps its requests,
    request count, total duration and load time.  In particular a hidden
    layer keeps being measured. *)
Theorem visibility_and_title_leave_measurements_unchanged :
  forall URL_hostname id editTitle layers layers' metrics result,
    layers' = handleToggleLayer id layers \/
    layers' = saveEditing id editTitle layers ->
    calculateMetrics URL_hostname layers metrics = Some result ->
    exists result',
      calculateMetrics URL_hostname layers' metrics = Some result' /\
      forall s, In s result ->
        exists s', In s' result' /\ same_measurements s s'.
Proof.
  intros URL_hostname id editTitle layers layers' metrics result Hedit Hc.
  apply (calculateMetrics_keys URL_hostname layers); [|exact Hc].
  destruct Hedit as [->| ->];
    [apply handleToggleLayer_keys|apply saveEditing_keys].
Qed.

Lemma visibility_leaves_measurements_witness :
  exists result',
    calculateMetrics example_hostname (handleToggleLayer "X" [layerX]) batchA
      = Some result' /\
    exists s', In s' result' /\ LPS.requestCount s' = 3 /\ LPS.loadTime s' = 300.
Proof.
  destruct (calculateMetrics example_hostname [layerX] batchA) as [result|] eqn:Hc;
    [|vm_compute in Hc; discriminate].
  destruct (visibility_and_title_leave_measurements_unchanged
              example_hostname "X" "" [layerX] _ batchA result
              (or_introl eq_refl) Hc) as (result' & Hc' & Hsame).
  exists result'. split; [exact Hc'|].
  vm_compute in Hc. injection Hc as <-.
  destruct (Hsame _ (or_introl eq_refl)) as (s' & Hs' & _ & _ & Hcnt & _ & Hlt).
  exists s'. split; [exact Hs'|]. split; [exact Hcnt|exact Hlt].
Defined.

(** X4. Removing a layer removes its summary and its place in the comparison;
    the other layers stay. *)
Theorem handleRemoveLayer_drops_the_summary :
  forall URL_hostname id layers compareIds metrics result,
    calculateMetrics URL_hostname (fst (handleRemoveLayer id layers compareIds)) metrics
      = Some result ->
    (forall s, In s result -> LPS.id s <> id) /\
    ~ In id (snd (handleRemoveLayer id layers compareIds)) /\
    (forall l, In l layers -> ML.id l <> id ->
               In l (fst (handleRemoveLayer id layers compareIds))).
Proof.
  intros URL_hostname id layers compareIds metrics result Hc.
  split; [|split].
  - intros s Hs Hid.
    destruct (calculateMetrics_on_spec _ _ _ _ Hc) as (_ & Hids & _).
    assert (Hin : In id (map ML.id (metricLayers (fst (handleRemoveLayer id layers compareIds))))).
    { apply Hids. rewrite <- Hid. now apply in_map. }
    apply in_map_iff in Hin as (l & Hl & Hlin).
    apply metricLayers_origin in Hlin as (l0 & Hl0 & _ & Hid0 & _).
    simpl in Hl0. apply filter_In in Hl0 as [_ Hne].
    rewrite <- Hid0, Hl, String.eqb_refl in Hne. discriminate.
  - simpl. intros Hin. apply filter_In in Hin as [_ Hne].
    rewrite String.eqb_refl in Hne. discriminate.
  - intros l Hl Hne. simpl. apply filter_In. split; [exact Hl|].
    apply negb_true_iff. now apply String.eqb_neq.
Qed.

Lemma handleRemoveLayer_witness :
  exists result,
    calculateMetrics example_hostname
      (fst (handleRemoveLayer "A" [layerA; layerX] ["A"; "X"])) batchA = Some result /\
    (forall s, In s result -> LPS.id s <> "A") /\
    snd (handleRemoveLayer "A" [layerA; layerX] ["A"; "X"]) = ["X"].
Proof.
  destruct (calculateMetrics example_hostname
              (fst (handleRemoveLayer "A" [layerA; layerX] ["A"; "X"])) batchA)
    as [result|] eqn:Hc; [|vm_compute in Hc; discriminate].
  exists result. split; [reflexivity|]. split; [|reflexivity].
  exact (proj1 (handleRemoveLayer_drops_the_summary _ _ _ _ _ _ Hc)).
Defined.

Lemma metricLayers_app_tracked layers l :
  truthy (ML.excludeFromMetrics l) = false ->
  exists l', In l' (metricLayers (layers ++ [l])) /\
             ML.id l' = ML.id l /\ ML.url l' = ML.url l.
Proof.
  intros Hex. apply metricLayers_tracked; [|exact Hex].
  apply in_or_app. right. now left.
Qed.

(** X5. [handleAddLayer] ignores an empty URL and accepts every other string.
    The new layer is tracked from then on: if the URL parser rejects its
    URL, every aggregation throws; otherwise (the other tracked URLs being
    accepted) the aggregation returns a summary for the new id, while the
    layers that were there keep their place. *)
Theorem handleAddLayer_tracks_any_nonempty_url :
  forall URL_hostname fresh_id form layers metrics,
    let layers' := fst (handleAddLayer fresh_id form layers) in
    (LayerForm.newLayerUrl form = ""%string -> layers' = layers) /\
    (LayerForm.newLayerUrl form <> ""%string ->
     (exists newLayer,
        layers' = layers ++ [newLayer] /\ ML.id newLayer = fresh_id /\
        ML.url newLayer = LayerForm.newLayerUrl form /\ ML.visible newLayer = true) /\
     (URL_hostname (LayerForm.newLayerUrl form) = None ->
      calculateMetrics URL_hostname layers' metrics = None) /\
     (URL_hostname (LayerForm.newLayerUrl form) <> None ->
      (forall l, In l layers -> truthy (ML.excludeFromMetrics l) = false ->
                 URL_hostname (ML.url l) <> None) ->
      exists result s,
        calculateMetrics URL_hostname layers' metrics = Some result /\
        In s result /\ LPS.id s = fresh_id)).
Proof.
  intros URL_hostname fresh_id form layers metrics layers'.
  unfold layers', handleAddLayer. split.
  - intros ->. reflexivity.
  - intros Hne.
    assert (Ht : string_truthy (LayerForm.newLayerUrl form) = true)
      by (destruct (LayerForm.newLayerUrl form); [congruence|reflexivity]).
    rewrite Ht. cbn [fst].
    match goal with |- context [layers ++ [?n]] => set (newLayer := n) end.
    destruct (metricLayers_app_tracked layers newLayer eq_refl)
      as (l' & Hl' & Hid' & Hurl').
    split; [exists newLayer; repeat split|]. split.
    + intros Hnone. unfold calculateMetrics, calculateMetrics_on.
      rewrite (init_stats_fails URL_hostname _ [] l' Hl'); [reflexivity|].
      now rewrite Hurl'.
    + intros Hsome Hparse.
      destruct (calculateMetrics_on_returns URL_hostname
                  (metricLayers (layers ++ [newLayer])) metrics) as [result Hc].
      { intros l Hl. apply metricLayers_origin in Hl as (l0 & Hl0 & Hex0 & _ & ->).
        apply in_app_or in Hl0 as [Hl0|[<-|[]]]; [now apply Hparse|exact Hsome]. }
      destruct (summary_of_layer _ _ _ _ _ Hc Hl') as (s & Hs & Hid & _).
      exists result, s. split; [exact Hc|]. split; [exact Hs|]. now rewrite Hid.
Qed.

Lemma handleAddLayer_witness :
  calculateMetrics example_hostname
    (fst (handleAddLayer "new" (LayerForm.mk "not a url" "" feature) [layerX])) batchA
  = None.
Proof.
  refine (proj1 (proj2 (proj2 (handleAddLayer_tracks_any_nonempty_url
            example_hostname "new" (LayerForm.mk "not a url" "" feature)
            [layerX] batchA) _)) _).
  - discriminate.
  - reflexivity.
Defined.

(** ** The comparison of two layers *)

Lemma Qdiv_nonneg a b : (0 <= a)%Q -> (0 < b)%Q -> (0 <= a / b)%Q.
Proof.
  intros Ha Hb. unfold Qdiv. apply Qmult_le_0_compat; [exact Ha|].
  apply Qinv_le_0_compat. now apply Qlt_le_weak.
Qed.

(** X6. A comparison exists exactly when two ids are selected and both have a
    summary; then [fast] and [slow] are the two summaries with the smaller
    load time first, [diff] is the absolute difference of the load times,
    and [percentDiff] is never negative and 0 when the faster load time is
    0. *)
Theorem comparisonData_orders_the_pair :
  forall compareIds aggregatedMetrics,
    match comparisonData compareIds aggregatedMetrics with
    | Some c =>
        exists id1 id2,
          compareIds = [id1; id2] /\
          find (fun m => String.eqb (LPS.id m) id1) aggregatedMetrics
            = Some (Comparison.l1 c) /\
          find (fun m => String.eqb (LPS.id m) id2) aggregatedMetrics
            = Some (Comparison.l2 c) /\
          ((Comparison.fast c = Comparison.l1 c /\ Comparison.slow c = Comparison.l2 c) \/
           (Comparison.fast c = Comparison.l2 c /\ Comparison.slow c = Comparison.l1 c)) /\
          LPS.loadTime (Comparison.fast c) <= LPS.loadTime (Comparison.slow c) /\
          Comparison.diff c
            = Z.abs (LPS.loadTime (Comparison.l1 c) - LPS.loadTime (Comparison.l2 c)) /\
          (0 <= Comparison.percentDiff c)%Q /\
          (LPS.loadTime (Comparison.fast c) <= 0 -> Comparison.percentDiff c = 0%Q)
    | None =>
        List.length compareIds <> 2%nat \/
        exists id, In id compareIds /\
                   forall s, In s aggregatedMetrics -> LPS.id s <> id
    end.
Proof.
  intros compareIds agg. unfold comparisonData.
  assert (Hnone : forall id,
             find (fun m => String.eqb (LPS.id m) id) agg = None ->
             forall s, In s agg -> LPS.id s <> id).
  { intros id Hf s Hs Hid. pose proof (find_none _ _ Hf s Hs) as H.
    simpl in H. rewrite Hid, String.eqb_refl in H. discriminate. }
  destruct compareIds as [|id1 [|id2 [|id3 r]]]; simpl;
    try (left; lia).
  destruct (find (fun m => String.eqb (LPS.id m) id1) agg) as [l1|] eqn:E1;
    [|right; exists id1; split; [now left|now apply Hnone]].
  destruct (find (fun m => String.eqb (LPS.id m) id2) agg) as [l2|] eqn:E2;
    [|right; exists id2; split; [right; now left|now apply Hnone]].
  exists id1, id2. cbn [Comparison.l1 Comparison.l2 Comparison.fast Comparison.slow
                         Comparison.diff Comparison.percentDiff].
  split; [reflexivity|]. split; [exact E1|]. split; [exact E2|].
  destruct (LPS.loadTime l1 <=? LPS.loadTime l2) eqn:E.
  - apply Z.leb_le in E. split; [now left|]. split; [exact E|]. split; [lia|].
    destruct (0 <? LPS.loadTime l1) eqn:E0.
    + apply Z.ltb_lt in E0. split; [|lia].
      apply Qmult_le_0_compat; [|discriminate].
      apply Qdiv_nonneg.
      * rewrite <- (Zle_Qle 0). lia.
      * rewrite <- (Zlt_Qlt 0). exact E0.
    + split; [apply Qle_refl|reflexivity].
  - apply Z.leb_gt in E. split; [now right|]. split; [lia|]. split; [lia|].
    destruct (0 <? LPS.loadTime l2) eqn:E0.
    + apply Z.ltb_lt in E0. split; [|lia].
      apply Qmult_le_0_compat; [|discriminate].
      apply Qdiv_nonneg.
      * rewrite <- (Zle_Qle 0). lia.
      * rewrite <- (Zlt_Qlt 0). exact E0.
    + split; [apply Qle_refl|reflexivity].
Qed.

(** ** The request interceptor *)

(** X7. Every metric the interceptor builds has duration = end - start.  A
    request stamped by [before] at a time [now] (not 0) and completed at
    [endTime] yields start [now] and duration [endTime - now]; without a
    usable stamp the start is put 50ms before the end; a failed request is
    reported with the 100ms before the failure.  So the metric invariant
    end >= start holds whenever the stamp is not later than the completion. *)
Theorem interceptor_metrics_are_well_timed :
  forall endTime id,
    (forall response,
       NRM.duration (Interceptor.after endTime id response)
         = NRM.endTime (Interceptor.after endTime id response)
           - NRM.startTime (Interceptor.after endTime id response) /\
       NRM.endTime (Interceptor.after endTime id response) = endTime /\
       NRM.status (Interceptor.after endTime id response) = 200) /\
    (forall now u o d,
       now <> 0 ->
       let m := Interceptor.after endTime id
                  (Interceptor.mkResponse u (Interceptor.before now (Some o)) d) in
       NRM.startTime m = now /\ NRM.duration m = endTime - now /\
       (now <= endTime -> well_timed m)) /\
    (forall u o d,
       Interceptor.requestOptions (Interceptor.mkResponse u o d) = None \/
       (exists opts, o = Some opts /\ Interceptor.customStartTime opts = None) \/
       (exists opts, o = Some opts /\ Interceptor.customStartTime opts = Some 0) ->
       let m := Interceptor.after endTime id (Interceptor.mkResponse u o d) in
       NRM.startTime m = endTime - 50 /\ NRM.duration m = 50 /\ well_timed m) /\
    (forall e,
       let m := Interceptor.error endTime id e in
       NRM.startTime m = endTime - 100 /\ NRM.duration m = 100 /\
       well_timed m /\ NRM.status m <> 0 /\ NRM.url m <> ""%string).
Proof.
  intros endTime id. split; [|split; [|split]].
  - intros response. repeat split.
  - intros now u o d Hnow m. unfold m, Interceptor.after, Interceptor.before. simpl.
    apply Z.eqb_neq in Hnow. rewrite Hnow. simpl.
    repeat split; try reflexivity. exact H.
  - intros u o d H m. unfold m, Interceptor.after. simpl in *.
    assert (Hs : match o with
                 | Some o0 =>
                     match Interceptor.truthy_number (Interceptor.customStartTime o0) with
                     | Some t => t
                     | None => endTime - 50
                     end
                 | None => endTime - 50
                 end = endTime - 50).
    { destruct H as [->|[(opts & -> & ->)|(opts & -> & ->)]]; reflexivity. }
    rewrite Hs. unfold well_timed. simpl. repeat split; lia.
  - intros e m. unfold m, Interceptor.error, well_timed. simpl.
    repeat split; try lia.
    + destruct (Interceptor.httpStatus e) as [z|]; simpl; [|discriminate].
      destruct (z =? 0) eqn:E; [discriminate|]. now apply Z.eqb_neq.
    + destruct (Interceptor.error_url e) as [[|c u]|]; simpl; discriminate.
Qed.

Lemma interceptor_metrics_witness :
  let m := Interceptor.after 1700000000250 "id"
             (Interceptor.mkResponse "https://gis.example.com/x"
                (Interceptor.before 1700000000100
                   (Some (Interceptor.mkOptions None (Some "json"))))
                None) in
  NRM.startTime m = 1700000000100 /\ NRM.duration m = 150 /\ well_timed m.
Proof.
  intros m.
  destruct (proj1 (proj2 (interceptor_metrics_are_well_timed 1700000000250 "id"))
              1700000000100 "https://gis.example.com/x"
              (Interceptor.mkOptions None (Some "json")) None ltac:(discriminate))
    as (Hs & Hd & Hw).
  split; [exact Hs|]. split; [exact Hd|]. apply Hw. lia.
Defined.

(** X8. [initInterceptor] registers at most once: only the first call does
    anything, however often it is called.  A first call made while
    [config.request] is missing uses up the only chance: later calls do not
    register either. *)
Theorem initInterceptor_runs_once :
  forall m,
    Interceptor.initialized (Interceptor.initInterceptor m) = true /\
    (forall n, Nat.iter (S n) Interceptor.initInterceptor m
               = Interceptor.initInterceptor m) /\
    (Interceptor.initialized m = false ->
     forall c k, Interceptor.config m = Some c ->
       Interceptor.interceptors c = Some k ->
       forall n, exists c',
         Interceptor.config (Nat.iter (S n) Interceptor.initInterceptor m) = Some c' /\
         Interceptor.interceptors c' = Some (S k)) /\
    (Interceptor.initialized m = false ->
     forall c, Interceptor.config m = Some c ->
       Interceptor.interceptors c = None ->
       forall n c', Interceptor.config (Nat.iter n Interceptor.initInterceptor m) = Some c' ->
                    Interceptor.interceptors c' = None).
Proof.
  intros m.
  assert (Hinit : Interceptor.initialized (Interceptor.initInterceptor m) = true).
  { unfold Interceptor.initInterceptor.
    destruct (Interceptor.initialized m) eqn:E; [exact E|].
    now destruct (Interceptor.config m). }
  assert (Hidem : forall x, Interceptor.initialized x = true ->
                            Interceptor.initInterceptor x = x).
  { intros x Hx. unfold Interceptor.initInterceptor. now rewrite Hx. }
  assert (Hiter : forall n, Nat.iter (S n) Interceptor.initInterceptor m
                            = Interceptor.initInterceptor m).
  { induction n as [|n IH]; [reflexivity|].
    change (Nat.iter (S (S n)) Interceptor.initInterceptor m)
      with (Interceptor.initInterceptor (Nat.iter (S n) Interceptor.initInterceptor m)).
    rewrite IH. now apply Hidem. }
  split; [exact Hinit|]. split; [exact Hiter|]. split.
  - intros Hm c k Hc Hk n. rewrite Hiter.
    unfold Interceptor.initInterceptor. rewrite Hm, Hc, Hk. simpl. eauto.
  - intros Hm c Hc Hk n c'. destruct n as [|n].
    + simpl. rewrite Hc. now intros [= <-].
    + rewrite Hiter. unfold Interceptor.initInterceptor. rewrite Hm, Hc, Hk. simpl.
      now intros [= <-].
Qed.

(** ** Subscribing and unsubscribing *)

Lemma set_has_members l s : MetricBus.set_has l s = true <-> In l (MetricBus.members s).
Proof.
  unfold MetricBus.set_has. induction s as [|[x|] s IH]; simpl.
  - split; [discriminate|tauto].
  - rewrite orb_true_iff, IH, Nat.eqb_eq. tauto.
  - exact IH.
Qed.

Lemma members_app s t :
  MetricBus.members (s ++ t) = MetricBus.members s ++ MetricBus.members t.
Proof.
  induction s as [|[x|] s IH]; simpl; [reflexivity| |]; now rewrite IH.
Qed.

Lemma members_set_delete l s :
  MetricBus.members (MetricBus.set_delete l s)
  = filter (fun x => negb (Nat.eqb x l)) (MetricBus.members s).
Proof.
  unfold MetricBus.set_delete. induction s as [|[x|] s IH]; simpl; [reflexivity| |].
  - destruct (Nat.eqb x l); simpl; now rewrite IH.
  - exact IH.
Qed.

Lemma filter_absent l (xs : list nat) :
  ~ In l xs -> filter (fun x => negb (Nat.eqb x l)) xs = xs.
Proof.
  induction xs as [|x xs IH]; simpl; [reflexivity|]. intros Hn.
  destruct (Nat.eqb x l) eqn:E.
  - apply Nat.eqb_eq in E. tauto.
  - simpl. f_equal. apply IH. tauto.
Qed.

(** X9. The listener set holds a callback at most once, however it is used.
    [subscribeToMetrics] puts the callback last unless it is there already
    (then nothing changes); the returned function removes it and nothing
    else.  Subscribing and unsubscribing a new callback restores the
    subscription list; unsubscribing a callback that was subscribed before
    cancels that earlier subscription too. *)
Theorem subscribe_unsubscribe_round_trip :
  forall callback listeners,
    NoDup (MetricBus.members listeners) ->
    let subscribed := fst (MetricBus.subscribeToMetrics callback listeners) in
    let unsubscribe := snd (MetricBus.subscribeToMetrics callback listeners) in
    NoDup (MetricBus.members subscribed) /\
    NoDup (MetricBus.members (unsubscribe subscribed)) /\
    MetricBus.members subscribed
      = (if in_dec Nat.eq_dec callback (MetricBus.members listeners)
         then MetricBus.members listeners
         else MetricBus.members listeners ++ [callback]) /\
    ~ In callback (MetricBus.members (unsubscribe subscribed)) /\
    (forall x, x <> callback ->
       (In x (MetricBus.members (unsubscribe subscribed))
        <-> In x (MetricBus.members listeners))) /\
    (~ In callback (MetricBus.members listeners) ->
     MetricBus.members (unsubscribe subscribed) = MetricBus.members listeners) /\
    fst (MetricBus.subscribeToMetrics callback subscribed) = subscribed.
Proof.
  intros callback listeners Hnd subscribed unsubscribe.
  assert (Hmem : MetricBus.members subscribed
                 = if in_dec Nat.eq_dec callback (MetricBus.members listeners)
                   then MetricBus.members listeners
                   else MetricBus.members listeners ++ [callback]).
  { unfold subscribed. simpl. unfold MetricBus.set_add.
    destruct (in_dec Nat.eq_dec callback (MetricBus.members listeners)) as [Hin|Hn].
    - apply set_has_members in Hin. now rewrite Hin.
    - destruct (MetricBus.set_has callback listeners) eqn:E.
      + apply set_has_members in E. contradiction.
      + now rewrite members_app. }
  assert (Hnd1 : NoDup (MetricBus.members subscribed)).
  { rewrite Hmem. destruct (in_dec Nat.eq_dec callback (MetricBus.members listeners));
      [exact Hnd|].
    apply NoDup_app; [exact Hnd|repeat constructor; intros []|].
    intros x Hx [<-|[]]. contradiction. }
  assert (Hun : MetricBus.members (unsubscribe subscribed)
                = filter (fun x => negb (Nat.eqb x callback)) (MetricBus.members listeners)).
  { unfold unsubscribe. simpl. rewrite members_set_delete. fold subscribed.
    rewrite Hmem. destruct (in_dec Nat.eq_dec callback (MetricBus.members listeners));
      [reflexivity|].
    rewrite filter_app. simpl. rewrite Nat.eqb_refl. simpl. apply app_nil_r. }
  split; [exact Hnd1|]. split; [rewrite Hun; now apply NoDup_filter|].
  split; [exact Hmem|]. split; [|split; [|split]].
  - rewrite Hun. intros Hin. apply filter_In in Hin as [_ H].
    rewrite Nat.eqb_refl in H. discriminate.
  - intros x Hx. rewrite Hun, filter_In, negb_true_iff, Nat.eqb_neq. tauto.
  - intros Hn. rewrite Hun. now apply filter_absent.
  - assert (Hhas : MetricBus.set_has callback subscribed = true).
    { apply set_has_members. rewrite Hmem.
      destruct (in_dec Nat.eq_dec callback (MetricBus.members listeners)); [assumption|].
      apply in_or_app. right. now left. }
    cbn [MetricBus.subscribeToMetrics fst]. unfold MetricBus.set_add at 1.
    now rewrite Hhas.
Qed.

Lemma subscribe_unsubscribe_witness :
  MetricBus.members
    (snd (MetricBus.subscribeToMetrics 3%nat two_listeners)
       (fst (MetricBus.subscribeToMetrics 3%nat two_listeners)))
  = MetricBus.members two_listeners.
Proof.
  refine (proj1 (proj2 (proj2 (proj2 (proj2 (proj2
            (subscribe_unsubscribe_round_trip 3%nat two_listeners _)))))) _).
  - vm_compute. repeat constructor; simpl; intuition discriminate.
  - vm_compute. intuition discriminate.
Defined.

Lemma initInterceptor_witness :
  exists c',
    Interceptor.config (Nat.iter 3 Interceptor.initInterceptor fresh_monitor) = Some c' /\
    Interceptor.interceptors c' = Some 1%nat.
Proof.
  exact (proj1 (proj2 (proj2 (initInterceptor_runs_once fresh_monitor)))
               eq_refl _ 0%nat eq_refl eq_refl 2%nat).
Defined.

(** ** The idle waiter in general *)

Module IdleWaiterBounds.
Import IdleWaiter.

(** A positive answer rests on two idle observations: one in a poll that
    began before the deadline, and the re-check 800ms (plus lateness)
    later. *)
Lemma loop_true_is_confirmed env start timeout :
  forall fuel now k t k',
    waitForIdle_loop fuel env start timeout now k = Some (true, t, k') ->
    exists j t0,
      (k <= j)%nat /\ k' = S (S j) /\ now <= t0 /\ t0 - start < timeout /\
      t = t0 + 200 + Z.of_nat (late (env j)) + 800 + Z.of_nat (late (env (S j))) /\
      idle_at_poll (env j) = true /\ idle_at_recheck (env (S j)) = true.
Proof.
  induction fuel as [|fuel IH]; intros now k t k' H; [discriminate|].
  simpl in H. destruct (now - start <? timeout) eqn:E; [|discriminate].
  apply Z.ltb_lt in E.
  destruct (view_busy (env k)) eqn:Ev.
  { apply IH in H as (j & t0 & Hj & Hk' & Ht0 & Hd & Ht & Hi).
    exists j, t0. repeat split; try tauto; lia. }
  destruct (layersBusy (env k)) eqn:El.
  { apply IH in H as (j & t0 & Hj & Hk' & Ht0 & Hd & Ht & Hi).
    exists j, t0. repeat split; try tauto; lia. }
  destruct (negb (view_busy (env (S k))) && _) eqn:Er.
  - injection H as <- <-. exists k, now.
    repeat split; try lia.
    + unfold idle_at_poll. now rewrite Ev, El.
    + exact Er.
  - apply IH in H as (j & t0 & Hj & Hk' & Ht0 & Hd & Ht & Hi).
    exists j, t0. repeat split; try tauto; lia.
Qed.

(** Whatever the signals do, the answer comes no later than one poll and one
    settlement after the deadline, and a negative answer never comes before
    the deadline. *)
Lemma loop_bounds env start timeout J :
  (forall i, Z.of_nat (late (env i)) <= J) ->
  forall fuel now k b t k',
    waitForIdle_loop fuel env start timeout now k = Some (b, t, k') ->
    now <= t /\
    (b = false -> timeout <= t - start) /\
    (timeout <= now - start -> b = false /\ t = now) /\
    (now - start < timeout -> t - start < timeout + 1000 + 2 * J).
Proof.
  intros HJ. induction fuel as [|fuel IH]; intros now k b t k' H; [discriminate|].
  simpl in H. destruct (now - start <? timeout) eqn:E.
  - apply Z.ltb_lt in E.
    pose proof (HJ k) as HJk. pose proof (HJ (S k)) as HJk1.
    assert (Hcont : forall now' k0,
               now <= now' -> now' <= now + 1000 + 2 * J ->
               waitForIdle_loop fuel env start timeout now' k0 = Some (b, t, k') ->
               now <= t /\ (b = false -> timeout <= t - start) /\
               (timeout <= now - start -> b = false /\ t = now) /\
               (now - start < timeout -> t - start < timeout + 1000 + 2 * J)).
    { intros now' k0 Hle Hup Hrec.
      destruct (IH _ _ _ _ _ Hrec) as (H1 & H2 & H3 & H4).
      split; [lia|]. split; [exact H2|]. split; [lia|]. intros _.
      destruct (Z_lt_ge_dec (now' - start) timeout) as [Hlt|Hge]; [now apply H4|].
      destruct H3 as [_ ->]; lia. }
    destruct (view_busy (env k)); [eapply Hcont; [| |exact H]; lia|].
    destruct (layersBusy (env k)); [eapply Hcont; [| |exact H]; lia|].
    destruct (negb (view_busy (env (S k))) && _).
    + injection H as <- <- <-. split; [lia|]. split; [discriminate|].
      split; [lia|]. intros _. lia.
    + eapply Hcont; [| |exact H]; lia.
  - apply Z.ltb_ge in E. injection H as <- <- <-.
    split; [lia|]. split; [lia|]. split; [auto|lia].
Qed.
End IdleWaiterBounds.

(** X10. [waitForIdle] answers true only on a confirmed idle state: some poll
    that began before the deadline saw the view and all layers idle, and the
    re-check one settlement period later saw them idle again.  If the first
    poll and its re-check are idle and the timeout is positive, the answer
    is true after 200 + 800 ms plus the lateness of the two timers. *)
Theorem waitForIdle_true_means_confirmed_idle :
  forall env timeout now k,
    (forall fuel t k',
       IdleWaiter.waitForIdle fuel env timeout now k = Some (true, t, k') ->
       exists j t0,
         (k <= j)%nat /\ k' = S (S j) /\ now <= t0 /\ t0 - now < timeout /\
         t = t0 + 200 + Z.of_nat (IdleWaiter.late (env j)) + 800
             + Z.of_nat (IdleWaiter.late (env (S j))) /\
         idle_at_poll (env j) = true /\ idle_at_recheck (env (S j)) = true) /\
    (0 < timeout ->
     idle_at_poll (env k) = true -> idle_at_recheck (env (S k)) = true ->
     forall fuel, (1 <= fuel)%nat ->
       IdleWaiter.waitForIdle fuel env timeout now k
       = Some (true,
               now + 200 + Z.of_nat (IdleWaiter.late (env k)) + 800
               + Z.of_nat (IdleWaiter.late (env (S k))),
               S (S k))).
Proof.
  intros env timeout now k. split.
  - intros fuel t k' H. now apply (IdleWaiterBounds.loop_true_is_confirmed env now timeout fuel).
  - intros Ht Hp Hr fuel Hf. destruct fuel as [|fuel]; [lia|].
    unfold IdleWaiter.waitForIdle. simpl.
    replace (now - now <? timeout) with true by (symmetry; apply Z.ltb_lt; lia).
    unfold idle_at_poll in Hp. apply andb_prop in Hp as [Hv Hl].
    apply negb_true_iff in Hv, Hl. rewrite Hv, Hl.
    unfold idle_at_recheck in Hr. rewrite Hr. reflexivity.
Qed.

Lemma waitForIdle_confirmed_idle_witness :
  IdleWaiter.waitForIdle 3 always_idle 15000 1000 0 = Some (true, 2010, 2%nat).
Proof.
  exact (proj2 (waitForIdle_true_means_confirmed_idle always_idle 15000 1000 0)
               ltac:(lia) eq_refl eq_refl 3%nat ltac:(lia)).
Defined.

(** X11. [waitForIdle] always answers (given fuel for timeout/200 + 2 polls),
    whatever the signals do; the clock at the answer is less than timeout +
    1000ms + twice the largest timer lateness after the call; the answer
    false is never given before the timeout has passed; with a timeout that
    is not positive it is false at once. *)
Theorem waitForIdle_answers_within_timeout_plus_settlement :
  forall env timeout now k fuel J,
    (IdleWaiter.enough_polls timeout <= fuel)%nat ->
    (forall i, Z.of_nat (IdleWaiter.late (env i)) <= J) ->
    exists b t k',
      IdleWaiter.waitForIdle fuel env timeout now k = Some (b, t, k') /\
      now <= t /\
      t - now < Z.max timeout 0 + 1000 + 2 * J /\
      (b = false -> timeout <= t - now) /\
      (timeout <= 0 -> b = false /\ t = now).
Proof.
  intros env timeout now k fuel J Hfuel HJ.
  destruct (IdleWaiterFacts.waitForIdle_returns env timeout now k fuel Hfuel)
    as (b & t & k' & H).
  exists b, t, k'. split; [exact H|].
  destruct (IdleWaiterBounds.loop_bounds env now timeout J HJ fuel now k b t k' H)
    as (H1 & H2 & H3 & H4).
  assert (0 <= J) by (specialize (HJ 0%nat); lia).
  split; [exact H1|]. split; [|split; [exact H2|]].
  - destruct (Z_lt_ge_dec (now - now) timeout) as [Hlt|Hge].
    + specialize (H4 Hlt). lia.
    + destruct H3 as [_ ->]; lia.
  - intros Hneg. apply H3. lia.
Qed.

Lemma waitForIdle_answers_witness :
  exists b t k',
    IdleWaiter.waitForIdle 10 always_busy 1000 5000 0 = Some (b, t, k') /\
    t - 5000 < 1000 + 1000 + 2 * 3.
Proof.
  destruct (waitForIdle_answers_within_timeout_plus_settlement
              always_busy 1000 5000 0 10 3)
    as (b & t & k' & H & _ & Hup & _).
  - vm_compute. lia.
  - intros i. simpl. lia.
  - exists b, t, k'. split; [exact H|]. lia.
Defined.

(** ** The map event detector *)

Module EventDetectorFacts.
Import EventDetector.

Lemma effect_history agg r st :
  history (mapEventEffect agg r st) = history st \/
  (isRecording r = true /\ isMapUpdating r = false /\ prevUpdatingRef st = true /\
   isRunningBenchmark r = false /\ some_traffic agg = true /\
   history (mapEventEffect agg r st)
   = history st ++ [snapshot (List.length (history st)) (clock r) agg]).
Proof.
  unfold mapEventEffect.
  destruct (isRecording r); simpl; [|now left].
  destruct (isMapUpdating r), (prevUpdatingRef st), (isRunningBenchmark r); simpl;
    try (now left).
  destruct (some_traffic agg); simpl; [right; repeat split|now left].
Qed.

Lemma effect_rawMetrics agg r st :
  rawMetrics (mapEventEffect agg r st) = rawMetrics st \/
  (isRecording r = true /\ isMapUpdating r = true /\ prevUpdatingRef st = false /\
   isRunningBenchmark r = false /\ rawMetrics (mapEventEffect agg r st) = []).
Proof.
  unfold mapEventEffect.
  destruct (isRecording r); simpl; [|now left].
  destruct (isMapUpdating r), (prevUpdatingRef st), (isRunningBenchmark r); simpl;
    try (now left); try (destruct (some_traffic agg); now left).
  right. repeat split.
Qed.

Lemma numbered_snoc history h :
  numbered history -> MEH.id h = Z.of_nat (List.length history) + 1 ->
  numbered (history ++ [h]).
Proof.
  intros Hn Hh i x Hi.
  destruct (Nat.lt_ge_cases i (List.length history)) as [Hlt|Hge].
  - rewrite nth_error_app1 in Hi by assumption. now apply Hn.
  - rewrite nth_error_app2 in Hi by assumption.
    destruct (i - List.length history)%nat as [|n] eqn:E; simpl in Hi.
    + injection Hi as <-. rewrite Hh. f_equal. lia.
    + destruct n; discriminate.
Qed.

Lemma numbered_nil : numbered [].
Proof. intros [|i] h H; discriminate. Qed.

Section Traces.
Variable URL_hostname : string -> option string.

Lemma step_history e st st' :
  step URL_hostname e st = Some st' ->
  numbered (history st) ->
  numbered (history st') /\
  (e <> ResetPressed -> exists new, history st' = history st ++ new).
Proof.
  intros Hs Hn. destruct e as [r|recording metric|]; simpl in Hs.
  - unfold render_effect in Hs.
    destruct (calculateMetrics URL_hostname (layers r) (rawMetrics st)) as [agg|];
      [|discriminate].
    injection Hs as <-.
    destruct (effect_history agg r st) as [->|(_ & _ & _ & _ & _ & ->)].
    + split; [exact Hn|]. intros _. exists []. now rewrite app_nil_r.
    + split; [now apply numbered_snoc|]. intros _. eauto.
  - injection Hs as <-. destruct recording; simpl;
      (split; [exact Hn|intros _; exists []; now rewrite app_nil_r]).
  - injection Hs as <-. simpl. split; [apply numbered_nil|congruence].
Qed.
End Traces.
End EventDetectorFacts.

(** X12. Over any sequence of renders, published metrics and resets that the
    component survives, the event log stays numbered 1, 2, 3, ... in order;
    and as long as Reset is not pressed it only grows at its end: the
    entries recorded before are still there, unchanged and in place. *)
Theorem event_history_is_append_only_and_numbered :
  forall URL_hostname events st st',
    EventDetector.run URL_hostname events st = Some st' ->
    numbered (EventDetector.history st) ->
    numbered (EventDetector.history st') /\
    ((forall e, In e events -> e <> EventDetector.ResetPressed) ->
     exists new,
       EventDetector.history st' = EventDetector.history st ++ new).
Proof.
  intros URL_hostname events. induction events as [|e events IH]; intros st st' H Hn.
  - injection H as <-. split; [exact Hn|]. intros _. exists []. now rewrite app_nil_r.
  - simpl in H. destruct (EventDetector.step URL_hostname e st) as [st1|] eqn:Es;
      [|discriminate].
    destruct (EventDetectorFacts.step_history URL_hostname e st st1 Es Hn) as [Hn1 Hp1].
    destruct (IH st1 st' H Hn1) as [Hn' Hp']. split; [exact Hn'|].
    intros Hno. destruct Hp1 as [new1 E1]; [apply Hno; now left|].
    destruct Hp' as [new2 E2]; [intros e' He'; apply Hno; now right|].
    exists (new1 ++ new2). now rewrite E2, E1, app_assoc.
Qed.

Module EventDetectorTraffic.
Import EventDetector.

Lemma In_slice_last {A} n (l : list A) x : In x (slice_last n l) -> In x l.
Proof.
  unfold slice_last. intros H.
  rewrite <- (firstn_skipn (List.length l - n) l). apply in_or_app. now right.
Qed.

Section Traffic.
Variable URL_hostname : string -> option string.

Lemma run_app a : forall b st,
  run URL_hostname (a ++ b) st
  = match run URL_hostname a st with
    | Some st1 => run URL_hostname b st1
    | None => None
    end.
Proof.
  induction a as [|e a IH]; intros b st; simpl; [reflexivity|].
  destruct (step URL_hostname e st); [apply IH|reflexivity].
Qed.

(** Publishing metrics touches the buffer only. *)
Lemma run_published recording ms : forall st,
  exists st',
    run URL_hostname (map (Published recording) ms) st = Some st' /\
    prevUpdatingRef st' = prevUpdatingRef st /\
    history st' = history st /\
    (forall m, In m (rawMetrics st') -> In m (rawMetrics st) \/ In m ms).
Proof.
  induction ms as [|m ms IH]; intros st; simpl.
  - exists st. repeat split. now left.
  - set (st1 := if recording then _ else st).
    destruct (IH st1) as (st' & Hr & Hp & Hh & Hm). exists st'.
    split; [exact Hr|]. subst st1. destruct recording; simpl in *.
    + split; [exact Hp|]. split; [exact Hh|].
      intros x Hx. destruct (Hm x Hx) as [H|H]; [|now right; right].
      apply in_app_or in H. destruct H as [H|[<-|[]]].
      * left. eapply In_slice_last; eassumption.
      * right. now left.
    + split; [exact Hp|]. split; [exact Hh|].
      intros x Hx. destruct (Hm x Hx); [now left|now right; right].
Qed.

Lemma no_traffic_aggregate layers metrics agg :
  calculateMetrics URL_hostname layers metrics = Some agg ->
  no_layer_traffic layers metrics ->
  some_traffic agg = false.
Proof.
  intros Hc Hno. unfold calculateMetrics in Hc.
  destruct (calculateMetrics_on_spec _ _ _ _ Hc) as (_ & _ & Hall).
  unfold some_traffic. apply not_true_is_false. intros He.
  apply existsb_exists in He. destruct He as (s & Hs & Hpos).
  rewrite Forall_forall in Hall.
  destruct (Hall s Hs) as (Hreq & Hcount & _).
  rewrite Hcount, Hreq in Hpos. apply Z.ltb_lt in Hpos.
  destruct (attributed_to (metricLayers layers) (LPS.id s) metrics) as [|m rest] eqn:E;
    [simpl in Hpos; lia|].
  assert (Hin : In m (attributed_to (metricLayers layers) (LPS.id s) metrics))
    by (rewrite E; now left).
  apply filter_In in Hin. destruct Hin as [Hm Hatt].
  apply attributed_first_match in Hatt.
  destruct Hatt as (l & (before & after & Hl & Hmatch & _) & _).
  rewrite (Hno m l Hm) in Hmatch; [discriminate|].
  rewrite Hl. apply in_or_app. right. now left.
Qed.

Lemma traffic_aggregate layers metrics agg m l :
  calculateMetrics URL_hostname layers metrics = Some agg ->
  In m metrics -> In l (metricLayers layers) -> url_matches m l = true ->
  some_traffic agg = true.
Proof.
  intros Hc Hm Hl Hmatch. unfold calculateMetrics in Hc.
  destruct (matchedLayer (metricLayers layers) m) as [l'|] eqn:E.
  - assert (Hl' : In l' (metricLayers layers)) by (eapply find_some; eassumption).
    destruct (summary_of_layer _ _ _ _ _ Hc Hl')
      as (s & Hs & Hid & _ & Hreq & Hcount & _).
    unfold some_traffic. apply existsb_exists. exists s. split; [exact Hs|].
    apply Z.ltb_lt. rewrite Hcount, Hreq.
    assert (Hin : In m (attributed_to (metricLayers layers) (LPS.id s) metrics)).
    { apply filter_In. split; [exact Hm|]. unfold attributed. rewrite E, Hid.
      apply String.eqb_refl. }
    destruct (attributed_to _ _ _); [destruct Hin|simpl; lia].
  - unfold matchedLayer in E.
    now rewrite (find_none _ _ E l Hl) in Hmatch.
Qed.

Lemma fold_dict_set_keep {A V} (key : A -> string) (g : A -> V) xs : forall d k,
  ~ In k (map key xs) ->
  dict_get k (fold_left (fun d a => dict_set (key a) (g a) d) xs d) = dict_get k d.
Proof.
  induction xs as [|x xs IH]; intros d k Hk; simpl; [reflexivity|].
  rewrite IH by (intros H; apply Hk; now right).
  rewrite dict_get_set. destruct (String.eqb (key x) k) eqn:E; [|reflexivity].
  apply String.eqb_eq in E. exfalso. apply Hk. now left.
Qed.

Lemma fold_dict_set_last {A V} (key : A -> string) (g : A -> V) xs : forall d x,
  NoDup (map key xs) -> In x xs ->
  dict_get (key x) (fold_left (fun d a => dict_set (key a) (g a) d) xs d)
  = Some (g x).
Proof.
  induction xs as [|a xs IH]; intros d x Hnd Hx; [destruct Hx|].
  simpl in Hnd. inversion Hnd as [|? ? Hnot Hnd']; subst.
  destruct Hx as [->|Hx]; simpl.
  - rewrite fold_dict_set_keep by assumption.
    rewrite dict_get_set. now rewrite String.eqb_refl.
  - now apply IH.
Qed.
End Traffic.
End EventDetectorTraffic.

(** The event log of a session that recorded one map event. *)
Lemma event_history_witness :
  numbered (EventDetector.history EventDetector.initial) /\
  EventDetector.run example_hostname
    (EventDetector.Rendered render_busy
       :: map (EventDetector.Published true) batchA
       ++ [EventDetector.Rendered render_idle])
    EventDetector.initial
  = Some (EventDetector.mkState false batchA
            [MEH.mk 1 "10:00:02" [("X", seconds 300)]]) /\
  numbered [MEH.mk 1 "10:00:02" [("X", seconds 300)]].
Proof.
  assert (Hrun : EventDetector.run example_hostname
            (EventDetector.Rendered render_busy
               :: map (EventDetector.Published true) batchA
               ++ [EventDetector.Rendered render_idle])
            EventDetector.initial
          = Some (EventDetector.mkState false batchA
                    [MEH.mk 1 "10:00:02" [("X", seconds 300)]]))
    by (vm_compute; reflexivity).
  split; [apply EventDetectorFacts.numbered_nil|]. split; [exact Hrun|].
  exact (proj1 (event_history_is_append_only_and_numbered _ _ _ _ Hrun
                  EventDetectorFacts.numbered_nil)).
Defined.

(** X13. A map event during which no request matched a tracked layer leaves no
    entry in the log, whatever the buffer held before the event: the buffer
    is emptied when the view turns busy, so only the requests published
    during the event count when it turns idle again. *)
Theorem map_event_without_layer_traffic_is_not_recorded :
  forall URL_hostname r_busy ms r_idle st st',
    EventDetector.run URL_hostname
      (EventDetector.Rendered r_busy
         :: map (EventDetector.Published true) ms
         ++ [EventDetector.Rendered r_idle]) st = Some st' ->
    EventDetector.isRecording r_busy = true ->
    EventDetector.isMapUpdating r_busy = true ->
    EventDetector.isRunningBenchmark r_busy = false ->
    EventDetector.prevUpdatingRef st = false ->
    no_layer_traffic (EventDetector.layers r_idle) ms ->
    EventDetector.history st' = EventDetector.history st /\
    (forall m, In m (EventDetector.rawMetrics st') -> In m ms).
Proof.
  intros U r_busy ms r_idle st st' Hrun Hrec Hbusy Hbench Hprev Hno.
  cbn [EventDetector.run EventDetector.step] in Hrun.
  unfold EventDetector.render_effect at 1 in Hrun.
  destruct (calculateMetrics U (EventDetector.layers r_busy)
              (EventDetector.rawMetrics st)) as [agg0|]; [|discriminate].
  rewrite EventDetectorTraffic.run_app in Hrun.
  destruct (EventDetectorTraffic.run_published U true ms
              (EventDetector.mapEventEffect agg0 r_busy st))
    as (st2 & Hr2 & Hp2 & Hh2 & Hm2).
  rewrite Hr2 in Hrun.
  unfold EventDetector.mapEventEffect in Hp2, Hh2, Hm2.
  rewrite Hrec, Hbusy, Hbench, Hprev in Hp2, Hh2, Hm2. simpl in Hp2, Hh2, Hm2.
  cbn [EventDetector.run EventDetector.step] in Hrun.
  unfold EventDetector.render_effect in Hrun.
  destruct (calculateMetrics U (EventDetector.layers r_idle)
              (EventDetector.rawMetrics st2)) as [agg|] eqn:Hc; [|discriminate].
  injection Hrun as <-.
  assert (Hin : forall m, In m (EventDetector.rawMetrics st2) -> In m ms).
  { intros m Hm. destruct (Hm2 m Hm) as [[]|H]; exact H. }
  assert (Hquiet : EventDetector.some_traffic agg = false).
  { eapply EventDetectorTraffic.no_traffic_aggregate; [exact Hc|].
    intros m l Hm Hl. apply Hno; [now apply Hin|exact Hl]. }
  split.
  - destruct (EventDetectorFacts.effect_history agg r_idle st2)
      as [->|(_ & _ & _ & _ & Hsome & _)]; [exact Hh2|congruence].
  - intros m Hm.
    destruct (EventDetectorFacts.effect_rawMetrics agg r_idle st2)
      as [E|(_ & _ & _ & _ & E)]; rewrite E in Hm; [now apply Hin|destruct Hm].
Qed.

Lemma map_event_without_layer_traffic_witness :
  EventDetector.history
    (EventDetector.mkState false [stray_metric] []) = [] /\
  EventDetector.run example_hostname
    (EventDetector.Rendered render_busy
       :: map (EventDetector.Published true) [stray_metric]
       ++ [EventDetector.Rendered render_idle])
    (EventDetector.mkState false batchA [])
  = Some (EventDetector.mkState false [stray_metric] []).
Proof.
  assert (Hrun : EventDetector.run example_hostname
            (EventDetector.Rendered render_busy
               :: map (EventDetector.Published true) [stray_metric]
               ++ [EventDetector.Rendered render_idle])
            (EventDetector.mkState false batchA [])
          = Some (EventDetector.mkState false [stray_metric] []))
    by (vm_compute; reflexivity).
  split; [|exact Hrun].
  refine (proj1 (map_event_without_layer_traffic_is_not_recorded
                   _ _ _ _ _ _ Hrun eq_refl eq_refl eq_refl eq_refl _)).
  intros m l [<-|[]] [<-|[]]. vm_compute. reflexivity.
Defined.

(** X14. When the view turns idle after a busy spell, recording is on, no
    benchmark runs and at least one buffered request matches a tracked
    layer, exactly one entry is appended to the log.  Its id is the length
    of the log plus one, and it holds, for every tracked layer and for no
    other key, the layer's load time in seconds: the span of the requests
    of the buffer attributed to the layer, divided by 1000 (0 for a layer
    without requests).  The buffer itself is left as it is. *)
Theorem recorded_map_event_reports_each_layer_span :
  forall URL_hostname r st st' m l,
    EventDetector.render_effect URL_hostname r st = Some st' ->
    EventDetector.isRecording r = true ->
    EventDetector.isMapUpdating r = false ->
    EventDetector.isRunningBenchmark r = false ->
    EventDetector.prevUpdatingRef st = true ->
    In m (EventDetector.rawMetrics st) ->
    In l (metricLayers (EventDetector.layers r)) ->
    url_matches m l = true ->
    exists h,
      EventDetector.history st' = EventDetector.history st ++ [h] /\
      MEH.id h = Z.of_nat (List.length (EventDetector.history st)) + 1 /\
      MEH.timestamp h = EventDetector.clock r /\
      (forall l', In l' (metricLayers (EventDetector.layers r)) ->
         dict_get (ML.id l') (MEH.layerDurations h)
         = Some (seconds (span (attributed_to (metricLayers (EventDetector.layers r))
                                              (ML.id l')
                                              (EventDetector.rawMetrics st))))) /\
      (forall k, dict_get k (MEH.layerDurations h) <> None ->
                 In k (map ML.id (metricLayers (EventDetector.layers r)))) /\
      EventDetector.rawMetrics st' = EventDetector.rawMetrics st /\
      EventDetector.prevUpdatingRef st' = false.
Proof.
  intros U r st st' m l Hr Hrec Hidle Hbench Hprev Hm Hl Hmatch.
  unfold EventDetector.render_effect in Hr.
  destruct (calculateMetrics U (EventDetector.layers r) (EventDetector.rawMetrics st))
    as [agg|] eqn:Hc; [|discriminate].
  injection Hr as <-.
  pose proof (EventDetectorTraffic.traffic_aggregate U _ _ _ _ _ Hc Hm Hl Hmatch)
    as Hsome.
  unfold EventDetector.mapEventEffect.
  rewrite Hrec, Hidle, Hbench, Hprev, Hsome. simpl.
  eexists. split; [reflexivity|]. split; [reflexivity|]. split; [reflexivity|].
  unfold calculateMetrics in Hc.
  destruct (calculateMetrics_on_spec _ _ _ _ Hc) as (Hnd & Hids & _).
  split; [|split; [|split; reflexivity]].
  - intros l' Hl'.
    destruct (summary_of_layer _ _ _ _ _ Hc Hl')
      as (s & Hs & Hid & _ & Hreq & _ & _ & _ & _ & _ & Hload).
    simpl. unfold EventDetector.snapshot_durations.
    rewrite <- Hid.
    rewrite (EventDetectorTraffic.fold_dict_set_last LPS.id
               (fun m0 => (inject_Z (LPS.loadTime m0) / 1000)%Q) agg [] s Hnd Hs).
    unfold seconds. now rewrite Hload, Hreq.
  - intros k Hk. apply Hids.
    destruct (in_dec string_dec k (map LPS.id agg)) as [Hin|Hout]; [exact Hin|].
    exfalso. apply Hk. simpl. unfold EventDetector.snapshot_durations.
    now rewrite (EventDetectorTraffic.fold_dict_set_keep LPS.id
                   (fun m0 => (inject_Z (LPS.loadTime m0) / 1000)%Q) agg [] k Hout).
Qed.

Lemma recorded_map_event_witness :
  exists h,
    EventDetector.history
      (EventDetector.mkState false batchA [MEH.mk 1 "10:00:02" [("X", seconds 300)]])
    = [] ++ [h] /\
    dict_get "X" (MEH.layerDurations h)
    = Some (seconds (span (attributed_to (metricLayers [layerX]) "X" batchA))).
Proof.
  assert (Hrun : EventDetector.render_effect example_hostname render_idle
                   (EventDetector.mkState true batchA [])
                 = Some (EventDetector.mkState false batchA
                           [MEH.mk 1 "10:00:02" [("X", seconds 300)]]))
    by (vm_compute; reflexivity).
  destruct (recorded_map_event_reports_each_layer_span
              example_hostname render_idle _ _
              (request "a1" "https://gis.example.com/ArcGIS/rest/services/X/tile/1" 100 300)
              _ Hrun eq_refl eq_refl eq_refl eq_refl
              (or_introl eq_refl) (or_introl eq_refl) eq_refl)
    as (h & Hh & _ & _ & Hd & _).
  exists h. split; [exact Hh|]. exact (Hd _ (or_introl eq_refl)).
Defined.

(** X15. While a benchmark runs the detector is suspended: however often the
    view turns busy and idle, and whatever is published meanwhile (the
    benchmark holds the recording reference down), the regular buffer is
    neither emptied nor extended and no entry is added to the log. *)
Theorem detector_is_suspended_during_a_benchmark :
  forall URL_hostname events st st',
    forallb benchmark_event events = true ->
    EventDetector.run URL_hostname events st = Some st' ->
    EventDetector.rawMetrics st' = EventDetector.rawMetrics st /\
    EventDetector.history st' = EventDetector.history st.
Proof.
  intros U events. induction events as [|e events IH]; intros st st' Hall Hrun.
  - injection Hrun as <-. now split.
  - simpl in Hall. apply andb_true_iff in Hall. destruct Hall as [He Hall].
    simpl in Hrun.
    destruct (EventDetector.step U e st) as [st1|] eqn:Es; [|discriminate].
    destruct (IH st1 st' Hall Hrun) as [-> ->].
    destruct e as [r|recording metric|]; simpl in He, Es; [| |discriminate].
    + unfold EventDetector.render_effect in Es.
      destruct (calculateMetrics U _ _) as [agg|]; [|discriminate].
      injection Es as <-. split.
      * destruct (EventDetectorFacts.effect_rawMetrics agg r st)
          as [E|(_ & _ & _ & Hb & _)]; [exact E|congruence].
      * destruct (EventDetectorFacts.effect_history agg r st)
          as [E|(_ & _ & _ & Hb & _)]; [exact E|congruence].
    + destruct recording; [discriminate|]. injection Es as <-. now split.
Qed.

Lemma detector_suspended_witness :
  EventDetector.rawMetrics (EventDetector.mkState false batchA []) = batchA /\
  EventDetector.history (EventDetector.mkState false batchA []) = [].
Proof.
  apply (detector_is_suspended_during_a_benchmark example_hostname
           [EventDetector.Rendered
              (EventDetector.mkRender [layerX] true true true "10:00:00");
            EventDetector.Published false stray_metric;
            EventDetector.Rendered render_benchmark_idle]
           (EventDetector.mkState false batchA [])).
  - reflexivity.
  - vm_compute. reflexivity.
Defined.

(** X16. While recording is paused the detector does not even follow the busy
    signal: renders and dropped metrics leave its whole state, the
    remembered busy flag included, as it was.  So the first render after
    the pause acts on the state of before the pause; in particular a busy
    spell that ended during the pause is recorded then, from the buffer of
    before the pause. *)
Theorem detector_ignores_renders_while_paused :
  forall URL_hostname paused r st st',
    forallb paused_event paused = true ->
    EventDetector.run URL_hostname (paused ++ [EventDetector.Rendered r]) st
    = Some st' ->
    EventDetector.render_effect URL_hostname r st = Some st' /\
    (EventDetector.prevUpdatingRef st = true ->
     EventDetector.isRecording r = true ->
     EventDetector.isMapUpdating r = false ->
     EventDetector.isRunningBenchmark r = false ->
     (exists m l, In m (EventDetector.rawMetrics st) /\
                  In l (metricLayers (EventDetector.layers r)) /\
                  url_matches m l = true) ->
     exists h, EventDetector.history st' = EventDetector.history st ++ [h]).
Proof.
  intros U paused r st st' Hall Hrun.
  assert (Hsame : forall st0 st1,
             EventDetector.run U paused st0 = Some st1 -> st1 = st0).
  { clear Hrun. induction paused as [|e paused IH]; intros st0 st1 E.
    - now injection E.
    - simpl in Hall. apply andb_true_iff in Hall. destruct Hall as [He Hall].
      simpl in E.
      destruct (EventDetector.step U e st0) as [st2|] eqn:Es; [|discriminate].
      assert (st2 = st0) as ->.
      { destruct e as [r'|recording metric|]; simpl in He, Es; [| |discriminate].
        - unfold EventDetector.render_effect in Es.
          destruct (calculateMetrics U _ _) as [agg|]; [|discriminate].
          injection Es as <-. unfold EventDetector.mapEventEffect. now rewrite He.
        - destruct recording; [discriminate|]. now injection Es. }
      now apply IH. }
  rewrite EventDetectorTraffic.run_app in Hrun.
  destruct (EventDetector.run U paused st) as [st1|] eqn:E; [|discriminate].
  apply Hsame in E. subst st1.
  cbn [EventDetector.run EventDetector.step] in Hrun.
  assert (Hr : EventDetector.render_effect U r st = Some st').
  { destruct (EventDetector.render_effect U r st); [exact Hrun|discriminate]. }
  split; [exact Hr|].
  intros Hprev Hrec Hidle Hbench (m & l & Hm & Hl & Hmatch).
  unfold EventDetector.render_effect in Hr.
  destruct (calculateMetrics U (EventDetector.layers r) (EventDetector.rawMetrics st))
    as [agg|] eqn:Hc; [|discriminate].
  injection Hr as <-.
  pose proof (EventDetectorTraffic.traffic_aggregate U _ _ _ _ _ Hc Hm Hl Hmatch)
    as Hsome.
  unfold EventDetector.mapEventEffect.
  rewrite Hrec, Hidle, Hbench, Hprev, Hsome. simpl. eauto.
Qed.

Lemma detector_paused_witness :
  EventDetector.render_effect example_hostname render_idle
    (EventDetector.mkState true batchA [])
  = Some (EventDetector.mkState false batchA
            [MEH.mk 1 "10:00:02" [("X", seconds 300)]]).
Proof.
  apply (detector_ignores_renders_while_paused example_hostname
           [EventDetector.Rendered render_paused_idle;
            EventDetector.Published false stray_metric]).
  - reflexivity.
  - vm_compute. reflexivity.
Defined.

(** ** The subscriber of the application *)

Module SubscriberFacts.

Lemma slice_last_snoc {A} n (l : list A) x :
  slice_last n l ++ [x] = slice_last (S n) (l ++ [x]).
Proof.
  unfold slice_last. rewrite length_app. simpl.
  replace (List.length l + 1 - S n)%nat with (List.length l - n)%nat by lia.
  rewrite skipn_app.
  replace (List.length l - n - List.length l)%nat with 0%nat by lia.
  reflexivity.
Qed.

Lemma slice_last_absorbs {A} k (l rest : list A) :
  slice_last k (slice_last k l ++ rest) = slice_last k (l ++ rest).
Proof.
  unfold slice_last. rewrite !length_app, length_skipn.
  set (a := (List.length l - k)%nat).
  replace (List.length l + List.length rest - k)%nat
    with (List.length l - a + List.length rest - k + a)%nat by (unfold a; lia).
  rewrite <- skipn_skipn, (skipn_app a).
  replace (a - List.length l)%nat with 0%nat by (unfold a; lia).
  reflexivity.
Qed.

Lemma slice_last_length {A} k (l : list A) :
  (List.length (slice_last k l) <= k)%nat.
Proof. unfold slice_last. rewrite length_skipn. lia. Qed.

Lemma on_metric_flags st m :
  isRecordingRef (on_metric st m) = isRecordingRef st /\
  isRunningBenchmark (on_metric st m) = isRunningBenchmark st.
Proof.
  unfold on_metric. destruct (isRecordingRef st) eqn:E1; simpl;
    destruct (isRunningBenchmark st) eqn:E2; simpl; auto.
Qed.

Lemma on_metric_rawMetrics st m :
  rawMetrics (on_metric st m)
  = if isRecordingRef st then slice_last 3000 (rawMetrics st) ++ [m]
    else rawMetrics st.
Proof.
  unfold on_metric. destruct (isRecordingRef st); simpl;
    destruct (isRunningBenchmark st); reflexivity.
Qed.

Lemma on_metric_accumulator st m :
  benchmarkMetricsRef (on_metric st m)
  = if isRunningBenchmark st then benchmarkMetricsRef st ++ [m]
    else benchmarkMetricsRef st.
Proof.
  unfold on_metric. destruct (isRecordingRef st); simpl;
    destruct (isRunningBenchmark st); reflexivity.
Qed.
End SubscriberFacts.

(** X17. While recording is on, the buffer of the application holds the latest
    3001 metrics of everything it has received, oldest first: after any
    non-empty burst it is the last 3001 elements of the old buffer followed
    by the burst (the source slices to 3000 before it appends, so the cap
    is 3001 and not 3000), and nothing older is dropped while there is
    room. *)
Theorem recording_buffer_holds_the_latest_3001 :
  forall ms st,
    isRecordingRef st = true ->
    ms <> [] ->
    rawMetrics (fold_left on_metric ms st) = slice_last 3001 (rawMetrics st ++ ms) /\
    (List.length (rawMetrics (fold_left on_metric ms st)) <= 3001)%nat /\
    ((List.length (rawMetrics st) + List.length ms <= 3001)%nat ->
     rawMetrics (fold_left on_metric ms st) = rawMetrics st ++ ms).
Proof.
  assert (Hmain : forall ms st, isRecordingRef st = true -> ms <> [] ->
            rawMetrics (fold_left on_metric ms st)
            = slice_last 3001 (rawMetrics st ++ ms)).
  { induction ms as [|m ms IH]; intros st Hrec Hne; [congruence|].
    cbn [fold_left].
    assert (H1 : rawMetrics (on_metric st m)
                 = slice_last 3001 (rawMetrics st ++ [m])).
    { rewrite SubscriberFacts.on_metric_rawMetrics, Hrec.
      apply SubscriberFacts.slice_last_snoc. }
    destruct ms as [|m' ms'].
    - exact H1.
    - rewrite IH; [|now rewrite (proj1 (SubscriberFacts.on_metric_flags st m))
                   |discriminate].
      rewrite H1, SubscriberFacts.slice_last_absorbs.
      now rewrite <- app_assoc. }
  intros ms st Hrec Hne. rewrite (Hmain ms st Hrec Hne).
  split; [reflexivity|]. split; [apply SubscriberFacts.slice_last_length|].
  intros Hroom. unfold slice_last. rewrite length_app.
  now replace (List.length (rawMetrics st) + List.length ms - 3001)%nat with 0%nat
    by lia.
Qed.

Lemma recording_buffer_witness :
  rawMetrics (fold_left on_metric batchA
                (set_isRecordingRef true (setRawMetrics [stray_metric] idle_app)))
  = stray_metric :: batchA.
Proof.
  apply (recording_buffer_holds_the_latest_3001 batchA
           (set_isRecordingRef true (setRawMetrics [stray_metric] idle_app))).
  - reflexivity.
  - discriminate.
  - simpl. lia.
Defined.

(** X18. The two destinations of a published metric are independent.  While the
    benchmark flag is up the accumulator of the benchmark receives every
    metric, in order and without a cap, whether or not recording is on;
    while it is down the accumulator is not touched.  With both the
    recording reference and the benchmark flag down, published metrics are
    dropped and the state is left as it was. *)
Theorem subscriber_routes_metrics_by_mode :
  forall ms st,
    (isRunningBenchmark st = true ->
     benchmarkMetricsRef (fold_left on_metric ms st) = benchmarkMetricsRef st ++ ms) /\
    (isRunningBenchmark st = false ->
     benchmarkMetricsRef (fold_left on_metric ms st) = benchmarkMetricsRef st) /\
    (isRecordingRef st = false ->
     rawMetrics (fold_left on_metric ms st) = rawMetrics st) /\
    (isRecordingRef st = false -> isRunningBenchmark st = false ->
     fold_left on_metric ms st = st).
Proof.
  induction ms as [|m ms IH]; intros st.
  - simpl. rewrite app_nil_r. repeat split; reflexivity.
  - cbn [fold_left].
    destruct (IH (on_metric st m)) as (Hb & Hnb & Hnr & Hdrop).
    destruct (SubscriberFacts.on_metric_flags st m) as [Fr Fb].
    rewrite Fb in Hb, Hnb, Hdrop. rewrite Fr in Hnr, Hdrop.
    split; [|split; [|split]].
    + intros H. rewrite (Hb H), SubscriberFacts.on_metric_accumulator, H.
      now rewrite <- app_assoc.
    + intros H. now rewrite (Hnb H), SubscriberFacts.on_metric_accumulator, H.
    + intros H. now rewrite (Hnr H), SubscriberFacts.on_metric_rawMetrics, H.
    + intros H1 H2. rewrite (Hdrop H1 H2). unfold on_metric. now rewrite H1, H2.
Qed.

Lemma subscriber_routes_witness :
  fold_left on_metric batchA idle_app = idle_app.
Proof.
  apply (subscriber_routes_metrics_by_mode batchA idle_app); reflexivity.
Defined.

(** ** The benchmark orchestrator: what a run leaves alone *)

Module Frame.

Lemma frames_ret {A} (a : A) : frames (ret a).
Proof. intros st _. reflexivity. Qed.

Lemma frames_throw {A} : frames (@throw A).
Proof. intros st _. reflexivity. Qed.

Lemma frames_gets {A} (f : AppState -> A) : frames (gets f).
Proof. intros st _. reflexivity. Qed.

Lemma frames_lift_option {A} (o : option A) : frames (lift_option o).
Proof. destruct o; [apply frames_ret|apply frames_throw]. Qed.

Lemma frames_await p : frames (await p).
Proof. destruct p; [apply frames_ret|apply frames_throw]. Qed.

Lemma frames_modify f :
  (forall st, isRecordingRef st = false -> regular (f st) = regular st) ->
  frames (modify f).
Proof. intros H st Hst. now apply H. Qed.

Lemma frames_bind {A B} (t : Task A) (k : A -> Task B) :
  frames t -> (forall a, frames (k a)) -> frames (bind t k).
Proof.
  intros Ht Hk st Hst. unfold bind. specialize (Ht st Hst).
  destruct (t st) as [[a|] st1]; simpl in Ht; [|exact Ht].
  rewrite <- Ht. apply Hk.
  unfold regular in Ht. injection Ht as _ _ Href. congruence.
Qed.

Lemma on_metric_regular st m :
  isRecordingRef st = false -> regular (on_metric st m) = regular st.
Proof.
  intros H. unfold on_metric. rewrite H.
  destruct (isRunningBenchmark st); reflexivity.
Qed.

Lemma frames_deliver ms : frames (deliver ms).
Proof.
  apply frames_modify. induction ms as [|m ms IH]; intros st Hst; [reflexivity|].
  simpl. pose proof (on_metric_regular st m Hst) as H1.
  rewrite IH; [exact H1|].
  unfold regular in H1. injection H1 as _ _ Href. congruence.
Qed.

Lemma frames_catch_all ps : frames (catch_all ps).
Proof.
  induction ps as [|p ps IH]; simpl; [apply frames_ret|].
  apply frames_bind.
  - destruct p; simpl; [apply frames_ret|].
    apply frames_bind; [now apply frames_modify|intros; apply frames_ret].
  - intros p'. apply frames_bind; [exact IH|intros; apply frames_ret].
Qed.

Lemma frames_run_action e a : frames (run_action e a).
Proof.
  destruct a; simpl.
  - apply frames_bind; [apply frames_deliver|intros; apply frames_await].
  - apply frames_bind; [apply frames_catch_all|intros qs].
    apply frames_bind; [apply frames_deliver|intros; apply frames_await].
Qed.

Lemma frames_wait_after e ty : frames (wait_after e ty).
Proof.
  destruct ty; simpl; [|apply frames_deliver].
  apply frames_bind; [apply frames_deliver|intros].
  apply frames_bind; intros; apply frames_ret.
Qed.

Section Orchestrator.
Variable URL_hostname : string -> option string.

Lemma frames_run_step mls e step results :
  frames (run_step URL_hostname mls e step results).
Proof.
  unfold run_step.
  apply frames_bind; [now apply frames_modify|intros _].
  apply frames_bind; [now apply frames_modify|intros _].
  apply frames_bind; [apply frames_run_action|intros _].
  apply frames_bind; [apply frames_wait_after|intros _].
  apply frames_bind; [apply frames_gets|intros acc].
  apply frames_bind; [apply frames_lift_option|intros sm].
  apply frames_bind; [apply frames_deliver|intros _]. apply frames_ret.
Qed.

Lemma frames_run_steps mls env steps : forall k results,
  frames (run_steps URL_hostname mls env steps k results).
Proof.
  induction steps as [|s steps IH]; intros k results; simpl; [apply frames_ret|].
  apply frames_bind; [apply frames_run_step|intros; apply IH].
Qed.

Lemma frames_benchmark_try mls env :
  frames (benchmark_try URL_hostname mls env).
Proof.
  unfold benchmark_try.
  apply frames_bind; [now apply frames_modify|intros _].
  apply frames_bind; [apply frames_deliver|intros _].
  apply frames_bind; [apply frames_await|intros _].
  apply frames_bind; [apply frames_ret|intros _].
  apply frames_bind; [apply frames_run_steps|intros results].
  apply frames_bind; [apply frames_lift_option|intros report].
  now apply frames_modify.
Qed.

Lemma steps_results_ext mls env env' steps : forall k,
  (forall j step, nth_error steps j = Some step ->
     step_result URL_hostname mls (step_env env (k + j)) step
     = step_result URL_hostname mls (step_env env' (k + j)) step) ->
  steps_results URL_hostname mls env steps k
  = steps_results URL_hostname mls env' steps k.
Proof.
  induction steps as [|s steps IH]; intros k H; simpl; [reflexivity|].
  pose proof (H 0%nat s eq_refl) as H0. rewrite Nat.add_0_r in H0. rewrite H0.
  rewrite (IH (S k)); [reflexivity|].
  intros j step Hj. specialize (H (S j) step Hj).
  now rewrite Nat.add_succ_r in H.
Qed.
End Orchestrator.
End Frame.

(** X19. Whatever happens during a benchmark run that has a view (it may
    complete or fail at any step), the regular side of the application is
    put back.  No metric published during the run reaches the regular
    buffer; the recording reference has its value of before the run; the
    running flag is down and the progress text is empty.  The recording
    flag shown to the user is restored from the reference, not from its own
    earlier value, so the two agree after the run even if they did not
    before. *)
Theorem benchmark_run_restores_the_regular_state :
  forall URL_hostname layers env st,
    view_available env = true ->
    rawMetrics (runBenchmark URL_hostname layers env st) = rawMetrics st /\
    isRecordingRef (runBenchmark URL_hostname layers env st) = isRecordingRef st /\
    isRecording (runBenchmark URL_hostname layers env st) = isRecordingRef st /\
    isRunningBenchmark (runBenchmark URL_hostname layers env st) = false /\
    benchmarkProgress (runBenchmark URL_hostname layers env st) = ""%string.
Proof.
  intros U layers env st Hv. unfold runBenchmark. rewrite Hv. cbn [negb].
  pose proof (Frame.frames_benchmark_try U (metricLayers layers) env
                (prepare st) eq_refl) as Hf.
  destruct (benchmark_try U (metricLayers layers) env (prepare st)) as [r st1].
  unfold regular in Hf. simpl in Hf. injection Hf as Hraw Hrec Href.
  unfold conclude.
  destruct (isRecordingRef st) eqn:Eref, r; simpl;
    repeat split; try assumption; reflexivity.
Qed.

Lemma benchmark_run_restores_witness :
  regular (runBenchmark example_hostname [layerD_A; layerD_B]
             scenario_D_noisy_run recording_app)
  = regular recording_app.
Proof.
  destruct (benchmark_run_restores_the_regular_state example_hostname
              [layerD_A; layerD_B] scenario_D_noisy_run recording_app eq_refl)
    as (H1 & H2 & H3 & _).
  unfold regular. now rewrite H1, H2, H3.
Defined.

(** X20. The report of a run depends only on what the run measures: the date,
    how the setup navigation and the ten navigation steps settle, and the
    metrics published while each step's action is pending and while the
    step waits.  It does not depend on the state the application was in, on
    whether [waitForIdle] ever confirmed an idle view (a timeout is not
    noticed), on the outcomes of the layer queries, or on metrics published
    during the setup or during the pauses between steps. *)
Theorem benchmark_report_depends_only_on_step_measurements :
  forall URL_hostname layers env env' st st',
    view_available env = true -> view_available env' = true ->
    same_measured_world env env' ->
    benchmarkReport (runBenchmark URL_hostname layers env st)
    = benchmarkReport (runBenchmark URL_hostname layers env' st').
Proof.
  intros U layers env env' st st' Hv Hv' (Hsetup & Hdate & Harr & Hgo).
  rewrite (proj1 (runBenchmark_report U layers env st Hv)).
  rewrite (proj1 (runBenchmark_report U layers env' st' Hv')).
  unfold benchmark_outcome. rewrite <- Hsetup.
  destruct (setup_goTo env); [|reflexivity].
  rewrite (Frame.steps_results_ext U (metricLayers layers) env env' allSteps 0).
  - destruct (steps_results U (metricLayers layers) env' allSteps 0) as [results|];
      [|reflexivity].
    unfold make_report. now rewrite Hdate.
  - intros j step Hj. simpl. unfold step_result.
    assert (Hlt : (j < 15)%nat).
    { destruct (allSteps_actions j step Hj) as [[H _]|[H _]]; lia. }
    destruct (Harr j Hlt) as [-> ->].
    destruct (allSteps_actions j step Hj) as [[Hj10 (z & c & ->)]|[_ ->]]; simpl.
    + now rewrite (Hgo j Hj10).
    + reflexivity.
Qed.

Lemma benchmark_report_independence_witness :
  benchmarkReport (runBenchmark example_hostname [layerD_A; layerD_B]
                     scenario_D_run idle_app)
  = benchmarkReport (runBenchmark example_hostname [layerD_A; layerD_B]
                       scenario_D_noisy_run recording_app).
Proof.
  apply benchmark_report_depends_only_on_step_measurements; [reflexivity..|].
  split; [reflexivity|]. split; [reflexivity|]. split.
  - intros k Hk. simpl. destruct (Nat.ltb k 10); split; reflexivity.
  - intros k Hk. simpl. destruct (Nat.ltb k 10); reflexivity.
Defined.

(** ** The benchmark orchestrator: the summary in terms of the steps *)

Module SummaryFacts.

Lemma total_requestCount_sum xs :
  total_requestCount xs = Zsum (map LSM.requestCount xs).
Proof.
  unfold total_requestCount, Zsum.
  assert (H : forall acc,
             fold_left (fun acc curr => acc + LSM.requestCount curr) xs acc
             = acc + fold_right Z.add 0 (map LSM.requestCount xs)).
  { induction xs as [|x xs IH]; intros acc; simpl; [lia|]. rewrite IH. lia. }
  now rewrite H.
Qed.

Lemma total_loadTime_sum xs :
  total_loadTime xs = sum_from_left (map LSM.loadTime xs).
Proof.
  unfold total_loadTime, sum_from_left. generalize 0%float.
  induction xs as [|x xs IH]; intros acc; simpl; [reflexivity|apply IH].
Qed.

Section Steps.
Variable URL_hostname : string -> option string.

Lemma layer_step_metric_measured mls arrived sm l :
  calculateMetrics_on URL_hostname mls arrived = Some sm ->
  In l mls ->
  layer_step_metric sm l
  = LSM.mk (JSNumber.of_Z (span (attributed_to mls (ML.id l) arrived)) / 1000)%float
           (Z.of_nat (List.length (attributed_to mls (ML.id l) arrived))).
Proof.
  intros Hc Hl.
  destruct (summary_of_layer _ _ _ _ _ Hc Hl)
    as (s & Hs & Hid & Huniq & Hreq & Hcount & _ & _ & _ & _ & Hload).
  unfold layer_step_metric.
  destruct (find (fun s0 => String.eqb (LPS.id s0) (ML.id l)) sm) as [s'|] eqn:Ef.
  - apply find_some in Ef. destruct Ef as [Hs' Eid]. apply String.eqb_eq in Eid.
    rewrite (Huniq s' Hs' Eid).
    now rewrite Hload, Hcount, Hreq, Hid.
  - pose proof (find_none _ _ Ef s Hs) as Hn. simpl in Hn.
    rewrite Hid, String.eqb_refl in Hn. discriminate.
Qed.

Lemma steps_results_layer_steps mls env l ty steps : forall k results,
  steps_results URL_hostname mls env steps k = Some results ->
  In l mls ->
  layer_steps ty results (ML.id l)
  = Some (map (measured mls (ML.id l) env) (step_indices ty steps k)).
Proof.
  induction steps as [|s steps IH]; intros k results H Hl; simpl in H.
  - injection H as <-. reflexivity.
  - destruct (step_result URL_hostname mls (step_env env k) s) as [x|] eqn:Ex;
      [|discriminate].
    destruct (steps_results URL_hostname mls env steps (S k)) as [rs|] eqn:Ers;
      [|discriminate].
    injection H as <-. specialize (IH (S k) rs Ers Hl).
    apply step_result_Some in Ex. destruct Ex as (_ & sm & Hsm & ->).
    unfold layer_steps in IH |- *. cbn [filter BSR.type step_indices].
    destruct (StepType_eqb (Step.type s) ty); [|exact IH].
    cbn [map BSR.layerMetrics all_defined].
    rewrite (resultLayerMetrics_get mls sm l Hl), IH.
    rewrite (layer_step_metric_measured _ _ _ _ Hsm Hl). reflexivity.
Qed.
End Steps.
End SummaryFacts.

(** X21. The summary of a report, end to end.  For every tracked layer the
    entry of the summary is made of what the fifteen steps measured, where
    a step measures the requests published during its action and its wait
    that the aggregator attributes to the layer (first matching layer in
    list order): totalRequests is the number of such requests over all
    fifteen steps; avgNavLoadTime is the spans of the ten navigation steps
    in seconds, added from the left in step order and divided by 10, as
    numbers (every operation rounded); avgQueryLoadTime is the same over
    the five query steps, divided by 5. *)
Theorem benchmark_summary_is_made_of_step_measurements :
  forall URL_hostname layers env st r l,
    view_available env = true ->
    benchmarkReport (runBenchmark URL_hostname layers env st) = Some r ->
    In l (metricLayers layers) ->
    exists e,
      dict_get (ML.id l) (BRD.summary r) = Some e /\
      LR.totalRequests e
      = Zsum (map (fun k => Z.of_nat (List.length
                     (step_requests (metricLayers layers) (ML.id l) env k)))
                  (seq 0 15)) /\
      LR.avgNavLoadTime e
      = (sum_from_left (map (step_seconds (metricLayers layers) (ML.id l) env)
                            (seq 0 10)) / 10)%float /\
      LR.avgQueryLoadTime e
      = (sum_from_left (map (step_seconds (metricLayers layers) (ML.id l) env)
                            (seq 10 5)) / 5)%float.
Proof.
  intros U layers env st r l Hv Hr Hl.
  rewrite (proj1 (runBenchmark_report U layers env st Hv)) in Hr.
  set (mls := metricLayers layers) in *.
  destruct (benchmark_outcome_steps _ _ _ _ Hr) as [Hsetup Hsteps].
  assert (Hmk : make_report env mls (BRD.steps r) = Some r).
  { unfold benchmark_outcome in Hr. now rewrite Hsetup, Hsteps in Hr. }
  destruct (make_report_inv _ _ _ _ Hmk) as (summary & f & s & Hb & _ & Er).
  assert (Hsum : BRD.summary r = summary) by (rewrite Er; reflexivity).
  rewrite Hsum, (build_summary_get _ _ _ _ _ Hb Hl).
  unfold layer_ranking.
  rewrite (SummaryFacts.steps_results_layer_steps U mls env l nav _ _ _ Hsteps Hl).
  rewrite (SummaryFacts.steps_results_layer_steps U mls env l query _ _ _ Hsteps Hl).
  change (step_indices nav allSteps 0) with (seq 0 10).
  change (step_indices query allSteps 0) with (seq 10 5).
  eexists. split; [reflexivity|]. cbn [LR.totalRequests LR.avgNavLoadTime
                                        LR.avgQueryLoadTime].
  split; [|split].
  - rewrite <- map_app. change (seq 0 10 ++ seq 10 5)%list with (seq 0 15).
    now rewrite SummaryFacts.total_requestCount_sum, map_map.
  - rewrite length_map. change (List.length (seq 0 10)) with 10%nat.
    rewrite SummaryFacts.total_loadTime_sum, map_map. reflexivity.
  - rewrite length_map. change (List.length (seq 10 5)) with 5%nat.
    rewrite SummaryFacts.total_loadTime_sum, map_map. reflexivity.
Qed.

Lemma benchmark_summary_witness :
  exists r e,
    benchmarkReport
      (runBenchmark example_hostname [layerD_A; layerD_B] scenario_D_run idle_app)
    = Some r /\
    dict_get "A" (BRD.summary r) = Some e /\
    LR.totalRequests e = 10.
Proof.
  destruct (benchmarkReport
              (runBenchmark example_hostname [layerD_A; layerD_B]
                            scenario_D_run idle_app)) as [r|] eqn:Hrun;
    [|vm_compute in Hrun; discriminate].
  destruct (benchmark_summary_is_made_of_step_measurements
              example_hostname [layerD_A; layerD_B] scenario_D_run idle_app r _
              eq_refl Hrun (or_introl eq_refl)) as (e & He & Ht & _).
  exists r, e. split; [reflexivity|]. split; [exact He|].
  rewrite Ht. vm_compute. reflexivity.
Defined.

(** ** The metric bus: callbacks that subscribe during a publish *)

Module MetricBusGrowth.
Import MetricBus.

Lemma members_nth s l :
  In l (members s) <-> exists i, nth_error s i = Some (Some l).
Proof.
  induction s as [|[x|] s IH]; simpl.
  - split; [tauto|]. intros [[|i] H]; discriminate.
  - rewrite IH. split.
    + intros [->|[i H]]; [now exists 0%nat|now exists (S i)].
    + intros [[|i] H]; simpl in H; [left; congruence|right; eauto].
  - rewrite IH. split.
    + intros [i H]. now exists (S i).
    + intros [[|i] H]; simpl in H; [discriminate|eauto].
Qed.

Lemma run_op_length s op : (List.length s <= List.length (run_op s op))%nat.
Proof.
  destruct op as [l|l]; simpl.
  - unfold set_add. destruct (set_has l s); [lia|]. rewrite length_app. lia.
  - unfold set_delete. rewrite length_map. lia.
Qed.

Lemma run_op_slot s op i x :
  nth_error (run_op s op) i = Some (Some x) ->
  ((i < List.length s)%nat /\ nth_error s i = Some (Some x)) \/
  ((List.length s <= i)%nat /\ op = Subscribe x).
Proof.
  destruct op as [l|l]; simpl.
  - unfold set_add. destruct (set_has l s).
    + intros H. left. split; [|exact H].
      apply nth_error_Some. congruence.
    + intros H. destruct (Nat.lt_ge_cases i (List.length s)) as [Hlt|Hge].
      * rewrite nth_error_app1 in H by assumption. now left.
      * rewrite nth_error_app2 in H by assumption. right. split; [exact Hge|].
        destruct (i - List.length s)%nat as [|n]; simpl in H;
          [congruence|destruct n; discriminate].
  - unfold set_delete. rewrite nth_error_map.
    destruct (nth_error s i) as [e|] eqn:E; simpl; [|discriminate].
    intros H. left. split; [apply nth_error_Some; congruence|].
    destruct e as [y|]; simpl in H; [|discriminate].
    destruct (Nat.eqb y l); [discriminate|exact H].
Qed.

Lemma run_ops_length_le ops : forall s,
  (List.length s <= List.length (fold_left run_op ops s))%nat.
Proof.
  induction ops as [|op ops IH]; intros s; simpl; [lia|].
  pose proof (run_op_length s op). pose proof (IH (run_op s op)). lia.
Qed.

Lemma run_ops_slot ops : forall s i x,
  nth_error (fold_left run_op ops s) i = Some (Some x) ->
  ((i < List.length s)%nat /\ nth_error s i = Some (Some x)) \/
  ((List.length s <= i)%nat /\ In (Subscribe x) ops).
Proof.
  induction ops as [|op ops IH]; intros s i x H; simpl in H.
  - left. split; [apply nth_error_Some; congruence|exact H].
  - destruct (IH _ _ _ H) as [[Hlt Hs]|[Hge Hin]].
    + destruct (run_op_slot _ _ _ _ Hs) as [[Hlt' Hs']|[Hge' ->]].
      * now left.
      * right. split; [exact Hge'|now left].
    + pose proof (run_op_length s op).
      right. split; [lia|now right].
Qed.

Section Pass.
Variable behaviour : Listener -> NRM.t -> list BusOp.
Variable metric : NRM.t.
Variable listeners : ListenerSet.

Lemma invited_more called l x :
  invited behaviour metric listeners called x ->
  invited behaviour metric listeners (called ++ [l]) x.
Proof.
  intros [H|(c & Hc & Hs)]; [now left|].
  right. exists c. split; [apply in_or_app; now left|exact Hs].
Qed.

Lemma forEach_from_invariant fuel : forall index s called s' called',
  pass_invariant behaviour metric listeners index s called ->
  forEach_from behaviour fuel metric index s called = Some (s', called') ->
  (forall x, In x (members s') -> In x called') /\
  (forall x, In x called' -> invited behaviour metric listeners called' x).
Proof.
  induction fuel as [|fuel IH]; intros index s called s' called' Hinv H;
    [discriminate|].
  destruct Hinv as (Hdone & Hslots & Hcalled). simpl in H.
  destruct (nth_error s index) as [[l|]|] eqn:E.
  - apply (IH _ _ _ _ _) in H; [exact H|]. clear H IH.
    assert (Hl : (index < List.length s)%nat) by (apply nth_error_Some; congruence).
    split; [|split].
    + intros i x Hi Hx. apply run_ops_slot in Hx.
      destruct Hx as [[_ Hx]|[Hge _]]; [|lia].
      apply in_or_app.
      destruct (Nat.eq_dec i index) as [->|Hne].
      * right. left. congruence.
      * left. apply (Hdone i x); [lia|exact Hx].
    + intros i x Hx. apply run_ops_slot in Hx.
      destruct Hx as [[_ Hx]|[_ Hin]].
      * apply invited_more. eapply Hslots; eassumption.
      * right. exists l. split; [apply in_or_app; right; now left|exact Hin].
    + intros x Hx. apply in_app_or in Hx. destruct Hx as [Hx|[<-|[]]].
      * apply invited_more. now apply Hcalled.
      * apply invited_more. eapply Hslots; eassumption.
  - apply (IH _ _ _ _ _) in H; [exact H|]. clear H IH.
    split; [|split; assumption].
    intros i x Hi Hx. destruct (Nat.eq_dec i index) as [->|Hne]; [congruence|].
    apply (Hdone i x); [lia|exact Hx].
  - injection H as <- <-. split; [|exact Hcalled].
    intros x Hx. apply members_nth in Hx. destruct Hx as [i Hi].
    apply (Hdone i x); [|exact Hi].
    apply nth_error_None in E.
    assert (i < List.length s)%nat by (apply nth_error_Some; congruence). lia.
Qed.
End Pass.
End MetricBusGrowth.

(** X22. A publish that returns has called every callback that is subscribed
    when it returns: those subscribed at its beginning and still
    subscribed, and also those that a callback subscribed during the pass
    (they are called in the same pass, for the same metric).  And it calls
    nobody else: every callback called was subscribed when the publish
    began or was subscribed by a callback called in the pass. *)
Theorem publish_reaches_callbacks_subscribed_during_the_pass :
  forall behaviour fuel metric listeners listeners' called,
    MetricBus.notifyListeners behaviour fuel metric listeners
    = Some (listeners', called) ->
    (forall x, In x (MetricBus.members listeners') -> In x called) /\
    (forall x, In x called -> invited behaviour metric listeners called x).
Proof.
  intros behaviour fuel metric listeners listeners' called H.
  unfold MetricBus.notifyListeners in H.
  apply (MetricBusGrowth.forEach_from_invariant behaviour metric listeners
           fuel 0 listeners [] listeners' called); [|exact H].
  split; [|split].
  - intros i x Hi. lia.
  - intros i x Hx. left. apply MetricBusGrowth.members_nth. eauto.
  - intros x [].
Qed.

Lemma publish_reaches_late_subscriber_witness :
  MetricBus.notifyListeners subscribes_another 10 some_metric two_listeners
  = Some ([Some 1%nat; Some 2%nat; Some 5%nat], [1%nat; 2%nat; 5%nat]) /\
  In 5%nat [1%nat; 2%nat; 5%nat].
Proof.
  assert (H : MetricBus.notifyListeners subscribes_another 10 some_metric
                two_listeners
              = Some ([Some 1%nat; Some 2%nat; Some 5%nat], [1%nat; 2%nat; 5%nat]))
    by (vm_compute; reflexivity).
  split; [exact H|].
  apply (proj1 (publish_reaches_callbacks_subscribed_during_the_pass _ _ _ _ _ _ H)).
  simpl. auto.
Defined.

Module MetricBusLoop.
Import MetricBus.

Lemma set_has_deleted l s : set_has l (set_delete l s) = false.
Proof.
  apply not_true_is_false. intros H. apply set_has_members in H.
  rewrite members_set_delete in H. apply filter_In in H.
  destruct H as [_ H]. now rewrite Nat.eqb_refl in H.
Qed.

Lemma run_ops_keep ops l : forall s j,
  nth_error s j = Some (Some l) ->
  unsubscribed_in ops l = false ->
  nth_error (fold_left run_op ops s) j = Some (Some l).
Proof.
  induction ops as [|op ops IH]; intros s j Hj Hops; simpl; [exact Hj|].
  simpl in Hops. apply orb_false_iff in Hops. destruct Hops as [Hop Hops].
  apply IH; [|exact Hops].
  assert (Hlt : (j < List.length s)%nat) by (apply nth_error_Some; congruence).
  destruct op as [y|y]; simpl.
  - unfold set_add. destruct (set_has y s); [exact Hj|].
    now rewrite nth_error_app1.
  - unfold set_delete. rewrite nth_error_map, Hj. simpl.
    rewrite Nat.eqb_sym. now rewrite Hop.
Qed.

Section Loop.
Variable behaviour : Listener -> NRM.t -> list BusOp.
Variable metric : NRM.t.
Variable l : Listener.
Hypothesis resubscribes : behaviour l metric = [Unsubscribe l; Subscribe l].
Hypothesis others_keep_it :
  forall x, x <> l -> unsubscribed_in (behaviour x metric) l = false.

Lemma forEach_from_diverges fuel : forall index s called j,
  (index <= j)%nat -> nth_error s j = Some (Some l) ->
  forEach_from behaviour fuel metric index s called = None.
Proof.
  induction fuel as [|fuel IH]; intros index s called j Hle Hj; [reflexivity|].
  simpl. destruct (nth_error s index) as [[x|]|] eqn:E.
  - destruct (Nat.eq_dec x l) as [->|Hne].
    + rewrite resubscribes. simpl. unfold set_add. rewrite set_has_deleted.
      apply (IH _ _ _ (List.length (set_delete l s))).
      * unfold set_delete. rewrite length_map.
        assert (index < List.length s)%nat by (apply nth_error_Some; congruence).
        lia.
      * rewrite nth_error_app2 by lia. now rewrite Nat.sub_diag.
    + apply (IH _ _ _ j).
      * destruct (Nat.eq_dec j index) as [->|]; [congruence|lia].
      * apply run_ops_keep; [exact Hj|now apply others_keep_it].
  - apply (IH _ _ _ j); [|exact Hj].
    destruct (Nat.eq_dec j index) as [->|]; [congruence|lia].
  - apply nth_error_None in E.
    assert (j < List.length s)%nat by (apply nth_error_Some; congruence). lia.
Qed.
End Loop.
End MetricBusLoop.

(** X23. A callback that unsubscribes and subscribes itself again while it is
    called is visited again by the same pass (the set appends it behind the
    cursor), so the publish never returns: whatever the number of
    iterations allowed, the pass has not finished.  (No other callback is
    assumed to remove it.) *)
Theorem publish_never_returns_when_a_callback_resubscribes_itself :
  forall behaviour metric listeners l,
    In l (MetricBus.members listeners) ->
    behaviour l metric = [MetricBus.Unsubscribe l; MetricBus.Subscribe l] ->
    (forall x, x <> l ->
       MetricBus.unsubscribed_in (behaviour x metric) l = false) ->
    forall fuel,
      MetricBus.notifyListeners behaviour fuel metric listeners = None.
Proof.
  intros behaviour metric listeners l Hin Hre Hothers fuel.
  apply MetricBusGrowth.members_nth in Hin. destruct Hin as [j Hj].
  unfold MetricBus.notifyListeners.
  apply (MetricBusLoop.forEach_from_diverges behaviour metric l Hre Hothers
           fuel 0 listeners [] j); [lia|exact Hj].
Qed.

Lemma publish_never_returns_witness :
  MetricBus.notifyListeners resubscribes_itself 1000 some_metric two_listeners
  = None.
Proof.
  apply (publish_never_returns_when_a_callback_resubscribes_itself
           resubscribes_itself some_metric two_listeners 1%nat).
  - simpl. auto.
  - reflexivity.
  - intros [|[|x]] Hx; [reflexivity|congruence|reflexivity].
Defined.

(** ** The history chart *)

Module HistoryChartFacts.
Import HistoryChart.

Lemma max_of_ge ds : forall mx,
  (mx <= max_of mx ds)%Q /\ (forall d, In d ds -> (d <= max_of mx ds)%Q).
Proof.
  unfold max_of. induction ds as [|d ds IH]; intros mx; simpl.
  - split; [apply Qle_refl|intros d []].
  - destruct (Qltb mx d) eqn:E.
    + apply Qltb_true in E. destruct (IH d) as [H1 H2]. split.
      * eapply Qle_trans; [apply Qlt_le_weak; exact E|exact H1].
      * intros x [<-|Hx]; [exact H1|now apply H2].
    + apply Qltb_false in E. destruct (IH mx) as [H1 H2]. split; [exact H1|].
      intros x [<-|Hx]; [eapply Qle_trans; eassumption|now apply H2].
Qed.

Lemma raise_all_ge history : forall mx,
  (mx <= fold_left raise_maxDuration history mx)%Q /\
  (forall h d, In h history -> In d (Object_values (MEH.layerDurations h)) ->
     (d <= fold_left raise_maxDuration history mx)%Q).
Proof.
  induction history as [|h history IH]; intros mx; simpl.
  - split; [apply Qle_refl|intros h d []].
  - destruct (IH (raise_maxDuration mx h)) as [H1 H2].
    destruct (max_of_ge (Object_values (MEH.layerDurations h)) mx) as [G1 G2].
    split.
    + eapply Qle_trans; [exact G1|exact H1].
    + intros h' d [<-|Hh] Hd.
      * eapply Qle_trans; [apply G2; exact Hd|exact H1].
      * eapply H2; eassumption.
Qed.

Lemma at_least_one_ge q : (1 <= at_least_one q)%Q /\ (q <= at_least_one q)%Q.
Proof.
  unfold at_least_one. destruct (Qltb q 1) eqn:E.
  - apply Qltb_true in E. split; [apply Qle_refl|now apply Qlt_le_weak].
  - apply Qltb_false in E. split; [exact E|apply Qle_refl].
Qed.

Lemma chart_maxDuration_ge history mx :
  chart_maxDuration history = Some mx ->
  (1 <= mx)%Q /\
  (forall h d, In h history -> In d (Object_values (MEH.layerDurations h)) ->
     (d <= mx)%Q).
Proof.
  unfold chart_maxDuration. destruct history as [|h0 rest] eqn:Eh; [discriminate|].
  rewrite <- Eh. intros [= <-].
  destruct (at_least_one_ge (fold_left raise_maxDuration history 0%Q)) as [H1 H2].
  split; [exact H1|]. intros h d Hh Hd.
  eapply Qle_trans; [|exact H2]. eapply (raise_all_ge history 0%Q); eassumption.
Qed.

Lemma duration_of_bounds history h id mx :
  nonnegative_log history -> In h history ->
  (forall h d, In h history -> In d (Object_values (MEH.layerDurations h)) ->
     (d <= mx)%Q) ->
  (0 <= mx)%Q ->
  (0 <= duration_of h id)%Q /\ (duration_of h id <= mx)%Q.
Proof.
  intros Hnn Hh Hmx H0. unfold duration_of.
  destruct (dict_get id (MEH.layerDurations h)) as [d|] eqn:E.
  - apply dict_get_In in E.
    assert (Hd : In d (Object_values (MEH.layerDurations h))).
    { apply Object_values_In. now exists id. }
    rewrite or_zero_eq. split; [eapply Hnn; eassumption|eapply Hmx; eassumption].
  - split; [apply Qle_refl|exact H0].
Qed.

Lemma fraction_bounds a b :
  (0 <= a)%Q -> (a <= b)%Q -> (0 < b)%Q -> (0 <= a / b)%Q /\ (a / b <= 1)%Q.
Proof.
  intros Ha Hab Hb. split; [now apply Qdiv_nonneg|].
  apply Qle_shift_div_r; [exact Hb|]. now rewrite Qmult_1_l.
Qed.

Lemma getY_inside mx d :
  (0 <= d)%Q -> (d <= mx)%Q -> (1 <= mx)%Q ->
  (padding <= getY mx d)%Q /\ (getY mx d <= height - padding)%Q.
Proof.
  intros Hd Hle Hmx.
  destruct (fraction_bounds d mx Hd Hle) as [H0 H1];
    [eapply Qlt_le_trans; [|exact Hmx]; reflexivity|].
  unfold getY, padding, height. set (t := (d / mx)%Q) in *.
  split; lra.
Qed.

Lemma getX_inside count index :
  (index < count)%nat ->
  (padding <= getX count index)%Q /\ (getX count index <= width - padding)%Q.
Proof.
  intros Hlt.
  assert (Hc : (0 < inject_Z (Z.of_nat count) - 1)%Q \/ index = 0%nat).
  { destruct (Nat.eq_dec index 0) as [->|Hne]; [now right|]. left.
    unfold Qlt, Qminus, Qplus, Qopp, inject_Z. simpl. lia. }
  destruct Hc as [Hc| ->].
  - destruct (fraction_bounds (inject_Z (Z.of_nat index))
                              (inject_Z (Z.of_nat count) - 1)%Q) as [H0 H1].
    + unfold Qle, inject_Z. simpl. lia.
    + unfold Qle, Qminus, Qplus, Qopp, inject_Z. simpl. lia.
    + exact Hc.
    + unfold getX, padding, width.
      set (t := (inject_Z (Z.of_nat index) / (inject_Z (Z.of_nat count) - 1))%Q) in *.
      split; lra.
  - unfold getX, padding, width. simpl Z.of_nat.
    assert (E : (inject_Z 0 / (inject_Z (Z.of_nat count) - 1) == 0)%Q)
      by (unfold Qdiv; apply Qmult_0_l).
    set (t := (inject_Z 0 / (inject_Z (Z.of_nat count) - 1))%Q) in *.
    split; lra.
Qed.
End HistoryChartFacts.

(** X24. The chart is drawn only for a log of two or more events, with one
    point per event for each layer.  Its scale is at least one second and
    at least the largest duration of the log, so when the log holds no
    negative duration every point of every layer's line lies inside the
    plot area, between the padding and the far edge minus the padding in
    both directions; a layer without an entry in an event is drawn on the
    axis. *)
Theorem history_chart_stays_inside_the_plot :
  forall history id points,
    HistoryChart.polyline history id = Some points ->
    nonnegative_log history ->
    (2 <= List.length history)%nat /\
    List.length points = List.length history /\
    forall p, In p points -> inside_plot p.
Proof.
  intros history id points H Hnn. unfold HistoryChart.polyline in H.
  destruct (HistoryChart.chart_maxDuration history) as [mx|] eqn:Emx;
    [|discriminate].
  destruct (Nat.ltb (List.length history) 2) eqn:Elen; [discriminate|].
  apply Nat.ltb_ge in Elen. injection H as <-.
  destruct (HistoryChartFacts.chart_maxDuration_ge _ _ Emx) as [Hone Hmax].
  split; [exact Elen|]. split.
  - rewrite length_map, length_combine, length_seq. lia.
  - intros p Hp. apply in_map_iff in Hp. destruct Hp as ([i h] & <- & Hih).
    pose proof (in_combine_l _ _ _ _ Hih) as Hi. apply in_seq in Hi.
    pose proof (in_combine_r _ _ _ _ Hih) as Hh.
    destruct (HistoryChartFacts.duration_of_bounds history h id mx Hnn Hh Hmax)
      as [Hd0 Hd1]; [eapply Qle_trans; [|exact Hone]; discriminate|].
    destruct (HistoryChartFacts.getY_inside mx _ Hd0 Hd1 Hone) as [Hy0 Hy1].
    destruct (HistoryChartFacts.getX_inside (List.length history) i) as [Hx0 Hx1];
      [lia|].
    unfold inside_plot. cbn [fst snd]. repeat split; assumption.
Qed.

Lemma history_chart_witness :
  exists points,
    HistoryChart.polyline two_events "X" = Some points /\
    List.length points = 2%nat.
Proof.
  destruct (HistoryChart.polyline two_events "X") as [points|] eqn:E;
    [|vm_compute in E; discriminate].
  exists points. split; [reflexivity|].
  refine (proj1 (proj2 (history_chart_stays_inside_the_plot _ _ _ E _))).
  intros h d [<-|[<-|[]]] [<-|[]]; vm_compute; discriminate.
Defined.

(** ** The benchmark orchestrator: no tracked layer *)

(** X25. A benchmark started when no layer is tracked (no layer at all, or all
    excluded from the metrics) still runs its fifteen steps and stores a
    report when the navigations resolve: every step is recorded with no
    layer, the summary is empty, there is neither a fastest nor a slowest
    layer, and the percentage is 0. *)
Theorem benchmark_without_tracked_layers_has_no_ranking :
  forall URL_hostname layers env st,
    view_available env = true ->
    metricLayers layers = [] ->
    setup_goTo env = Resolved ->
    (forall k, (k < 10)%nat -> goTo_outcome (step_env env k) = Resolved) ->
    exists r,
      benchmarkReport (runBenchmark URL_hostname layers env st) = Some r /\
      List.length (BRD.steps r) = 15%nat /\
      (forall x, In x (BRD.steps r) -> BSR.layerMetrics x = []) /\
      BRD.summary r = [] /\
      BRD.fastestLayerId r = None /\
      BRD.slowestLayerId r = None /\
      BRD.percentFaster r = 0%float.
Proof.
  intros U layers env st Hv Hmls Hsetup Hnav.
  rewrite (proj1 (runBenchmark_report U layers env st Hv)), Hmls.
  unfold benchmark_outcome. rewrite Hsetup.
  destruct (steps_results_total U [] env allSteps 0) as [results Hres].
  { intros j step Hj. simpl.
    destruct (calculateMetrics_on_returns U []
                (arrived_in_action (step_env env j) ++ arrived_in_wait (step_env env j)))
      as [sm Hsm]; [intros l []|].
    unfold step_result. rewrite Hsm.
    destruct (allSteps_actions j step Hj) as [[Hlt (z & c & ->)]|[_ ->]]; simpl.
    - rewrite (Hnav j Hlt). discriminate.
    - discriminate. }
  rewrite Hres.
  destruct (steps_results_nth _ _ _ _ _ _ Hres) as [Hlen Hnth].
  eexists. split; [reflexivity|]. cbn [BRD.steps BRD.summary BRD.fastestLayerId
                                        BRD.slowestLayerId BRD.percentFaster].
  split; [exact Hlen|]. split; [|repeat split].
  intros x Hx. apply In_nth_error in Hx. destruct Hx as [j Hj].
  assert (Hlt : (j < List.length allSteps)%nat)
    by (rewrite <- Hlen; apply nth_error_Some; congruence).
  destruct (nth_error allSteps j) as [step|] eqn:Es;
    [|apply nth_error_None in Es; lia].
  destruct (Hnth j step Es) as (x' & Hx' & Hstep). simpl in Hstep.
  assert (x' = x) as -> by congruence.
  apply step_result_Some in Hstep. destruct Hstep as (_ & sm & _ & ->).
  reflexivity.
Qed.

Lemma benchmark_without_tracked_layers_witness :
  exists r,
    benchmarkReport (runBenchmark example_hostname [] quiet_run idle_app) = Some r /\
    BRD.fastestLayerId r = None.
Proof.
  destruct (benchmark_without_tracked_layers_has_no_ranking
              example_hostname [] quiet_run idle_app eq_refl eq_refl eq_refl
              (fun k _ => eq_refl))
    as (r & Hr & _ & _ & _ & Hf & _).
  exists r. split; assumption.
Defined.

(** ** The map event detector of the earlier application *)

(** X26. In the earlier application a render either leaves the log as it is or
    appends one entry to its last 19 entries, numbered with the length of
    the log plus one.  So the log never grows beyond 20 entries; and once
    it holds 20, every further event is recorded under the id 21 while the
    oldest entry is dropped: the ids of the log are no longer its
    positions, and repeat. *)
Theorem earlier_event_log_is_capped_at_twenty :
  forall URL_hostname r st st',
    EarlierDetector.render_effect URL_hostname r st = Some st' ->
    (EventDetector.history st' = EventDetector.history st \/
     exists h,
       EventDetector.history st'
       = slice_last 19 (EventDetector.history st) ++ [h] /\
       MEH.id h = Z.of_nat (List.length (EventDetector.history st)) + 1) /\
    ((List.length (EventDetector.history st) <= 20)%nat ->
     (List.length (EventDetector.history st') <= 20)%nat) /\
    (List.length (EventDetector.history st) = 20%nat ->
     EventDetector.history st' <> EventDetector.history st ->
     List.length (EventDetector.history st') = 20%nat /\
     exists h, EventDetector.history st'
               = skipn 1 (EventDetector.history st) ++ [h] /\
               MEH.id h = 21).
Proof.
  intros U r st st' H. unfold EarlierDetector.render_effect in H.
  destruct (aggregatedMetrics U _ _) as [agg|]; [|discriminate].
  injection H as <-.
  assert (Hcases :
    EventDetector.history (EarlierDetector.mapEventEffect agg r st)
    = EventDetector.history st \/
    EventDetector.history (EarlierDetector.mapEventEffect agg r st)
    = slice_last 19 (EventDetector.history st)
        ++ [EventDetector.snapshot (List.length (EventDetector.history st))
                                   (EventDetector.clock r) agg]).
  { unfold EarlierDetector.mapEventEffect.
    destruct (EventDetector.isRecording r); simpl; [|now left].
    destruct (EventDetector.isMapUpdating r), (EventDetector.prevUpdatingRef st);
      simpl; try (now left).
    destruct (EventDetector.some_traffic agg); simpl; [now right|now left]. }
  pose proof (SubscriberFacts.slice_last_length 19 (EventDetector.history st)) as Hcap.
  split; [|split].
  - destruct Hcases as [E|E]; [now left|right]. eexists. split; [exact E|reflexivity].
  - intros Hle. destruct Hcases as [E|E]; rewrite E; [exact Hle|].
    rewrite length_app. simpl. lia.
  - intros Hfull Hchanged. destruct Hcases as [E|E]; [contradiction|].
    rewrite E. split.
    + rewrite length_app. unfold slice_last. rewrite length_skipn, Hfull.
      reflexivity.
    + eexists. split.
      * unfold slice_last. rewrite Hfull. reflexivity.
      * reflexivity.
Qed.

Lemma earlier_event_log_witness :
  exists st',
    EarlierDetector.render_effect example_hostname render_idle
      (EventDetector.mkState true batchA full_log) = Some st' /\
    List.length (EventDetector.history st') = 20%nat /\
    exists h, EventDetector.history st' = skipn 1 full_log ++ [h] /\ MEH.id h = 21.
Proof.
  destruct (EarlierDetector.render_effect example_hostname render_idle
              (EventDetector.mkState true batchA full_log)) as [st'|] eqn:E;
    [|vm_compute in E; discriminate].
  exists st'. split; [reflexivity|].
  apply (proj2 (proj2 (earlier_event_log_is_capped_at_twenty _ _ _ _ E)));
    [reflexivity|].
  vm_compute in E. injection E as <-. simpl. intros Heq.
  apply (f_equal (fun l => nth_error l 0)) in Heq. discriminate.
Defined.

(** ** The bar chart *)

Module MetricChartsFacts.
Import MetricCharts.

Lemma maxTimeMs_ge data :
  1000 <= maxTimeMs data /\
  forall item, In item data -> LPS.loadTime item <= maxTimeMs data.
Proof.
  unfold maxTimeMs. induction data as [|d data [IH1 IH2]]; simpl.
  - split; [lia|intros item []].
  - split; [lia|]. intros item [<-|H]; [lia|]. specialize (IH2 item H). lia.
Qed.

Lemma aggregate_loadTime_nonneg URL_hostname layers metrics data item :
  calculateMetrics URL_hostname layers metrics = Some data \/
  aggregatedMetrics URL_hostname layers metrics = Some data ->
  Forall well_timed metrics ->
  In item data -> 0 <= LPS.loadTime item.
Proof.
  intros Hd Hwt Hin.
  assert (Hex : exists unsorted,
             calculateMetrics URL_hostname layers metrics = Some unsorted /\
             In item unsorted).
  { destruct Hd as [Hd|Hd]; [eauto|]. unfold aggregatedMetrics in Hd.
    destruct (calculateMetrics URL_hostname layers metrics) as [u|]; [|discriminate].
    injection Hd as <-. exists u. split; [reflexivity|].
    now apply sort_by_loadTime_desc_In. }
  destruct Hex as (u & Hc & Hu). unfold calculateMetrics in Hc.
  destruct (calculateMetrics_on_spec _ _ _ _ Hc) as (_ & _ & Hall).
  rewrite Forall_forall in Hall.
  destruct (Hall item Hu) as (Hreq & _ & _ & _ & _ & _ & Hload).
  rewrite Hload. apply span_nonneg. rewrite Hreq.
  rewrite Forall_forall in Hwt |- *. intros m Hm.
  apply filter_In in Hm. now apply Hwt.
Qed.
End MetricChartsFacts.

(** X27. The bars of the chart, for the summaries that the aggregator makes of
    well-timed requests.  The scale is the largest load time, and at least
    one second.  Every bar is between 0 and 100 percent wide and
    proportional to the load time: the clip at 100 never cuts.  A bar is
    full only for a layer that is the slowest and took at least one
    second. *)
Theorem metric_chart_bars_are_proportional :
  forall URL_hostname layers metrics data item,
    calculateMetrics URL_hostname layers metrics = Some data \/
    aggregatedMetrics URL_hostname layers metrics = Some data ->
    Forall well_timed metrics ->
    In item data ->
    1000 <= MetricCharts.maxTimeMs data /\
    (0 <= MetricCharts.percentage data item)%Q /\
    (MetricCharts.percentage data item <= 100)%Q /\
    (MetricCharts.percentage data item
     == inject_Z (LPS.loadTime item) / inject_Z (MetricCharts.maxTimeMs data) * 100)%Q /\
    ((MetricCharts.percentage data item == 100)%Q ->
     1000 <= LPS.loadTime item /\
     forall other, In other data -> LPS.loadTime other <= LPS.loadTime item).
Proof.
  intros U layers metrics data item Hd Hwt Hin.
  pose proof (MetricChartsFacts.aggregate_loadTime_nonneg U _ _ _ _ Hd Hwt Hin) as H0.
  destruct (MetricChartsFacts.maxTimeMs_ge data) as [Hmin Hmax].
  pose proof (Hmax item Hin) as Hle.
  set (M := MetricCharts.maxTimeMs data) in *.
  assert (HM : (0 < inject_Z M)%Q).
  { change 0%Q with (inject_Z 0). rewrite <- Zlt_Qlt. lia. }
  destruct (HistoryChartFacts.fraction_bounds
              (inject_Z (LPS.loadTime item)) (inject_Z M)) as [Ht0 Ht1].
  { change 0%Q with (inject_Z 0). now rewrite <- Zle_Qle. }
  { now rewrite <- Zle_Qle. }
  { exact HM. }
  assert (Hperc : (MetricCharts.percentage data item
                   == inject_Z (LPS.loadTime item) / inject_Z M * 100)%Q).
  { unfold MetricCharts.percentage, MetricCharts.Math_min2. fold M.
    set (t := (inject_Z (LPS.loadTime item) / inject_Z M)%Q) in *.
    destruct (Qltb 100 (t * 100)) eqn:E; [|reflexivity].
    apply Qltb_true in E. lra. }
  split; [exact Hmin|].
  split; [rewrite Hperc; set (t := (_ / _)%Q) in *; lra|].
  split; [rewrite Hperc; set (t := (_ / _)%Q) in *; lra|].
  split; [exact Hperc|].
  intros Hfull. rewrite Hperc in Hfull.
  assert (Hone : (inject_Z (LPS.loadTime item) / inject_Z M == 1)%Q)
    by (set (t := (_ / _)%Q) in *; lra).
  assert (Heq : LPS.loadTime item = M).
  { apply inject_Z_injective.
    eapply Qeq_trans;
      [symmetry; apply (Qmult_div_r _ (inject_Z M));
       intros Hz; rewrite Hz in HM; discriminate|].
    apply Qeq_trans with (inject_Z M * 1)%Q;
      [apply Qmult_comp; [reflexivity|exact Hone]|apply Qmult_1_r]. }
  rewrite Heq. split; [exact Hmin|exact Hmax].
Qed.

Lemma metric_chart_bars_witness :
  exists data item,
    calculateMetrics example_hostname [layerX] batchA = Some data /\
    In item data /\
    (MetricCharts.percentage data item <= 100)%Q.
Proof.
  destruct (calculateMetrics example_hostname [layerX] batchA) as [data|] eqn:E;
    [|vm_compute in E; discriminate].
  destruct data as [|item rest] eqn:Ed; [vm_compute in E; discriminate|].
  exists (item :: rest), item. split; [reflexivity|]. split; [now left|].
  refine (proj1 (proj2 (proj2 (metric_chart_bars_are_proportional
            example_hostname [layerX] batchA (item :: rest) item
            (or_introl E) _ (or_introl eq_refl))))).
  repeat (apply Forall_cons; [split; [vm_compute; discriminate|reflexivity]|]).
  apply Forall_nil.
Defined.
